(** * The security and rate-limiting subsystem of jobpay-backend

    A shallow embedding of the Redis-backed services
    - [RedisService]            (src/src/monitoring/telemetry.ts),
    - [RedisSecurityService]    (src/unnamed/part_020),
    - [RedisIpBlockingService]  (src/src/security/validation.service.ts),
    - [RedisPerformanceService] (src/unnamed/part_021),
    together with the fragment of the Redis command set they use, and of
    the middleware in front of them,
    - [SecurityMiddleware]      (src/unnamed/part_023).

    Modelling conventions.
    - Time is an integer number of milliseconds ([Date.now()]).  A service
      method reads the clock once: the instant [now] is an argument of every
      method and is the same for all the clock reads of one invocation.
    - JavaScript numbers that the services manipulate are integers well inside
      the exact range of a double; they are modelled by [Z].  The one
      quotient, the mean of the response times, is the double that the
      division yields, modelled by its rational value ([divDouble]).
    - A [Date] is valid up to 8.64e15 ms from the epoch; an invalid one is
      written as [null] by [JSON.stringify] ([newDate]).
    - A payload written with [JSON.stringify] is kept as the record it
      encodes: [JSON.parse] after [JSON.stringify] is the identity on the
      records below (a [Date] travels as its ISO string and is rebuilt with
      [new Date(..)]; an [undefined] field is dropped and read back as
      [undefined]).
    - An [async] method is a state transformer on the [World]; an exception is
      an explicit [Throw]. *)

From Stdlib Require Import ZArith List Bool Lia QArith.
From stdpp Require Import base option gmap strings pretty list sorting.

Open Scope string_scope.
Open Scope Z_scope.

(** ** Stored data *)

Inductive Severity := medium | high.

(** The object literal built by [addToSuspiciousIps]. *)
Record SuspiciousData := mkSuspiciousData {
  sip : string;
  reasons : list string;
  firstSeen : Z;
  lastSeen : Z;
  count : Z;
  severity : Severity
}.

(** [interface BlockedIP]; [expiresAt?: Date] is an optional field. *)
Record BlockedIP := mkBlockedIP {
  ip : string;
  reason : string;
  blockedAt : Z;
  expiresAt : option Z;
  isTemporary : bool
}.

(** [interface PerformanceMetric]. *)
Record PerformanceMetric := mkPerformanceMetric {
  endpoint : string;
  method : string;
  responseTime : Z;
  timestamp : Z;
  statusCode : Z;
  memoryUsage : Z
}.

(** What a Redis string (or a hash field) holds.  [PText] is any other
    string; it is taken to parse neither as an integer nor as one of the
    records. *)
Inductive payload :=
  | PInt (n : Z)
  | PSuspicious (d : SuspiciousData)
  | PBlocked (b : BlockedIP)
  | PMetric (m : PerformanceMetric)
  | PText (s : string).

#[global] Instance Severity_eq_dec : EqDecision Severity.
Proof. solve_decision. Defined.
#[global] Instance SuspiciousData_eq_dec : EqDecision SuspiciousData.
Proof. solve_decision. Defined.
#[global] Instance BlockedIP_eq_dec : EqDecision BlockedIP.
Proof. solve_decision. Defined.
#[global] Instance PerformanceMetric_eq_dec : EqDecision PerformanceMetric.
Proof. solve_decision. Defined.
#[global] Instance payload_eq_dec : EqDecision payload.
Proof. solve_decision. Defined.

Inductive rvalue :=
  | RString (p : payload)
  | RHash (h : gmap string payload)
  | RZSet (z : gmap string Z).

(** A key of the database: its value and, when it is volatile, the instant
    (ms) at which it expires. *)
Record entry := mkEntry { value : rvalue; ttl : option Z }.

Abbreviation DB := (gmap string entry).

Inductive error :=
  | ReplyError      (* WRONGTYPE, "value is not an integer" *)
  | SyntaxError     (* JSON.parse on something that is not JSON *)
  | TypeError       (* property access or spread on a non-object *)
  | ConnectionError (* ECONNRESET, ECONNREFUSED, "Connection is closed" *).

Inductive result (T : Type) :=
  | Ok (v : T)
  | Throw (e : error).
Arguments Ok {T} v.
Arguments Throw {T} e.

(** ** The Redis commands used by the services *)

Module Redis.

(** A key has expired once the clock is past its expiry instant. *)
Definition expired (now : Z) (e : entry) : bool :=
  match ttl e with
  | Some t => t <? now
  | None => false
  end.

Definition find (now : Z) (d : DB) (key : string) : option entry :=
  match d !! key with
  | Some e => if expired now e then None else Some e
  | None => None
  end.

Definition get (now : Z) (key : string) (d : DB) : result (option payload) * DB :=
  match find now d key with
  | None => (Ok None, d)
  | Some (mkEntry (RString p) _) => (Ok (Some p), d)
  | Some _ => (Throw ReplyError, d)
  end.

(** INCR creates the key at 1 with no expiry, and otherwise keeps the
    expiry of the key. *)
Definition incr (now : Z) (key : string) (d : DB) : result Z * DB :=
  match find now d key with
  | None => (Ok 1, <[key := mkEntry (RString (PInt 1)) None]> d)
  | Some (mkEntry (RString (PInt n)) t) =>
      (Ok (n + 1), <[key := mkEntry (RString (PInt (n + 1))) t]> d)
  | Some _ => (Throw ReplyError, d)
  end.

(** EXPIRE: 0 when the key does not exist; a non-positive time to live
    deletes the key. *)
Definition expire (now : Z) (key : string) (seconds : Z) (d : DB) : result Z * DB :=
  match find now d key with
  | None => (Ok 0, d)
  | Some e =>
      if seconds <=? 0 then (Ok 1, delete key d)
      else (Ok 1, <[key := mkEntry (value e) (Some (now + seconds * 1000))]> d)
  end.

Definition setex (now : Z) (key : string) (seconds : Z) (p : payload) (d : DB)
  : result unit * DB :=
  if seconds <=? 0 then (Throw ReplyError, d)
  else (Ok tt, <[key := mkEntry (RString p) (Some (now + seconds * 1000))]> d).

(** DEL of several keys: the number of keys that existed. *)
Fixpoint del_keys (now : Z) (keys : list string) (d : DB) : Z * DB :=
  match keys with
  | [] => (0, d)
  | key :: rest =>
      let here := if find now d key is Some _ then 1 else 0 in
      let '(n, d') := del_keys now rest (delete key d) in
      (here + n, d')
  end.

Definition del (now : Z) (keys : list string) (d : DB) : result Z * DB :=
  let '(n, d') := del_keys now keys d in (Ok n, d').

(** HSET key f1 v1 f2 v2 ...: the number of fields that were added. *)
Fixpoint hset_fields (fields : list (string * payload)) (h : gmap string payload)
  : Z * gmap string payload :=
  match fields with
  | [] => (0, h)
  | (f, v) :: rest =>
      let added := if h !! f is Some _ then 0 else 1 in
      let '(n, h') := hset_fields rest (<[f := v]> h) in
      (added + n, h')
  end.

Definition hset (now : Z) (key : string) (fields : list (string * payload)) (d : DB)
  : result Z * DB :=
  match find now d key with
  | None =>
      let '(n, h) := hset_fields fields ∅ in
      (Ok n, <[key := mkEntry (RHash h) None]> d)
  | Some (mkEntry (RHash h0) t) =>
      let '(n, h) := hset_fields fields h0 in
      (Ok n, <[key := mkEntry (RHash h) t]> d)
  | Some _ => (Throw ReplyError, d)
  end.

Definition hget (now : Z) (key field : string) (d : DB) : result (option payload) * DB :=
  match find now d key with
  | None => (Ok None, d)
  | Some (mkEntry (RHash h) _) => (Ok (h !! field), d)
  | Some _ => (Throw ReplyError, d)
  end.

(** HDEL: a hash that loses its last field is removed. *)
Definition hdel (now : Z) (key field : string) (d : DB) : result Z * DB :=
  match find now d key with
  | None => (Ok 0, d)
  | Some (mkEntry (RHash h) t) =>
      match h !! field with
      | None => (Ok 0, d)
      | Some _ =>
          let h' := delete field h in
          if decide (h' = ∅) then (Ok 1, delete key d)
          else (Ok 1, <[key := mkEntry (RHash h') t]> d)
      end
  | Some _ => (Throw ReplyError, d)
  end.

Definition hgetall (now : Z) (key : string) (d : DB)
  : result (gmap string payload) * DB :=
  match find now d key with
  | None => (Ok ∅, d)
  | Some (mkEntry (RHash h) _) => (Ok h, d)
  | Some _ => (Throw ReplyError, d)
  end.

(** HINCRBY: an absent field counts as 0. *)
Definition hincrby (now : Z) (key field : string) (n : Z) (d : DB) : result Z * DB :=
  match find now d key with
  | None => (Ok n, <[key := mkEntry (RHash {[field := PInt n]}) None]> d)
  | Some (mkEntry (RHash h) t) =>
      match h !! field with
      | None => (Ok n, <[key := mkEntry (RHash (<[field := PInt n]> h)) t]> d)
      | Some (PInt m) =>
          (Ok (m + n), <[key := mkEntry (RHash (<[field := PInt (m + n)]> h)) t]> d)
      | Some _ => (Throw ReplyError, d)
      end
  | Some _ => (Throw ReplyError, d)
  end.

(** MGET: nil for a key that is absent or does not hold a string. *)
Definition mget (now : Z) (keys : list string) (d : DB)
  : result (list (option payload)) * DB :=
  (Ok (map (fun key => match find now d key with
                       | Some (mkEntry (RString p) _) => Some p
                       | _ => None
                       end) keys), d).

(** ZADD of one member: 1 when the member is new. *)
Definition zadd (now : Z) (key : string) (score : Z) (member : string) (d : DB)
  : result Z * DB :=
  match find now d key with
  | None => (Ok 1, <[key := mkEntry (RZSet {[member := score]}) None]> d)
  | Some (mkEntry (RZSet z) t) =>
      (Ok (if z !! member is Some _ then 0 else 1),
       <[key := mkEntry (RZSet (<[member := score]> z)) t]> d)
  | Some _ => (Throw ReplyError, d)
  end.

(** The order of a sorted set: by score, then by member. *)
Definition zset_le (a b : string * Z) : Prop :=
  a.2 < b.2 ∨ (a.2 = b.2 ∧ String.leb a.1 b.1 = true).

#[global] Instance zset_le_dec : RelDecision zset_le.
Proof. intros a b. unfold zset_le. apply _. Defined.

Definition in_range (min max : Z) (x : string * Z) : bool :=
  (min <=? x.2) && (x.2 <=? max).

Definition zrange (min max : Z) (z : gmap string Z) : list (string * Z) :=
  merge_sort zset_le (List.filter (in_range min max) (map_to_list z)).

Definition zrangebyscore (now : Z) (key : string) (min max : Z) (d : DB)
  : result (list string) * DB :=
  match find now d key with
  | None => (Ok [], d)
  | Some (mkEntry (RZSet z) _) => (Ok (map fst (zrange min max z)), d)
  | Some _ => (Throw ReplyError, d)
  end.

(** ZREMRANGEBYSCORE: a sorted set that loses its last member is removed. *)
Definition zremrangebyscore (now : Z) (key : string) (min max : Z) (d : DB)
  : result Z * DB :=
  match find now d key with
  | None => (Ok 0, d)
  | Some (mkEntry (RZSet z) t) =>
      let gone := zrange min max z in
      let z' := foldr (fun x acc => delete x.1 acc) z gone in
      (Ok (Z.of_nat (length gone)),
       if decide (z' = ∅) then delete key d
       else <[key := mkEntry (RZSet z') t]> d)
  | Some _ => (Throw ReplyError, d)
  end.

(** Commands queued on a pipeline.  [exec] never rejects because of a
    command: it resolves to one [err, reply] pair per command. *)
Inductive command :=
  | INCR (key : string)
  | EXPIRE (key : string) (seconds : Z)
  | HSET (key : string) (fields : list (string * payload))
  | HINCRBY (key field : string) (n : Z).

Definition run (now : Z) (c : command) (d : DB) : result Z * DB :=
  match c with
  | INCR key => incr now key d
  | EXPIRE key seconds => expire now key seconds d
  | HSET key fields => hset now key fields d
  | HINCRBY key field n => hincrby now key field n d
  end.

Fixpoint exec (now : Z) (pipeline : list command) (d : DB) : list (result Z) * DB :=
  match pipeline with
  | [] => ([], d)
  | c :: rest =>
      let '(r, d1) := run now c d in
      let '(rs, d2) := exec now rest d1 in
      (r :: rs, d2)
  end.

(** SET without option: the key holds the string and has no expiry. *)
Definition set (now : Z) (key : string) (p : payload) (d : DB) : result unit * DB :=
  (Ok tt, <[key := mkEntry (RString p) None]> d).


End Redis.

(** ** The process and the server *)

(** [isConnected] and [client] are the fields [isConnected] and [redis] of
    [RedisService] ([client] tells whether [this.redis] is non-null); [db] is
    the content of the server.  [blockIpCalls] is a history variable: the
    arguments of every invocation of [RedisIpBlockingService.blockIp], most
    recent first. *)
Record World := mkWorld {
  isConnected : bool;
  client : bool;
  db : DB;
  blockIpCalls : list (string * string * option Z)
}.

Definition set_db (d : DB) (w : World) : World :=
  mkWorld (isConnected w) (client w) d (blockIpCalls w).

Definition set_isConnected (b : bool) (w : World) : World :=
  mkWorld b (client w) (db w) (blockIpCalls w).

Definition record_blockIp (c : string * string * option Z) (w : World) : World :=
  mkWorld (isConnected w) (client w) (db w) (c :: blockIpCalls w).

(** An asynchronous computation that may reject. *)
Definition M (T : Type) : Type := World → result T * World.

Definition ret {T} (v : T) : M T := fun w => (Ok v, w).

Definition throw {T} (e : error) : M T := fun w => (Throw e, w).

Definition bind {T U} (m : M T) (k : T → M U) : M U :=
  fun w => match m w with
           | (Ok v, w') => k v w'
           | (Throw e, w') => (Throw e, w')
           end.

Notation "'LET' x <- m 'IN' k" := (bind m (fun x => k))
  (at level 10, x name, m at level 100, k at level 200).

(** A command sent to the server. *)
Definition call {T} (c : DB → result T * DB) : M T :=
  fun w => let '(r, d) := c (db w) in (r, set_db d w).

(** [await pipeline.exec()]. *)
Definition exec_pipeline (now : Z) (pipeline : list Redis.command) : M (list (result Z)) :=
  fun w => let '(rs, d) := Redis.exec now pipeline (db w) in (Ok rs, set_db d w).

(** Awaiting a service method, which never rejects. *)
Definition await {T} (f : World → T * World) : M T :=
  fun w => let '(v, w') := f w in (Ok v, w').

Module RedisService.

Definition isAvailable (w : World) : bool := isConnected w && client w.

(** The tests on [error.message] of the [catch] block. *)
Definition isConnectionError (e : error) : bool :=
  match e with
  | ConnectionError => true
  | _ => false
  end.

Definition executeOperation {T} (operation : M T) (fallback : T) : World → T * World :=
  fun w =>
    if negb (isAvailable w) || negb (client w) then (fallback, w)
    else match operation w with
         | (Ok v, w') => (v, w')
         | (Throw e, w') =>
             (fallback, if isConnectionError e then set_isConnected false w' else w')
         end.

(** The wrappers of single commands ("Common Redis operations with built-in
    error handling"). *)
Definition get (now : Z) (key : string) : World → option payload * World :=
  executeOperation (call (Redis.get now key)) None.

(** [ttl?: number] is tested for truthiness: [undefined] and [0] select
    SET. *)
Definition set (now : Z) (key : string) (value : payload) (ttl : option Z)
  : World → option string * World :=
  executeOperation
    (match ttl with
     | Some seconds =>
         if seconds =? 0
         then (LET _ <- call (Redis.set now key value) IN ret (Some "OK"))
         else (LET _ <- call (Redis.setex now key seconds value) IN ret (Some "OK"))
     | None => LET _ <- call (Redis.set now key value) IN ret (Some "OK")
     end)
    None.

Definition del (now : Z) (key : string) : World → Z * World :=
  executeOperation (call (Redis.del now [key])) 0.


End RedisService.

(** ** JavaScript helpers *)

Inductive number := Num (n : Z) | NaN.

(** The empty string is the only falsy string. *)
Definition falsy (p : payload) : bool :=
  match p with
  | PText "" => true
  | _ => false
  end.

Definition parseInt (p : payload) : number :=
  match p with
  | PInt n => Num n
  | _ => NaN
  end.

(** [x >= k] and [Math.max(0, k - x)] on a possibly-NaN [x]. *)
Definition number_ge (x : number) (k : Z) : bool :=
  match x with
  | Num n => k <=? n
  | NaN => false
  end.

Definition max0_minus (k : Z) (x : number) : number :=
  match x with
  | Num n => Num (Z.max 0 (k - n))
  | NaN => NaN
  end.

(** [new Date(t)], as [JSON.stringify] writes it and [JSON.parse] and
    [new Date(..)] read it back: a time value further than 8.64e15 ms from
    the epoch makes an invalid date, which is written as [null].  The
    readings [now] of the clock of a running process are small enough for
    the sum [now + d] in doubles to be out of that range exactly when the
    integer sum is. *)
Definition MAX_TIME : Z := 8640000000000000.

Definition newDate (t : Z) : option Z :=
  if Z.abs t <=? MAX_TIME then Some t else None.

(** The integer nearest to a/b for b > 0, the even one of the two when a/b
    lies half-way. *)
Definition roundEven (a b : Z) : Z :=
  let q := a / b in
  let r := a mod b in
  if 2 * r <? b then q
  else if b <? 2 * r then q + 1
  else if Z.even q then q else q + 1.

(** [x / y] on two doubles that hold the integers [a] and [b], [b > 0]:
    the quotient rounded to the nearest double, ties to even (IEEE 754
    binary64).  [s] is the scaling that brings |a|/b between 2^52 and 2^53,
    [m] the 53-bit significand.  The quotient of a non-zero integer below
    2^1023 by the length of an array is neither subnormal nor infinite. *)
Definition divDouble (a b : Z) : Q :=
  if a =? 0 then 0%Q
  else
    let s0 := 52 - (Z.log2 (Z.abs a) - Z.log2 b) in
    let s := if Z.abs a * 2 ^ Z.max 0 s0 <? b * 2 ^ 52 * 2 ^ Z.max 0 (- s0)
             then s0 + 1 else s0 in
    let m := roundEven (Z.abs a * 2 ^ Z.max 0 s) (b * 2 ^ Z.max 0 (- s)) in
    (inject_Z (Z.sgn a * m * 2 ^ Z.max 0 (- s)) / inject_Z (2 ^ Z.max 0 s))%Q.

(** [(results?.[i]?.[1] as number) || 0]. *)
Definition reply_or_0 (r : option (result Z)) : Z :=
  match r with
  | Some (Ok n) => n
  | _ => 0
  end.

(** ** RedisSecurityService (src/unnamed/part_020) *)

Module RedisSecurityService.

Definition REQUEST_TRACKING_KEY : string := "security:request_tracking".
Definition SUSPICIOUS_IPS_KEY : string := "security:suspicious_ips".

Record TrackResult := mkTrackResult {
  isBlocked : bool;
  isDdos : bool;
  requestCount : Z
}.

Record RateLimit := mkRateLimit {
  shouldLimit : bool;
  remainingRequests : number;
  resetTime : Z
}.

Definition minuteKeyOf (clientIp : string) (minuteWindow : Z) : string :=
  REQUEST_TRACKING_KEY +:+ ":" +:+ clientIp +:+ ":minute:" +:+ pretty minuteWindow.

Definition hourKeyOf (clientIp : string) (hourWindow : Z) : string :=
  REQUEST_TRACKING_KEY +:+ ":" +:+ clientIp +:+ ":hour:" +:+ pretty hourWindow.

Definition suspiciousKeyOf (clientIp : string) : string :=
  SUSPICIOUS_IPS_KEY +:+ ":" +:+ clientIp.

(** [JSON.parse(existing)] followed by the accesses [parsed.reasons] (under
    a spread) and [parsed.count]. *)
Definition parseSuspicious (p : payload) : M SuspiciousData :=
  match p with
  | PSuspicious d => ret d
  | PText _ => throw SyntaxError
  | _ => throw TypeError
  end.

Definition addToSuspiciousIps (now : Z) (clientIp reason : string) : World → unit * World :=
  RedisService.executeOperation
    (let key := suspiciousKeyOf clientIp in
     LET existing <- call (Redis.get now key) IN
     let fresh :=
       mkSuspiciousData clientIp [reason] now now 1 medium in
     LET suspiciousData <-
       match existing with
       | Some p =>
           if falsy p then ret fresh
           else
             (LET parsed <- parseSuspicious p IN
              ret (mkSuspiciousData
                    (sip parsed)
                    (reasons parsed ++ [reason])
                    (firstSeen parsed)
                    now
                    (count parsed + 1)
                    (if 5 <? count parsed then high else medium)))
       | None => ret fresh
       end IN
     LET _ <- call (Redis.setex now key (24 * 60 * 60) (PSuspicious suspiciousData)) IN
     ret tt)
    tt.

Definition highRateReason (minuteCount hourCount : Z) : string :=
  "High request rate: " +:+ pretty minuteCount +:+ "/min, "
    +:+ pretty hourCount +:+ "/hour".

Definition trackRequest (now : Z) (clientIp : string) : World → TrackResult * World :=
  RedisService.executeOperation
    (let minuteWindow := now / 60000 in
     let hourWindow := now / 3600000 in
     let minuteKey := minuteKeyOf clientIp minuteWindow in
     let hourKey := hourKeyOf clientIp hourWindow in
     LET results <- exec_pipeline now
       [Redis.INCR minuteKey; Redis.EXPIRE minuteKey 60;
        Redis.INCR hourKey; Redis.EXPIRE hourKey 3600] IN
     let minuteCount := reply_or_0 (results !! 0%nat) in
     let hourCount := reply_or_0 (results !! 2%nat) in
     let maxRequestsPerMinute := 500 in
     let maxRequestsPerHour := 5000 in
     let isBlocked :=
       (maxRequestsPerMinute <? minuteCount) || (maxRequestsPerHour <? hourCount) in
     let isDdos := 1000 <? minuteCount in
     LET _ <- (if isBlocked || isDdos
           then await (addToSuspiciousIps now clientIp
                         (highRateReason minuteCount hourCount))
           else ret tt) IN
     ret (mkTrackResult isBlocked isDdos minuteCount))
    (mkTrackResult false false 0).

Definition shouldRateLimit (now : Z) (clientIp : string) : World → RateLimit * World :=
  RedisService.executeOperation
    (let minuteWindow := now / 60000 in
     let key := minuteKeyOf clientIp minuteWindow in
     LET currentCount <- call (Redis.get now key) IN
     let requestCount :=
       match currentCount with
       | Some p => if falsy p then Num 0 else parseInt p
       | None => Num 0
       end in
     let maxRequestsPerMinute := 500 in
     let shouldLimit := number_ge requestCount maxRequestsPerMinute in
     let remainingRequests := max0_minus maxRequestsPerMinute requestCount in
     let resetTime := (minuteWindow + 1) * 60000 in
     ret (mkRateLimit shouldLimit remainingRequests resetTime))
    (mkRateLimit false (Num 500) (now + 60000)).

(** [data ? JSON.parse(data) : null]; the parse is not guarded, a rejection
    leaves the method. *)
Definition getSuspiciousIpInfo (now : Z) (clientIp : string)
  : World → result (option payload) * World :=
  fun w =>
    let '(data, w1) := RedisService.get now (suspiciousKeyOf clientIp) w in
    match data with
    | None => (Ok None, w1)
    | Some p =>
        if falsy p then (Ok None, w1)
        else match p with
             | PText _ => (Throw SyntaxError, w1)
             | _ => (Ok (Some p), w1)
             end
    end.

Definition clearSuspiciousIp (now : Z) (clientIp : string) : World → bool * World :=
  fun w =>
    let '(result, w1) := RedisService.del now (suspiciousKeyOf clientIp) w in
    if 0 <? result then (true, w1) else (false, w1).


End RedisSecurityService.

(** ** RedisIpBlockingService (src/src/security/validation.service.ts) *)

Module RedisIpBlockingService.

Definition BLOCKED_IPS_KEY : string := "security:blocked_ips".
Definition SUSPICIOUS_ACTIVITY_KEY : string := "security:suspicious_activity".

Definition activityKeyOf (ip : string) : string :=
  SUSPICIOUS_ACTIVITY_KEY +:+ ":" +:+ ip.

Definition detailsKeyOf (ip : string) : string :=
  activityKeyOf ip +:+ ":details".

(** Truthiness of the optional argument [durationMinutes?: number]:
    [undefined] and [0] are falsy. *)
Definition truthy (durationMinutes : option Z) : bool :=
  match durationMinutes with
  | Some n => negb (n =? 0)
  | None => false
  end.

Definition minutes (durationMinutes : option Z) : Z := default 0 durationMinutes.

Definition blockIp (now : Z) (ip reason : string) (durationMinutes : option Z)
  : World → unit * World :=
  fun w =>
    RedisService.executeOperation
      (let expiresAt :=
         if truthy durationMinutes
         then newDate (now + minutes durationMinutes * 60000)
         else None in
       let blockedIP :=
         mkBlockedIP ip reason now expiresAt (truthy durationMinutes) in
       LET _ <- call (Redis.hset now BLOCKED_IPS_KEY [(ip, PBlocked blockedIP)]) IN
       (if truthy durationMinutes
        then (LET _ <- call (Redis.expire now (BLOCKED_IPS_KEY +:+ ":" +:+ ip)
                               (minutes durationMinutes * 60)) IN
              ret tt)
        else ret tt))
      tt
      (record_blockIp (ip, reason, durationMinutes) w).

Definition unblockIp (now : Z) (ip : string) : World → bool * World :=
  RedisService.executeOperation
    (LET removed <- call (Redis.hdel now BLOCKED_IPS_KEY ip) IN
     if 0 <? removed then ret true else ret false)
    false.

(** [JSON.parse(blockedData)] and the test of the [if]: on a payload that
    is JSON but not a block record, [blocked.isTemporary] is [undefined]. *)
Definition hasExpired (now : Z) (p : payload) : M bool :=
  match p with
  | PBlocked blocked =>
      ret (isTemporary blocked
           && match expiresAt blocked with
              | Some t => t <? now
              | None => false
              end)
  | PText _ => throw SyntaxError
  | _ => ret false
  end.

Definition isBlocked (now : Z) (ip : string) : World → bool * World :=
  RedisService.executeOperation
    (LET blockedData <- call (Redis.hget now BLOCKED_IPS_KEY ip) IN
     match blockedData with
     | None => ret false
     | Some p =>
         if falsy p then ret false
         else
           (LET gone <- hasExpired now p IN
            if gone
            then (LET _ <- await (unblockIp now ip) IN ret false)
            else ret true)
     end)
    false.

Definition autoBlockReason (activity : string) : string :=
  "Multiple suspicious activities: " +:+ activity.

Definition trackSuspiciousActivity (now : Z) (ip activity : string)
  : World → unit * World :=
  RedisService.executeOperation
    (let activityKey := activityKeyOf ip in
     LET attempts <- call (Redis.incr now activityKey) IN
     LET _ <- (if attempts =? 1
               then (LET _ <- call (Redis.expire now activityKey 3600) IN ret tt)
               else ret tt) IN
     LET _ <- call (Redis.hset now (detailsKeyOf ip)
                      [("lastAttempt", PInt now); ("activity", PText activity)]) IN
     LET _ <- call (Redis.expire now (detailsKeyOf ip) 3600) IN
     if 5 <=? attempts
     then (LET _ <- await (blockIp now ip (autoBlockReason activity) (Some 60)) IN
           LET _ <- call (Redis.del now [activityKey; detailsKeyOf ip]) IN
           ret tt)
     else ret tt)
    tt.

(** [JSON.parse] of a stored field. *)
Definition parseJSON (p : payload) : M payload :=
  match p with
  | PText _ => throw SyntaxError
  | _ => ret p
  end.

Fixpoint mapM {A B} (f : A → M B) (l : list A) : M (list B) :=
  match l with
  | [] => ret []
  | x :: rest =>
      LET y <- f x IN
      LET ys <- mapM f rest IN
      ret (y :: ys)
  end.

Definition getBlockedIps (now : Z) : World → list payload * World :=
  RedisService.executeOperation
    (LET blockedData <- call (Redis.hgetall now BLOCKED_IPS_KEY) IN
     mapM parseJSON (map snd (map_to_list blockedData)))
    [].

Definition importMaliciousIpList (now : Z) (ips : list string) (reason : option string)
  : World → unit * World :=
  RedisService.executeOperation
    (let reason := default "Known malicious IP" reason in
     let pipeline :=
       map (fun ip =>
              let blockedIP := mkBlockedIP ip reason now None false in
              Redis.HSET BLOCKED_IPS_KEY [(ip, PBlocked blockedIP)]) ips in
     LET _ <- exec_pipeline now pipeline IN
     ret tt)
    tt.

End RedisIpBlockingService.

(** ** RedisPerformanceService (src/unnamed/part_021) *)

Module RedisPerformanceService.

Definition METRICS_KEY : string := "performance:metrics".
Definition METRICS_SORTED_SET : string := "performance:metrics_sorted".
Definition SYSTEM_STATS_KEY : string := "performance:system_stats".

Definition isSuccess (statusCode : Z) : bool :=
  (200 <=? statusCode) && (statusCode <? 400).

Definition updateSystemStats (now : Z) (metric : PerformanceMetric) : World → unit * World :=
  RedisService.executeOperation
    (let statsKey := SYSTEM_STATS_KEY +:+ ":current" in
     let pipeline :=
       [Redis.HINCRBY statsKey "total_requests" 1;
        (if isSuccess (statusCode metric)
         then Redis.HINCRBY statsKey "successful_requests" 1
         else Redis.HINCRBY statsKey "failed_requests" 1);
        Redis.EXPIRE statsKey 3600] in
     LET _ <- exec_pipeline now pipeline IN
     ret tt)
    tt.

(** [random] is the rendering of [Math.random()] and [heapUsed] the value
    of [process.memoryUsage().heapUsed] at the call. *)
Definition recordMetric (now : Z) (random : string) (heapUsed : Z)
    (endpoint method : string) (responseTime statusCode : Z) : World → unit * World :=
  RedisService.executeOperation
    (let metric :=
       mkPerformanceMetric endpoint method responseTime now statusCode heapUsed in
     let metricKey := METRICS_KEY +:+ ":" +:+ pretty now +:+ ":" +:+ random in
     let score := now in
     LET _ <- call (Redis.setex now metricKey (24 * 60 * 60) (PMetric metric)) IN
     LET _ <- call (Redis.zadd now METRICS_SORTED_SET score metricKey) IN
     let oneDayAgo := now - 24 * 60 * 60 * 1000 in
     LET _ <- call (Redis.zremrangebyscore now METRICS_SORTED_SET 0 oneDayAgo) IN
     LET _ <- await (updateSystemStats now metric) IN
     ret tt)
    tt.

Record ResponseTimeStats := mkResponseTimeStats {
  average : option Q;   (* the value of the double; [None] is NaN *)
  p95 : Z;
  p99 : Z
}.

Record RequestCountStats := mkRequestCountStats {
  total : Z;
  successful : Z;
  failed : Z
}.

(** [interface SystemMetrics], without [cpuUsage] and [memoryUsage], which
    are read from the process and not from the store. *)
Record SystemMetrics := mkSystemMetrics {
  responseTimeStats : ResponseTimeStats;
  requestCountStats : RequestCountStats
}.

(** [JSON.parse(data)]: a JSON value that is not a metric has none of the
    fields of a metric ([None]). *)
Definition parseMetric (p : payload) : M (option PerformanceMetric) :=
  match p with
  | PMetric m => ret (Some m)
  | PText _ => throw SyntaxError
  | _ => ret None
  end.

(** The loop [for (const data of metricsData) if (data) push(JSON.parse(data))]. *)
Fixpoint collect (metricsData : list (option payload)) : M (list (option PerformanceMetric)) :=
  match metricsData with
  | [] => ret []
  | None :: rest => collect rest
  | Some p :: rest =>
      if falsy p then collect rest
      else
        (LET m <- parseMetric p IN
         LET ms <- collect rest IN
         ret (m :: ms))
  end.

(** [xs.sort((a, b) => a - b)]: the numbers in ascending order, followed by
    the [undefined] elements. *)
Definition sortAscending (xs : list (option Z)) : list (option Z) :=
  (Some <$> merge_sort Z.le (omap id xs))
    ++ List.filter (fun x => if x is None then true else false) xs.

Definition sum (xs : list Z) : Z := foldl Z.add 0 xs.

(** [xs.reduce((sum, time) => sum + time, 0) / xs.length], NaN as soon as
    one element is [undefined]: the sum of the integers, which the
    additions on doubles compute exactly below 2^53, divided on doubles by
    the length. *)
Definition mean (xs : list (option Z)) : option Q :=
  if forallb (fun x => if x is Some _ then true else false) xs
  then Some (divDouble (sum (omap id xs)) (Z.of_nat (length xs)))
  else None.

(** [Math.floor(n * 0.95)] and [Math.floor(n * 0.99)]: the product is
    rounded to a double that has the same integer part as n*95/100
    (n*99/100) for every length below 2^50. *)
Definition p95IndexOf (n : nat) : nat := Z.to_nat (Z.of_nat n * 95 / 100).
Definition p99IndexOf (n : nat) : nat := Z.to_nat (Z.of_nat n * 99 / 100).

(** [xs[i] || 0]. *)
Definition at_or_0 (xs : list (option Z)) (i : nat) : Z :=
  match xs !! i with
  | Some (Some t) => t
  | _ => 0
  end.

Definition successfulOf (m : option PerformanceMetric) : bool :=
  match m with
  | Some m => isSuccess (statusCode m)
  | None => false
  end.

Definition getSystemMetrics (now : Z) : World → SystemMetrics * World :=
  RedisService.executeOperation
    (let last5Minutes := now - 5 * 60 * 1000 in
     LET metricKeys <- call (Redis.zrangebyscore now METRICS_SORTED_SET last5Minutes now) IN
     LET metricsData <- (if (0 <? length metricKeys)%nat
                         then call (Redis.mget now metricKeys)
                         else ret []) IN
     LET recentMetrics <- collect metricsData IN
     let responseTimes := sortAscending (map (option_map responseTime) recentMetrics) in
     let average :=
       if (0 <? length responseTimes)%nat then mean responseTimes else Some 0%Q in
     let p95Index := p95IndexOf (length responseTimes) in
     let p99Index := p99IndexOf (length responseTimes) in
     let p95 := at_or_0 responseTimes p95Index in
     let p99 := at_or_0 responseTimes p99Index in
     let total := Z.of_nat (length recentMetrics) in
     let successful := Z.of_nat (length (List.filter successfulOf recentMetrics)) in
     let failed := total - successful in
     ret (mkSystemMetrics
            (mkResponseTimeStats average p95 p99)
            (mkRequestCountStats total successful failed)))
    (mkSystemMetrics
       (mkResponseTimeStats (Some 0%Q) 0 0)
       (mkRequestCountStats 0 0 0)).

Definition clearOldMetrics (now : Z) : World → unit * World :=
  RedisService.executeOperation
    (let oneDayAgo := now - 24 * 60 * 60 * 1000 in
     LET removed <- call (Redis.zremrangebyscore now METRICS_SORTED_SET 0 oneDayAgo) IN
     ret tt)
    tt.


End RedisPerformanceService.

(** ** SecurityMiddleware (src/unnamed/part_023) *)

Module SecurityMiddleware.

(** What [use] does with a request: a reply sent with
    [res.status(status).send({ error, message })], or [next()]. *)
Inductive Outcome :=
  | Sent (status : Z) (error message : string)
  | Next.

(** A request as [use] looks at it: the address that [getClientIP(req)]
    answers, [parseInt(req.headers['content-length'] || '0')], and the
    verdicts of [isSuspiciousUserAgent(userAgent)],
    [containsSqlInjection(url)] and
    [req.body && containsInjectionAttacks(req.body)]. *)
Record Request := mkRequest {
  clientIp : string;
  contentLength : number;
  suspiciousUserAgent : bool;
  sqlInjectionInUrl : bool;
  injectionInBody : bool
}.

(** The patterns [/^192\.0\.2\./], [/^198\.51\.100\./] and
    [/^203\.0\.113\./]. *)
Definition maliciousPatterns : list string :=
  ["192.0.2."; "198.51.100."; "203.0.113."].

Definition isKnownMaliciousIp (ip : string) : bool :=
  existsb (fun pattern => String.prefix pattern ip) maliciousPatterns.

(** [x > k] on a possibly-NaN [x]. *)
Definition number_gt (x : number) (k : Z) : bool :=
  match x with
  | Num n => k <? n
  | NaN => false
  end.

(** The body of the [try] block, up to [next()]; the methods of the
    services do not reject, so that the [catch] block is not entered by
    them.  The clock is read once. *)
Definition use (now : Z) (req : Request) : World → Outcome * World :=
  fun w =>
    let clientIp := clientIp req in
    let '(isBlocked, w) := RedisIpBlockingService.isBlocked now clientIp w in
    if isBlocked
    then (Sent 403 "Access denied" "Your IP address has been blocked", w)
    else if isKnownMaliciousIp clientIp
    then
      let '(_, w) :=
        RedisIpBlockingService.blockIp now clientIp "Known malicious IP pattern"
          (Some 1440) w in
      (Sent 403 "Access denied" "Suspicious IP address detected", w)
    else if number_gt (contentLength req) (50 * 1024 * 1024)
    then
      let '(_, w) :=
        RedisIpBlockingService.trackSuspiciousActivity now clientIp
          "Oversized request" w in
      (Sent 413 "Payload too large" "Request size exceeds maximum allowed limit", w)
    else
      let w :=
        if suspiciousUserAgent req
        then (RedisIpBlockingService.trackSuspiciousActivity now clientIp
                "Suspicious user agent" w).2
        else w in
      if sqlInjectionInUrl req
      then
        let '(_, w) :=
          RedisIpBlockingService.trackSuspiciousActivity now clientIp
            "SQL injection in URL" w in
        (Sent 400 "Bad request" "Invalid request parameters", w)
      else if injectionInBody req
      then
        let '(_, w) :=
          RedisIpBlockingService.trackSuspiciousActivity now clientIp
            "Injection attack in body" w in
        (Sent 400 "Bad request" "Invalid request data", w)
      else (Next, w).

End SecurityMiddleware.


(** ** Observations used in the statements *)

(** The value of a counter key: an absent (or expired) key counts as 0; a key
    that does not hold an integer is not a counter. *)
Definition counter (now : Z) (d : DB) (key : string) : option Z :=
  match Redis.find now d key with
  | None => Some 0
  | Some (mkEntry (RString (PInt n)) _) => Some n
  | Some _ => None
  end.

(** The field [ip] of the hash of blocked addresses, as HGET sees it. *)
Definition blockRecord (now : Z) (d : DB) (ip : string) : option payload :=
  match Redis.find now d RedisIpBlockingService.BLOCKED_IPS_KEY with
  | Some (mkEntry (RHash h) _) => h !! ip
  | _ => None
  end.

(** The content and the expiry of a key that holds a hash; a free key is an
    empty hash without expiry. *)
Definition hashAt (now : Z) (d : DB) (key : string)
  : option (gmap string payload * option Z) :=
  match Redis.find now d key with
  | None => Some (∅, None)
  | Some (mkEntry (RHash h) t) => Some (h, t)
  | Some _ => None
  end.

(** The value and the expiry of a counter key; a free key is a counter at 0
    without expiry. *)
Definition counterEntry (now : Z) (d : DB) (key : string) : option (Z * option Z) :=
  match Redis.find now d key with
  | None => Some (0, None)
  | Some (mkEntry (RString (PInt n)) t) => Some (n, t)
  | Some _ => None
  end.

(** The record that [blockIp] stores. *)
Definition blockedIPOf (now : Z) (i reason : string) (durationMinutes : option Z)
  : BlockedIP :=
  mkBlockedIP i reason now
    (if RedisIpBlockingService.truthy durationMinutes
     then newDate (now + RedisIpBlockingService.minutes durationMinutes * 60000)
     else None)
    (RedisIpBlockingService.truthy durationMinutes).

(** The record of the ledger of suspicious addresses under a key: [Some None]
    when the key is free, nothing when the key holds something else. *)
Definition ledgerAt (now : Z) (d : DB) (key : string) : option (option SuspiciousData) :=
  match Redis.find now d key with
  | None => Some None
  | Some (mkEntry (RString (PSuspicious r)) _) => Some (Some r)
  | Some _ => None
  end.


(** The key a queued command works on. *)
Definition key_of (c : Redis.command) : string :=
  match c with
  | Redis.INCR key | Redis.EXPIRE key _ | Redis.HSET key _ | Redis.HINCRBY key _ _ => key
  end.

(** What INCR answers on the hour key, as [trackRequest] reads it: 0 when the
    command fails. *)
Definition hourCountAfter (now : Z) (d : DB) (hourKey : string) : Z :=
  match counter now d hourKey with
  | Some h => h + 1
  | None => 0
  end.

(** Successive calls of one method, at the given instants. *)
Fixpoint trackRequests (clientIp : string) (times : list Z) (w : World)
  : list RedisSecurityService.TrackResult * World :=
  match times with
  | [] => ([], w)
  | now :: rest =>
      let '(r, w1) := RedisSecurityService.trackRequest now clientIp w in
      let '(rs, w2) := trackRequests clientIp rest w1 in
      (r :: rs, w2)
  end.

Fixpoint trackSuspiciousActivities (ip : string) (calls : list (Z * string)) (w : World)
  : World :=
  match calls with
  | [] => w
  | (now, activity) :: rest =>
      trackSuspiciousActivities ip rest
        (snd (RedisIpBlockingService.trackSuspiciousActivity now ip activity w))
  end.

Fixpoint addAllToSuspiciousIps (clientIp : string) (calls : list (Z * string)) (w : World)
  : World :=
  match calls with
  | [] => w
  | (now, reason) :: rest =>
      addAllToSuspiciousIps clientIp rest
        (snd (RedisSecurityService.addToSuspiciousIps now clientIp reason w))
  end.

(** Successive writes of the ledger keep the record alive when each one
    comes no later than the expiry left by the previous one. *)
Fixpoint sliding (expiry : Z) (calls : list (Z * string)) : Prop :=
  match calls with
  | [] => True
  | (now, _) :: rest => now ≤ expiry ∧ sliding (now + 86400000) rest
  end.

(** The metric stored under a key, if there is one. *)
Definition metricAt (now : Z) (d : DB) (key : string) : option PerformanceMetric :=
  match Redis.find now d key with
  | Some (mkEntry (RString (PMetric m)) _) => Some m
  | _ => None
  end.

(** A key that, when it holds a string, holds a metric. *)
Definition metric_or_free (now : Z) (d : DB) (key : string) : bool :=
  match Redis.find now d key with
  | Some (mkEntry (RString (PMetric _)) _) => true
  | Some (mkEntry (RString _) _) => false
  | _ => true
  end.

(** The metrics that [getSystemMetrics] reads. *)
Definition recentOf (now : Z) (d : DB) (z : gmap string Z) : list PerformanceMetric :=
  omap (metricAt now d) (map fst (Redis.zrange (now - 300000) now z)).

(** The response times recorded in the last five minutes: those of the
    metrics whose key is indexed with a score in [now - 300000, now]. *)
Definition samplesOf (now : Z) (d : DB) (z : gmap string Z) : list Z :=
  omap (fun x : string * Z =>
          if Redis.in_range (now - 300000) now x
          then responseTime <$> metricAt now d x.1
          else None)
       (map_to_list z).

(** One [recordMetric] per response time, a millisecond apart from [start]. *)
Fixpoint recordSamples (start : Z) (responseTimes : list Z) (w : World) : World :=
  match responseTimes with
  | [] => w
  | rt :: rest =>
      recordSamples (start + 1) rest
        (RedisPerformanceService.recordMetric start "0.5" 0 "/graphql" "POST" rt 200 w).2
  end.


(** The members and scores of a sorted set ([∅] when the key holds none). *)
Definition zsetAt (now : Z) (d : DB) (key : string) : gmap string Z :=
  match Redis.find now d key with
  | Some (mkEntry (RZSet z) _) => z
  | _ => ∅
  end.


(** The key under which [recordMetric] stores a metric. *)
Definition metricKeyOf (now : Z) (random : string) : string :=
  RedisPerformanceService.METRICS_KEY +:+ ":" +:+ pretty now +:+ ":" +:+ random.

(** The index of the metrics, to which no method gives an expiry: its
    members and scores, [∅] when the key is free. *)
Definition indexOf (d : DB) : option (gmap string Z) :=
  match d !! RedisPerformanceService.METRICS_SORTED_SET with
  | None => Some ∅
  | Some (mkEntry (RZSet z) None) => Some z
  | Some _ => None
  end.

(** A counter of the hash of system statistics: 0 when the hash or the
    field is absent. *)
Definition statOf (now : Z) (d : DB) (field : string) : option Z :=
  match hashAt now d (RedisPerformanceService.SYSTEM_STATS_KEY +:+ ":current") with
  | Some (h, _) =>
      match h !! field with
      | None => Some 0
      | Some (PInt n) => Some n
      | Some _ => None
      end
  | None => None
  end.


(** Successive requests through the middleware, at the given instants. *)
Fixpoint serve (requests : list (Z * SecurityMiddleware.Request)) (w : World)
  : list SecurityMiddleware.Outcome * World :=
  match requests with
  | [] => ([], w)
  | (now, req) :: rest =>
      let '(r, w1) := SecurityMiddleware.use now req w in
      let '(rs, w2) := serve rest w1 in
      (r :: rs, w2)
  end.

(** A request whose URL carries an SQL injection, and nothing else. *)
Definition injection_from (ip : string) : SecurityMiddleware.Request :=
  SecurityMiddleware.mkRequest ip (Num 0) false true false.


(** A connected process in front of an empty server. *)
Definition fresh_world : World := mkWorld true true ∅ [].

(** A connected process whose client "1.2.3.4" has made [n] requests in the
    minute window 2. *)
Definition counting_world (n : Z) : World :=
  mkWorld true true
    {[ RedisSecurityService.minuteKeyOf "1.2.3.4" 2
       := mkEntry (RString (PInt n)) (Some 180000) ]} [].

(** A process that has lost its connection. *)
Definition offline_world : World := mkWorld false true ∅ [].

(** * Properties *)

Ltac unfold_M :=
  unfold RedisService.executeOperation, bind, ret, throw, call, await, exec_pipeline.

Section RedisService_facts.

Context {T : Type} (operation : M T) (fallback : T).

Lemma executeOperation_unavailable w :
  RedisService.isAvailable w = false →
  RedisService.executeOperation operation fallback w = (fallback, w).
Proof. intros H. unfold RedisService.executeOperation. by rewrite H. Qed.

Lemma executeOperation_Ok w v w' :
  RedisService.isAvailable w = true →
  operation w = (Ok v, w') →
  RedisService.executeOperation operation fallback w = (v, w').
Proof.
  intros H Hop. unfold RedisService.executeOperation.
  rewrite H, Hop. unfold RedisService.isAvailable in H.
  apply andb_true_iff in H as [_ ->]. done.
Qed.

Lemma executeOperation_Throw w e w' :
  RedisService.isAvailable w = true →
  operation w = (Throw e, w') →
  e ≠ ConnectionError →
  RedisService.executeOperation operation fallback w = (fallback, w').
Proof.
  intros H Hop He. unfold RedisService.executeOperation.
  rewrite H, Hop. unfold RedisService.isAvailable in H.
  apply andb_true_iff in H as [_ ->]. simpl. by destruct e.
Qed.

End RedisService_facts.

Lemma isAvailable_set_db d w :
  RedisService.isAvailable (set_db d w) = RedisService.isAvailable w.
Proof. done. Qed.

(** *** Keys *)

Section Keys.
Import RedisSecurityService RedisIpBlockingService.

(** Two keys that differ on a literal part. *)
Ltac keys_differ :=
  unfold minuteKeyOf, hourKeyOf, suspiciousKeyOf, detailsKeyOf, activityKeyOf;
  cbv [String.append REQUEST_TRACKING_KEY SUSPICIOUS_IPS_KEY
       BLOCKED_IPS_KEY SUSPICIOUS_ACTIVITY_KEY];
  congruence.

Lemma minuteKeyOf_inj c m1 m2 : minuteKeyOf c m1 = minuteKeyOf c m2 → m1 = m2.
Proof.
  unfold minuteKeyOf. intros H.
  do 4 apply (inj (String.app _)) in H.
  by apply (inj pretty) in H.
Qed.

Lemma hourKeyOf_inj c h1 h2 : hourKeyOf c h1 = hourKeyOf c h2 → h1 = h2.
Proof.
  unfold hourKeyOf. intros H.
  do 4 apply (inj (String.app _)) in H.
  by apply (inj pretty) in H.
Qed.

Lemma minuteKey_hourKey c m h : minuteKeyOf c m ≠ hourKeyOf c h.
Proof.
  unfold minuteKeyOf, hourKeyOf. intros H.
  do 3 apply (inj (String.app _)) in H.
  cbv [String.append] in H. congruence.
Qed.

Lemma suspiciousKey_minuteKey c c' m : suspiciousKeyOf c ≠ minuteKeyOf c' m.
Proof. keys_differ. Qed.

Lemma suspiciousKey_hourKey c c' h : suspiciousKeyOf c ≠ hourKeyOf c' h.
Proof. keys_differ. Qed.

Lemma append_empty_r (s : string) : s +:+ "" = s.
Proof.
  induction s as [|a s IH]; [done|].
  change (String a s +:+ "") with (String a (s +:+ "")). by rewrite IH.
Qed.

Lemma activityKey_detailsKey i : activityKeyOf i ≠ detailsKeyOf i.
Proof.
  unfold detailsKeyOf. intros H.
  rewrite <- (append_empty_r (activityKeyOf i)) in H at 1.
  apply (inj (String.app _)) in H. discriminate H.
Qed.

Lemma blockedKey_activityKey i : BLOCKED_IPS_KEY ≠ activityKeyOf i.
Proof. keys_differ. Qed.

Lemma blockedKey_detailsKey i : BLOCKED_IPS_KEY ≠ detailsKeyOf i.
Proof. keys_differ. Qed.

Lemma blockedTtlKey_activityKey i j : BLOCKED_IPS_KEY +:+ ":" +:+ j ≠ activityKeyOf i.
Proof. keys_differ. Qed.

Lemma blockedTtlKey_detailsKey i j : BLOCKED_IPS_KEY +:+ ":" +:+ j ≠ detailsKeyOf i.
Proof. keys_differ. Qed.

Lemma blockedKey_blockedTtlKey j : BLOCKED_IPS_KEY ≠ BLOCKED_IPS_KEY +:+ ":" +:+ j.
Proof. keys_differ. Qed.

End Keys.

(** *** The commands *)

Section Redis_facts.

Lemma find_insert_eq now (d : DB) key e :
  Redis.expired now e = false → Redis.find now (<[key := e]> d) key = Some e.
Proof. intros H. unfold Redis.find. by rewrite lookup_insert_eq, H. Qed.

Lemma find_insert_ne now (d : DB) key key' e :
  key ≠ key' → Redis.find now (<[key := e]> d) key' = Redis.find now d key'.
Proof. intros H. unfold Redis.find. by rewrite lookup_insert_ne. Qed.

Lemma find_delete_ne now (d : DB) key key' :
  key ≠ key' → Redis.find now (delete key d) key' = Redis.find now d key'.
Proof. intros H. unfold Redis.find. by rewrite lookup_delete_ne. Qed.

Lemma find_Some now (d : DB) key e :
  Redis.find now d key = Some e → d !! key = Some e ∧ Redis.expired now e = false.
Proof.
  unfold Redis.find. destruct (d !! key) as [e'|]; [|done].
  destruct (Redis.expired now e') eqn:He; [done|]. by intros [= <-].
Qed.

Lemma find_absent now (d : DB) key : d !! key = None → Redis.find now d key = None.
Proof. intros H. unfold Redis.find. by rewrite H. Qed.

(** A command leaves the keys other than its own alone. *)
Lemma incr_frame now key (d : DB) key' :
  key ≠ key' → (Redis.incr now key d).2 !! key' = d !! key'.
Proof.
  intros H. unfold Redis.incr.
  destruct (Redis.find now d key) as [[[[]| |] ?]|]; simpl;
    by rewrite ?lookup_insert_ne.
Qed.

Lemma expire_frame now key s (d : DB) key' :
  key ≠ key' → (Redis.expire now key s d).2 !! key' = d !! key'.
Proof.
  intros H. unfold Redis.expire.
  destruct (Redis.find now d key); [destruct (s <=? 0)|]; simpl;
    by rewrite ?lookup_insert_ne, ?lookup_delete_ne.
Qed.

Lemma hset_frame now key fields (d : DB) key' :
  key ≠ key' → (Redis.hset now key fields d).2 !! key' = d !! key'.
Proof.
  intros H. unfold Redis.hset.
  destruct (Redis.find now d key) as [[[| |] ?]|]; simpl;
    try destruct (Redis.hset_fields _ _); simpl; by rewrite ?lookup_insert_ne.
Qed.

Lemma hincrby_frame now key field n (d : DB) key' :
  key ≠ key' → (Redis.hincrby now key field n d).2 !! key' = d !! key'.
Proof.
  intros H. unfold Redis.hincrby.
  destruct (Redis.find now d key) as [[[|h|] ?]|]; simpl;
    rewrite ?lookup_insert_ne; try done.
  destruct (h !! field) as [[]|]; simpl; by rewrite ?lookup_insert_ne.
Qed.

Lemma run_frame now c (d : DB) key' :
  key_of c ≠ key' → (Redis.run now c d).2 !! key' = d !! key'.
Proof.
  destruct c; simpl; intros H;
    auto using incr_frame, expire_frame, hset_frame, hincrby_frame.
Qed.

Lemma exec_frame now pipeline (d : DB) key' :
  Forall (fun c => key_of c ≠ key') pipeline →
  (Redis.exec now pipeline d).2 !! key' = d !! key'.
Proof.
  intros H. revert d. induction H as [|c rest Hc _ IH]; intros d; [done|].
  simpl. destruct (Redis.run now c d) as [r d1] eqn:Hrun.
  specialize (IH d1). destruct (Redis.exec now rest d1) as [rs d2]. simpl in *.
  rewrite IH. by rewrite <- (run_frame now c d key' Hc), Hrun.
Qed.

(** INCR followed by EXPIRE on a counter. *)
Lemma incr_expire now key s (d : DB) n :
  0 < s → counter now d key = Some n →
  ∃ d1, Redis.incr now key d = (Ok (n + 1), d1)
        ∧ Redis.expire now key s d1
          = (Ok 1, <[key := mkEntry (RString (PInt (n + 1))) (Some (now + s * 1000))]> d).
Proof.
  intros Hs Hc. unfold counter in Hc. unfold Redis.incr.
  destruct (Redis.find now d key) as [[[[k| | | |]| |] t]|] eqn:Hf; simplify_eq.
  - apply find_Some in Hf as [_ Hlive]. eexists. split; [done|].
    unfold Redis.expire. rewrite find_insert_eq by done.
    destruct (s <=? 0) eqn:Hle; [lia|]. simpl. by rewrite insert_insert_eq.
  - eexists. split; [done|].
    unfold Redis.expire. rewrite find_insert_eq by done.
    destruct (s <=? 0) eqn:Hle; [lia|]. simpl. by rewrite insert_insert_eq.
Qed.

(** The commands reject with a reply error only. *)
Lemma expire_Ok now key s (d : DB) : ∃ k, (Redis.expire now key s d).1 = Ok k.
Proof.
  unfold Redis.expire.
  destruct (Redis.find now d key); [destruct (s <=? 0)|]; simpl; eauto.
Qed.

Lemma hset_Throw now key fields (d : DB) e :
  (Redis.hset now key fields d).1 = Throw e → e = ReplyError.
Proof.
  unfold Redis.hset.
  destruct (Redis.find now d key) as [[[| |] ?]|]; simpl;
    try destruct (Redis.hset_fields _ _); simpl; congruence.
Qed.

Lemma incr_Throw now key (d : DB) e :
  (Redis.incr now key d).1 = Throw e → e = ReplyError.
Proof.
  unfold Redis.incr.
  destruct (Redis.find now d key) as [[[[]| |] ?]|]; simpl; congruence.
Qed.


(** A date is valid up to 8.64e15 ms from the epoch. *)
Lemma newDate_valid t : Z.abs t ≤ 8640000000000000 → newDate t = Some t.
Proof.
  intros H. unfold newDate, MAX_TIME.
  by destruct (Z.leb_spec (Z.abs t) 8640000000000000); [|lia].
Qed.

Lemma newDate_invalid t : 8640000000000000 < Z.abs t → newDate t = None.
Proof.
  intros H. unfold newDate, MAX_TIME.
  by destruct (Z.leb_spec (Z.abs t) 8640000000000000); [lia|].
Qed.

End Redis_facts.

(** *** RedisSecurityService *)

Section RedisSecurityService_facts.
Import RedisSecurityService.

(** [addToSuspiciousIps] touches one key of the server and nothing of the
    process. *)
Lemma addToSuspiciousIps_frame now c r w :
  let w' := (addToSuspiciousIps now c r w).2 in
  isConnected w' = isConnected w ∧ client w' = client w
  ∧ blockIpCalls w' = blockIpCalls w
  ∧ ∀ key, key ≠ suspiciousKeyOf c → db w' !! key = db w !! key.
Proof.
  unfold addToSuspiciousIps. unfold_M.
  destruct (negb (RedisService.isAvailable w) || negb (client w)); [done|].
  unfold Redis.get.
  destruct (Redis.find now (db w) (suspiciousKeyOf c)) as [[[p| |] t]|]; simpl;
    try done.
  - destruct (falsy p); simpl.
    + repeat split; intros; by rewrite ?lookup_insert_ne.
    + destruct p; simpl; try done.
      repeat split; intros; by rewrite ?lookup_insert_ne.
  - repeat split; intros; by rewrite ?lookup_insert_ne.
Qed.

(** The four commands of the pipeline of [trackRequest]. *)
Lemma trackRequest_pipeline now c (d : DB) m :
  let mk := minuteKeyOf c (now / 60000) in
  let hk := hourKeyOf c (now / 3600000) in
  counter now d mk = Some m →
  ∃ r3 r4 d',
    Redis.exec now [Redis.INCR mk; Redis.EXPIRE mk 60;
                    Redis.INCR hk; Redis.EXPIRE hk 3600] d
    = ([Ok (m + 1); Ok 1; r3; r4], d')
    ∧ reply_or_0 (Some r3) = hourCountAfter now d hk
    ∧ d' !! mk = Some (mkEntry (RString (PInt (m + 1))) (Some (now + 60000)))
    ∧ (∀ h, counter now d hk = Some h →
            d' !! hk = Some (mkEntry (RString (PInt (h + 1))) (Some (now + 3600000))))
    ∧ (∀ key, key ≠ mk → key ≠ hk → d' !! key = d !! key).
Proof.
  intros mk hk Hm.
  destruct (incr_expire now mk 60 d m) as (d1 & Hi & He); [lia|done|].
  set (d2 := <[mk := mkEntry (RString (PInt (m + 1))) (Some (now + 60 * 1000))]> d) in He.
  assert (mk ≠ hk) as Hne by apply minuteKey_hourKey.
  assert (counter now d2 hk = counter now d hk) as Hhk.
  { unfold counter, d2. by rewrite find_insert_ne. }
  simpl. rewrite Hi, He.
  destruct (Redis.incr now hk d2) as [r3 d3] eqn:Hi3.
  destruct (Redis.expire now hk 3600 d3) as [r4 d4] eqn:He3.
  exists r3, r4, d4. split; [done|].
  assert (d4 !! mk = d2 !! mk) as Hmk.
  { replace d4 with (Redis.expire now hk 3600 d3).2 by by rewrite He3.
    rewrite expire_frame by done.
    replace d3 with (Redis.incr now hk d2).2 by by rewrite Hi3.
    by rewrite incr_frame. }
  split; [|split; [|split]].
  - unfold hourCountAfter. rewrite <- Hhk.
    destruct (counter now d2 hk) as [h|] eqn:Hc.
    + destruct (incr_expire now hk 3600 d2 h) as (? & Hi' & _); [lia|done|].
      rewrite Hi' in Hi3. by simplify_eq.
    + unfold counter in Hc. unfold Redis.incr in Hi3.
      destruct (Redis.find now d2 hk) as [[[[]| |] ?]|]; by simplify_eq.
  - rewrite Hmk. unfold d2. by rewrite lookup_insert_eq.
  - intros h Hh. rewrite <- Hhk in Hh.
    destruct (incr_expire now hk 3600 d2 h) as (? & Hi' & He'); [lia|done|].
    rewrite Hi' in Hi3. simplify_eq. rewrite He' in He3. simplify_eq.
    by rewrite lookup_insert_eq.
  - intros key H1 H2.
    replace d4 with (Redis.expire now hk 3600 d3).2 by by rewrite He3.
    rewrite expire_frame by done.
    replace d3 with (Redis.incr now hk d2).2 by by rewrite Hi3.
    rewrite incr_frame by done. unfold d2. by rewrite lookup_insert_ne.
Qed.


(** One call of [trackRequest] on a minute counter that holds [m]. *)
Lemma trackRequest_step now c w m :
  let mk := minuteKeyOf c (now / 60000) in
  let hk := hourKeyOf c (now / 3600000) in
  RedisService.isAvailable w = true →
  counter now (db w) mk = Some m →
  ∃ w',
    trackRequest now c w
    = (mkTrackResult ((500 <? m + 1) || (5000 <? hourCountAfter now (db w) hk))
         (1000 <? m + 1) (m + 1), w')
    ∧ RedisService.isAvailable w' = true
    ∧ blockIpCalls w' = blockIpCalls w
    ∧ db w' !! mk = Some (mkEntry (RString (PInt (m + 1))) (Some (now + 60000)))
    ∧ (∀ h, counter now (db w) hk = Some h →
            db w' !! hk = Some (mkEntry (RString (PInt (h + 1))) (Some (now + 3600000))))
    ∧ (∀ key, key ≠ mk → key ≠ hk → key ≠ suspiciousKeyOf c →
              db w' !! key = db w !! key).
Proof.
  intros mk hk Hav Hm.
  destruct (trackRequest_pipeline now c (db w) m Hm)
    as (r3 & r4 & d' & Hexec & Hr3 & Hmk & Hhk & Hframe).
  fold mk hk in Hexec, Hr3, Hmk, Hhk, Hframe.
  unfold trackRequest. fold mk hk.
  set (blocked := (500 <? m + 1) || (5000 <? hourCountAfter now (db w) hk)).
  set (ddos := 1000 <? m + 1).
  destruct (blocked || ddos) eqn:Hsusp.
  - pose proof (addToSuspiciousIps_frame now c
                  (highRateReason (m + 1) (hourCountAfter now (db w) hk))
                  (set_db d' w)) as Hfr.
    destruct (addToSuspiciousIps now c
                (highRateReason (m + 1) (hourCountAfter now (db w) hk))
                (set_db d' w)) as [[] w'] eqn:Hadd.
    simpl in Hfr. destruct Hfr as (Hcon & Hcl & Hcalls & Hdb).
    exists w'. split; [|split; [|split; [|split; [|split]]]].
    + apply executeOperation_Ok; [done|].
      unfold bind, exec_pipeline, await, ret. rewrite Hexec. simpl.
      simpl in Hr3. rewrite Hr3.
      fold blocked ddos. rewrite Hsusp, Hadd. done.
    + unfold RedisService.isAvailable in *. by rewrite Hcon, Hcl.
    + done.
    + rewrite Hdb; [done|]. apply not_eq_sym, suspiciousKey_minuteKey.
    + intros h Hh. rewrite Hdb; [by apply Hhk|].
      apply not_eq_sym, suspiciousKey_hourKey.
    + intros key H1 H2 H3. rewrite Hdb by done. simpl. by apply Hframe.
  - exists (set_db d' w). split; [|split; [|split; [|split; [|split]]]]; try done.
    + apply executeOperation_Ok; [done|].
      unfold bind, exec_pipeline, await, ret. rewrite Hexec. simpl.
      simpl in Hr3. rewrite Hr3.
      fold blocked ddos. by rewrite Hsusp.
    + intros key H1 H2 _. simpl. by apply Hframe.
Qed.


Lemma window_bounds now mw : now / 60000 = mw → mw * 60000 ≤ now < (mw + 1) * 60000.
Proof.
  intros <-. pose proof (Z.div_mod now 60000). pose proof (Z.mod_pos_bound now 60000). lia.
Qed.

(** Calls that all fall in the minute window [mw], from a counter at [k]. *)
Lemma trackRequests_from c mw times : ∀ w k,
  RedisService.isAvailable w = true →
  Forall (fun now => now / 60000 = mw) times →
  (∀ now, now / 60000 = mw → counter now (db w) (minuteKeyOf c mw) = Some k) →
  let rs := (trackRequests c times w).1 in
  let w' := (trackRequests c times w).2 in
  length rs = length times
  ∧ (∀ (i : nat) r, rs !! i = Some r → requestCount r = k + Z.of_nat i + 1)
  ∧ RedisService.isAvailable w' = true
  ∧ (∀ mw', mw' ≠ mw → db w' !! minuteKeyOf c mw' = db w !! minuteKeyOf c mw').
Proof.
  induction times as [|now rest IH]; intros w k Hav Hin Hk; simpl.
  { repeat split; try done. }
  apply Forall_cons in Hin as [Hnow Hrest].
  destruct (trackRequest_step now c w k Hav) as (w1 & Hstep & Hav1 & _ & Hmk & _ & Hfr).
  { rewrite Hnow. by apply Hk. }
  rewrite Hnow in Hmk. rewrite Hstep.
  destruct (IH w1 (k + 1) Hav1 Hrest) as (Hlen & Hcount & Hav' & Hfr').
  { intros t Ht. unfold counter, Redis.find. rewrite Hmk.
    apply window_bounds in Hnow, Ht.
    unfold Redis.expired. simpl.
    destruct (now + 60000 <? t) eqn:Hlt; [lia|done]. }
  destruct (trackRequests c rest w1) as [rs w2]. simpl in *.
  split; [by rewrite Hlen|]. split; [|split; [done|]].
  - intros [|i] r Hr; simpl in Hr.
    + simplify_eq. simpl. lia.
    + apply Hcount in Hr. lia.
  - intros mw' Hne. rewrite Hfr' by done. apply Hfr.
    + intros H. rewrite Hnow in H. by apply minuteKeyOf_inj in H.
    + apply minuteKey_hourKey.
    + apply not_eq_sym, suspiciousKey_minuteKey.
Qed.

(** C1: on an available store, trackRequest reports
    isBlocked = (minuteCount > 500 OR hourCount > 5000),
    isDdos = (minuteCount > 1000) and requestCount = minuteCount, where
    minuteCount and hourCount are the values of the counters of the current
    minute and hour windows after their increment.  The counters are those
    of the windows of the call: a request at any instant of the same hour
    (minute) window finds the incremented hour (minute) counter, and the
    counter that a request of another hour (minute) window reads is left as
    it was. *)
Theorem trackRequest_thresholds now clientIp w m h :
  let minuteKey := minuteKeyOf clientIp (now / 60000) in
  let hourKey := hourKeyOf clientIp (now / 3600000) in
  RedisService.isAvailable w = true →
  counter now (db w) minuteKey = Some m →
  counter now (db w) hourKey = Some h →
  let r := (trackRequest now clientIp w).1 in
  let w' := (trackRequest now clientIp w).2 in
  let minuteCount := m + 1 in
  let hourCount := h + 1 in
  counter now (db w') minuteKey = Some minuteCount
  ∧ counter now (db w') hourKey = Some hourCount
  ∧ isBlocked r = (500 <? minuteCount) || (5000 <? hourCount)
  ∧ isDdos r = (1000 <? minuteCount)
  ∧ requestCount r = minuteCount
  ∧ (∀ later, later / 3600000 = now / 3600000 →
       counter later (db w') (hourKeyOf clientIp (later / 3600000)) = Some hourCount)
  ∧ (∀ other, other / 3600000 ≠ now / 3600000 →
       counter other (db w') (hourKeyOf clientIp (other / 3600000))
       = counter other (db w) (hourKeyOf clientIp (other / 3600000)))
  ∧ (∀ later, later / 60000 = now / 60000 →
       counter later (db w') (minuteKeyOf clientIp (later / 60000)) = Some minuteCount)
  ∧ (∀ other, other / 60000 ≠ now / 60000 →
       counter other (db w') (minuteKeyOf clientIp (other / 60000))
       = counter other (db w) (minuteKeyOf clientIp (other / 60000))).
Proof.
  intros mk hk Hav Hm Hh.
  destruct (trackRequest_step now clientIp w m Hav Hm)
    as (w1 & Hstep & _ & _ & Hmk & Hhk & Hframe).
  fold mk hk in Hstep, Hmk, Hhk, Hframe. specialize (Hhk h Hh).
  rewrite Hstep. cbn [fst snd isBlocked isDdos requestCount].
  unfold hourCountAfter. rewrite Hh.
  pose proof (Z.div_mod now 3600000) as Hnow.
  pose proof (Z.mod_pos_bound now 3600000) as Hnow'.
  pose proof (Z.div_mod now 60000) as Hnowm.
  pose proof (Z.mod_pos_bound now 60000) as Hnowm'.
  split; [|split; [|split; [done|split; [done|split; [done|]]]]].
  - unfold counter, Redis.find. rewrite Hmk. unfold Redis.expired. cbn [ttl].
    destruct (now + 60000 <? now) eqn:Hlt; [lia|done].
  - unfold counter, Redis.find. rewrite Hhk. unfold Redis.expired. cbn [ttl].
    destruct (now + 3600000 <? now) eqn:Hlt; [lia|done].
  - split; [|split; [|split]].
    + intros later Heq. rewrite Heq. fold hk.
      pose proof (Z.div_mod later 3600000) as Hlater.
      pose proof (Z.mod_pos_bound later 3600000) as Hlater'.
      unfold counter, Redis.find. rewrite Hhk. unfold Redis.expired. cbn [ttl].
      destruct (Z.ltb_spec (now + 3600000) later); [lia|done].
    + intros other Hne. unfold counter, Redis.find. rewrite Hframe; [done|..].
      * intros H. by apply (minuteKey_hourKey clientIp (now / 60000) (other / 3600000)).
      * intros H. by apply hourKeyOf_inj in H.
      * intros H. by apply (suspiciousKey_hourKey clientIp clientIp (other / 3600000)).
    + intros later Heq. rewrite Heq. fold mk.
      pose proof (Z.div_mod later 60000) as Hlater.
      pose proof (Z.mod_pos_bound later 60000) as Hlater'.
      unfold counter, Redis.find. rewrite Hmk. unfold Redis.expired. cbn [ttl].
      destruct (Z.ltb_spec (now + 60000) later); [lia|done].
    + intros other Hne. unfold counter, Redis.find. rewrite Hframe; [done|..].
      * intros H. by apply minuteKeyOf_inj in H.
      * intros H. by apply (minuteKey_hourKey clientIp (other / 60000) (now / 3600000)).
      * intros H. by apply (suspiciousKey_minuteKey clientIp clientIp (other / 60000)).
Qed.

(** C2: N calls of trackRequest whose instants lie in one minute window,
    starting with no counter for that window, return requestCount = N on
    the Nth call; a call in another window, whose counter does not exist
    yet, returns 1. *)
Theorem trackRequest_window_count clientIp minuteWindow times w :
  RedisService.isAvailable w = true →
  Forall (fun now => now / 60000 = minuteWindow) times →
  db w !! minuteKeyOf clientIp minuteWindow = None →
  let rs := (trackRequests clientIp times w).1 in
  let w' := (trackRequests clientIp times w).2 in
  length rs = length times
  ∧ (∀ (N : nat) r, rs !! N = Some r → requestCount r = Z.of_nat (S N))
  ∧ (∀ next,
       next / 60000 ≠ minuteWindow →
       db w !! minuteKeyOf clientIp (next / 60000) = None →
       requestCount (trackRequest next clientIp w').1 = 1).
Proof.
  intros Hav Hin Hfree.
  destruct (trackRequests_from clientIp minuteWindow times w 0 Hav Hin)
    as (Hlen & Hcount & Hav' & Hfr).
  { intros now _. unfold counter. by rewrite find_absent. }
  split; [done|]. split.
  - intros N r Hr. apply Hcount in Hr. lia.
  - intros next Hnext Hnone.
    destruct (trackRequest_step next clientIp _ 0 Hav') as (w2 & Hstep & _).
    { unfold counter. rewrite find_absent; [done|]. by rewrite Hfr. }
    by rewrite Hstep.
Qed.


(** [shouldRateLimit] on a minute counter that holds [c]. *)
Lemma shouldRateLimit_counter now c w n :
  RedisService.isAvailable w = true →
  counter now (db w) (minuteKeyOf c (now / 60000)) = Some n →
  shouldRateLimit now c w
  = (mkRateLimit (500 <=? n) (Num (Z.max 0 (500 - n))) ((now / 60000 + 1) * 60000), w).
Proof.
  intros Hav Hc. unfold shouldRateLimit.
  apply executeOperation_Ok; [done|].
  unfold bind, call, ret, Redis.get. unfold counter in Hc.
  destruct (Redis.find now (db w) (minuteKeyOf c (now / 60000)))
    as [[[[k| | | |]| |] t]|]; simplify_eq; simpl; by destruct w.
Qed.

(** C10: for a stored minute count c, shouldRateLimit answers
    shouldLimit = (c >= 500) and remainingRequests = max(0, 500 - c), so
    that shouldLimit holds exactly when no request remains, and it leaves
    the store as it is; the request that brings the minute count to 500
    (the hour count being within its quota) is not reported as blocked by
    trackRequest, and shouldRateLimit then answers shouldLimit = true. *)
Theorem shouldRateLimit_quota now clientIp w c :
  let minuteKey := minuteKeyOf clientIp (now / 60000) in
  let hourKey := hourKeyOf clientIp (now / 3600000) in
  RedisService.isAvailable w = true →
  counter now (db w) minuteKey = Some c →
  let r := (shouldRateLimit now clientIp w).1 in
  (shouldRateLimit now clientIp w).2 = w
  ∧ shouldLimit r = (500 <=? c)
  ∧ remainingRequests r = Num (Z.max 0 (500 - c))
  ∧ (shouldLimit r = true ↔ remainingRequests r = Num 0)
  ∧ (∀ h, c + 1 = 500 →
          counter now (db w) hourKey = Some h → h + 1 ≤ 5000 →
          let t := trackRequest now clientIp w in
          requestCount t.1 = 500
          ∧ isBlocked t.1 = false
          ∧ shouldLimit (shouldRateLimit now clientIp t.2).1 = true).
Proof.
  intros mk hk Hav Hc. simpl.
  rewrite (shouldRateLimit_counter now clientIp w c Hav Hc). simpl.
  split; [done|]. split; [done|]. split; [done|]. split.
  - rewrite Z.leb_le. split; [intros; f_equal; lia|intros [= ?]; lia].
  - intros h H500 Hh Hquota.
    destruct (trackRequest_step now clientIp w c Hav Hc)
      as (w1 & Hstep & Hav1 & _ & Hmk & _).
    fold mk hk in Hstep, Hmk. rewrite Hstep. simpl.
    unfold hourCountAfter. rewrite Hh.
    rewrite (shouldRateLimit_counter now clientIp w1 (c + 1) Hav1).
    + simpl. rewrite H500. split; [done|]. split; [|done].
      apply orb_false_iff. split; [done|]. apply Z.ltb_ge. lia.
    + unfold counter, Redis.find. fold mk. rewrite Hmk.
      unfold Redis.expired. simpl.
      destruct (now + 60000 <? now) eqn:Hlt; [lia|done].
Qed.


(** The first incident of a client creates its record. *)
Lemma addToSuspiciousIps_first now c r w :
  RedisService.isAvailable w = true →
  Redis.find now (db w) (suspiciousKeyOf c) = None →
  db (addToSuspiciousIps now c r w).2 !! suspiciousKeyOf c
  = Some (mkEntry (RString (PSuspicious (mkSuspiciousData c [r] now now 1 medium)))
            (Some (now + 86400000))).
Proof.
  intros Hav Hf. unfold addToSuspiciousIps.
  erewrite executeOperation_Ok; [| done |].
  2:{ unfold bind, call, ret, Redis.get. rewrite Hf. simpl. done. }
  simpl. by rewrite lookup_insert_eq.
Qed.

(** A later incident rewrites the record. *)
Lemma addToSuspiciousIps_next now c r w d e :
  RedisService.isAvailable w = true →
  db w !! suspiciousKeyOf c = Some (mkEntry (RString (PSuspicious d)) (Some e)) →
  now ≤ e →
  let w' := (addToSuspiciousIps now c r w).2 in
  RedisService.isAvailable w' = true
  ∧ db w' !! suspiciousKeyOf c
    = Some (mkEntry
              (RString (PSuspicious
                 (mkSuspiciousData (sip d) (reasons d ++ [r]) (firstSeen d) now
                    (count d + 1) (if 5 <? count d then high else medium))))
              (Some (now + 86400000))).
Proof.
  intros Hav Hd He. unfold addToSuspiciousIps.
  erewrite executeOperation_Ok; [| done |].
  2:{ unfold bind, call, ret, Redis.get, Redis.find. rewrite Hd.
      unfold Redis.expired. simpl.
      destruct (e <? now) eqn:Hlt; [lia|]. simpl. done. }
  simpl. split; [done|]. by rewrite lookup_insert_eq.
Qed.

(** The record after a run of incidents that keep it alive: the part of C7
    that holds, and the severity as the code computes it, from the count
    before the increment. *)
Lemma addAllToSuspiciousIps_record c calls : ∀ w d e,
  RedisService.isAvailable w = true →
  db w !! suspiciousKeyOf c = Some (mkEntry (RString (PSuspicious d)) (Some e)) →
  sliding e calls → calls ≠ [] →
  ∃ d',
    db (addAllToSuspiciousIps c calls w) !! suspiciousKeyOf c
    = Some (mkEntry (RString (PSuspicious d'))
              (Some (List.last (map fst calls) 0 + 86400000)))
    ∧ count d' = count d + Z.of_nat (length calls)
    ∧ reasons d' = (reasons d ++ map snd calls)%list
    ∧ firstSeen d' = firstSeen d
    ∧ lastSeen d' = List.last (map fst calls) 0
    ∧ severity d' = if 5 <? count d' - 1 then high else medium.
Proof.
  induction calls as [|[t r] rest IH]; intros w d e Hav Hd Hs Hne; [done|].
  destruct Hs as [Ht Hs].
  destruct (addToSuspiciousIps_next t c r w d e Hav Hd Ht) as [Hav1 Hd1].
  destruct rest as [|call rest'].
  - eexists. split; [exact Hd1|]. simpl.
    repeat split; try done. by replace (count d + 1 - 1) with (count d) by lia.
  - destruct (IH _ _ _ Hav1 Hd1 Hs) as (d' & Hd' & Hcount & Hreasons & Hfirst & Hlast & Hsev);
      [done|].
    exists d'. split; [exact Hd'|]. simpl in *.
    repeat split; try done.
    + lia.
    + by rewrite Hreasons, <- app_assoc.
Qed.


End RedisSecurityService_facts.

(** *** RedisIpBlockingService *)

Section RedisIpBlockingService_facts.
Import RedisIpBlockingService.

(** [blockIp] outside the two keys it names. *)
Lemma blockIp_frame now i reason dur w :
  let w' := (blockIp now i reason dur w).2 in
  isConnected w' = isConnected w ∧ client w' = client w
  ∧ blockIpCalls w' = (i, reason, dur) :: blockIpCalls w
  ∧ ∀ key, key ≠ BLOCKED_IPS_KEY → key ≠ BLOCKED_IPS_KEY +:+ ":" +:+ i →
           db w' !! key = db w !! key.
Proof.
  unfold blockIp. unfold_M. simpl.
  destruct (negb (RedisService.isAvailable _) || negb (client w)); [done|].
  simpl.
  pose proof (hset_frame now BLOCKED_IPS_KEY
                [(i, PBlocked (blockedIPOf now i reason dur))] (db w)) as Hh.
  pose proof (hset_Throw now BLOCKED_IPS_KEY
                [(i, PBlocked (blockedIPOf now i reason dur))] (db w)) as Ht.
  unfold blockedIPOf in Hh, Ht.
  destruct (Redis.hset now BLOCKED_IPS_KEY _ (db w)) as [[n|e] d1]; simpl in *.
  - destruct (truthy dur); simpl.
    + pose proof (expire_frame now (BLOCKED_IPS_KEY +:+ ":" +:+ i)
                    (minutes dur * 60) d1) as He.
      destruct (expire_Ok now (BLOCKED_IPS_KEY +:+ ":" +:+ i)
                  (minutes dur * 60) d1) as [k Hk].
      destruct (Redis.expire now _ _ d1) as [r d2]; simpl in *. subst r.
      repeat split; try done. intros key H1 H2.
      rewrite He by done. by apply Hh.
    + repeat split; try done. intros key H1 H2. by apply Hh.
  - rewrite (Ht e eq_refl). simpl.
    repeat split; try done. intros key H1 H2. by apply Hh.
Qed.

Lemma hset_one now key f v (d : DB) h0 t0 :
  hashAt now d key = Some (h0, t0) →
  ∃ n, Redis.hset now key [(f, v)] d
       = (Ok n, <[key := mkEntry (RHash (<[f := v]> h0)) t0]> d).
Proof.
  unfold hashAt, Redis.hset. intros H.
  destruct (Redis.find now d key) as [[[| |] ?]|]; simplify_eq; simpl; eauto.
Qed.

(** What [blockIp] leaves under the key of the blocked addresses. *)
Lemma blockIp_record now i reason dur w h0 t0 :
  RedisService.isAvailable w = true →
  hashAt now (db w) BLOCKED_IPS_KEY = Some (h0, t0) →
  db (blockIp now i reason dur w).2 !! BLOCKED_IPS_KEY
  = Some (mkEntry (RHash (<[i := PBlocked (blockedIPOf now i reason dur)]> h0)) t0).
Proof.
  intros Hav Hh. unfold blockIp.
  destruct (hset_one now BLOCKED_IPS_KEY i
              (PBlocked (blockedIPOf now i reason dur)) (db w) h0 t0 Hh) as [n Hset].
  unfold blockedIPOf in Hset.
  destruct (truthy dur) eqn:Hd.
  - pose proof (expire_frame now (BLOCKED_IPS_KEY +:+ ":" +:+ i) (minutes dur * 60)
                  (<[BLOCKED_IPS_KEY :=
                       mkEntry (RHash (<[i := PBlocked (blockedIPOf now i reason dur)]> h0))
                         t0]> (db w)) BLOCKED_IPS_KEY) as He.
    destruct (expire_Ok now (BLOCKED_IPS_KEY +:+ ":" +:+ i) (minutes dur * 60)
                (<[BLOCKED_IPS_KEY :=
                     mkEntry (RHash (<[i := PBlocked (blockedIPOf now i reason dur)]> h0))
                       t0]> (db w))) as [k Hk].
    unfold blockedIPOf in He, Hk. rewrite Hd in He, Hk.
    destruct (Redis.expire now _ _ _) as [r d2] eqn:Hexp. simpl in *. subst r.
    erewrite executeOperation_Ok; [| done |].
    2:{ unfold bind, call, ret. simpl. rewrite Hset. simpl. rewrite Hexp. done. }
    simpl. rewrite He; [|apply not_eq_sym, blockedKey_blockedTtlKey].
    unfold blockedIPOf. rewrite Hd. by rewrite lookup_insert_eq.
  - erewrite executeOperation_Ok; [| done |].
    2:{ unfold bind, call, ret. simpl. rewrite Hset. done. }
    simpl. unfold blockedIPOf. rewrite Hd. by rewrite lookup_insert_eq.
Qed.


Lemma set_db_id w : set_db (db w) w = w.
Proof. by destruct w. Qed.

Lemma blockRecord_delete_key now (d : DB) h t i j :
  Redis.find now d BLOCKED_IPS_KEY = Some (mkEntry (RHash h) t) →
  delete i h = ∅ → j ≠ i →
  blockRecord now (delete BLOCKED_IPS_KEY d) j = blockRecord now d j.
Proof.
  intros Hf He Hj. unfold blockRecord, Redis.find at 1.
  rewrite lookup_delete_eq, Hf.
  rewrite <- (lookup_delete_ne h i j) by done. by rewrite He.
Qed.

(** [unblockIp] removes the record of [i] and no other. *)
Lemma unblockIp_spec now i w :
  RedisService.isAvailable w = true →
  let w' := (unblockIp now i w).2 in
  RedisService.isAvailable w' = true
  ∧ blockIpCalls w' = blockIpCalls w
  ∧ blockRecord now (db w') i = None
  ∧ (∀ j, j ≠ i → blockRecord now (db w') j = blockRecord now (db w) j)
  ∧ (unblockIp now i w).1 = (if blockRecord now (db w) i is Some _ then true else false).
Proof.
  intros Hav. unfold unblockIp. unfold blockRecord at 3 4.
  destruct (Redis.find now (db w) BLOCKED_IPS_KEY) as [[[p|h|z] t]|] eqn:Hf.
  - rewrite (executeOperation_Throw _ _ w ReplyError w); [| done | | done].
    2:{ unfold bind, call, Redis.hdel. rewrite Hf. by rewrite set_db_id. }
    simpl. unfold blockRecord. by rewrite Hf.
  - destruct (h !! i) as [p|] eqn:Hi.
    + destruct (decide (delete i h = ∅)) as [He|He].
      * erewrite executeOperation_Ok; [| done |].
        2:{ unfold bind, call, ret, Redis.hdel. rewrite Hf, Hi.
            rewrite decide_True by done. simpl. done. }
        simpl. repeat split; try done.
        -- unfold blockRecord, Redis.find. by rewrite lookup_delete_eq.
        -- intros j Hj. rewrite (blockRecord_delete_key now (db w) h t i j); try done.
           unfold blockRecord. by rewrite Hf.
      * pose proof Hf as [_ Hlive]%find_Some.
        erewrite executeOperation_Ok; [| done |].
        2:{ unfold bind, call, ret, Redis.hdel. rewrite Hf, Hi.
            rewrite decide_False by done. simpl. done. }
        simpl. unfold blockRecord. rewrite find_insert_eq by done.
        repeat split; try done.
        -- by rewrite lookup_delete_eq.
        -- intros j Hj. by rewrite lookup_delete_ne.
    + erewrite executeOperation_Ok; [| done |].
      2:{ unfold bind, call, ret, Redis.hdel. rewrite Hf, Hi. simpl. done. }
      simpl. unfold blockRecord. rewrite Hf. by rewrite Hi.
  - rewrite (executeOperation_Throw _ _ w ReplyError w); [| done | | done].
    2:{ unfold bind, call, Redis.hdel. rewrite Hf. by rewrite set_db_id. }
    simpl. unfold blockRecord. by rewrite Hf.
  - erewrite executeOperation_Ok; [| done |].
    2:{ unfold bind, call, ret, Redis.hdel. rewrite Hf. simpl. done. }
    simpl. unfold blockRecord. by rewrite Hf.
Qed.

Lemma hget_blockRecord now i (d : DB) p :
  blockRecord now d i = Some p → Redis.hget now BLOCKED_IPS_KEY i d = (Ok (Some p), d).
Proof.
  unfold blockRecord, Redis.hget.
  destruct (Redis.find now d BLOCKED_IPS_KEY) as [[[| |] ?]|]; try done.
  by intros ->.
Qed.

Lemma isBlocked_absent now i w :
  RedisService.isAvailable w = true →
  blockRecord now (db w) i = None →
  isBlocked now i w = (false, w).
Proof.
  intros Hav Hrec. unfold isBlocked, blockRecord in *.
  destruct (Redis.find now (db w) BLOCKED_IPS_KEY) as [[[p|h|z] t]|] eqn:Hf.
  - rewrite (executeOperation_Throw _ _ w ReplyError w); [done| done | | done].
    unfold bind, call, Redis.hget. rewrite Hf. by rewrite set_db_id.
  - apply executeOperation_Ok; [done|].
    unfold bind, call, ret, Redis.hget. rewrite Hf, Hrec. by rewrite set_db_id.
  - rewrite (executeOperation_Throw _ _ w ReplyError w); [done| done | | done].
    unfold bind, call, Redis.hget. rewrite Hf. by rewrite set_db_id.
  - apply executeOperation_Ok; [done|].
    unfold bind, call, ret, Redis.hget. rewrite Hf. by rewrite set_db_id.
Qed.

(** A record that has not expired. *)
Lemma isBlocked_live now i w b :
  RedisService.isAvailable w = true →
  blockRecord now (db w) i = Some (PBlocked b) →
  isTemporary b && (if expiresAt b is Some t then t <? now else false) = false →
  isBlocked now i w = (true, w).
Proof.
  intros Hav Hrec Hlive. unfold isBlocked.
  apply executeOperation_Ok; [done|].
  unfold bind, call, ret. rewrite (hget_blockRecord now i (db w) _ Hrec).
  simpl. rewrite Hlive. by rewrite set_db_id.
Qed.

(** A temporary record whose expiry is past is removed. *)
Lemma isBlocked_expired now i w b t :
  RedisService.isAvailable w = true →
  blockRecord now (db w) i = Some (PBlocked b) →
  isTemporary b = true → expiresAt b = Some t → t < now →
  isBlocked now i w = (false, (unblockIp now i w).2).
Proof.
  intros Hav Hrec Htmp Hexp Hlt. unfold isBlocked.
  apply executeOperation_Ok; [done|].
  unfold bind, call, ret, await. rewrite (hget_blockRecord now i (db w) _ Hrec).
  simpl. rewrite Htmp, Hexp. simpl.
  destruct (t <? now) eqn:Hcmp; [|lia].
  rewrite set_db_id. by destruct (unblockIp now i w).
Qed.

Lemma mapM_parseJSON l w l' w' :
  mapM parseJSON l w = (Ok l', w') → l' = l ∧ w' = w.
Proof.
  revert l'. induction l as [|p rest IH]; intros l'; simpl.
  - unfold ret. by intros [= <- <-].
  - unfold bind at 1.
    destruct p; simpl; try (unfold throw; congruence);
      unfold bind, ret;
      destruct (mapM parseJSON rest w) as [[ys|?] w1];
      try congruence; intros [= <- <-];
      destruct (IH ys eq_refl) as [-> ->]; done.
Qed.

(** Every record that [getBlockedIps] lists is the record of some address. *)
Lemma getBlockedIps_listed now w p :
  p ∈ (getBlockedIps now w).1 → ∃ j, blockRecord now (db w) j = Some p.
Proof.
  unfold getBlockedIps, RedisService.executeOperation.
  destruct (negb (RedisService.isAvailable w) || negb (client w)); simpl.
  { by intros ?%elem_of_nil. }
  unfold bind, call, Redis.hgetall, blockRecord.
  destruct (Redis.find now (db w) BLOCKED_IPS_KEY) as [[[?|h|?] t]|]; simpl;
    try by intros ?%elem_of_nil.
  - destruct (mapM parseJSON (map snd (map_to_list h)) (set_db (db w) w))
      as [[l|e] w1] eqn:Hm; simpl.
    + apply mapM_parseJSON in Hm as [-> ->].
      intros Hin. apply list_elem_of_fmap in Hin as ([j q] & -> & Hin).
      exists j. by apply elem_of_map_to_list in Hin.
    + destruct (RedisService.isConnectionError e); by intros ?%elem_of_nil.
Qed.


(** C5: isBlocked answers false when the address has no record; when the
    record is temporary and its expiry is past, it removes the record,
    answers false, and getBlockedIps afterwards lists records of other
    addresses only; for every other record it answers true and changes
    nothing.  A block created without a duration is answered true at any
    later instant, until unblockIp removes it. *)
Theorem isBlocked_lazy_expiry now i w :
  RedisService.isAvailable w = true →
  (blockRecord now (db w) i = None → isBlocked now i w = (false, w))
  ∧ (∀ b t, blockRecord now (db w) i = Some (PBlocked b) →
            isTemporary b = true → expiresAt b = Some t → t < now →
            let w' := (isBlocked now i w).2 in
            (isBlocked now i w).1 = false
            ∧ blockRecord now (db w') i = None
            ∧ ∀ p, p ∈ (getBlockedIps now w').1 →
                   ∃ j, j ≠ i ∧ blockRecord now (db w) j = Some p)
  ∧ (∀ b, blockRecord now (db w) i = Some (PBlocked b) →
          ¬ (isTemporary b = true ∧ ∃ t, expiresAt b = Some t ∧ t < now) →
          isBlocked now i w = (true, w))
  ∧ (∀ reason h0, hashAt now (db w) BLOCKED_IPS_KEY = Some (h0, None) →
       let w1 := (blockIp now i reason None w).2 in
       (∀ later, isBlocked later i w1 = (true, w1))
       ∧ (∀ later, (isBlocked later i (unblockIp later i w1).2).1 = false)).
Proof.
  intros Hav. split; [|split; [|split]].
  - by apply isBlocked_absent.
  - intros b t Hrec Htmp Hexp Hlt.
    rewrite (isBlocked_expired now i w b t) by done. simpl.
    destruct (unblockIp_spec now i w Hav) as (_ & _ & Hgone & Hothers & _).
    split; [done|]. split; [done|].
    intros p [j Hj]%getBlockedIps_listed.
    exists j. destruct (decide (j = i)) as [->|Hne]; [congruence|].
    split; [done|]. by rewrite <- Hothers.
  - intros b Hrec Hnot. apply (isBlocked_live now i w b); [done..|].
    destruct (isTemporary b); [|done].
    destruct (expiresAt b) as [t|]; [|done]. simpl.
    apply Z.ltb_ge. destruct (decide (t < now)); [|lia].
    exfalso. apply Hnot. eauto.
  - intros reason h0 Hh.
    pose proof (blockIp_record now i reason None w h0 None Hav Hh) as Hrec.
    destruct (blockIp_frame now i reason None w) as (Hc & Hcl & _).
    set (w1 := (blockIp now i reason None w).2) in *.
    assert (RedisService.isAvailable w1 = true) as Hav1.
    { unfold RedisService.isAvailable in *. by rewrite Hc, Hcl. }
    assert (∀ later, blockRecord later (db w1) i
                     = Some (PBlocked (blockedIPOf now i reason None))) as Hlater.
    { intros later. unfold blockRecord, Redis.find. rewrite Hrec. simpl.
      by rewrite lookup_insert_eq. }
    split.
    + intros later. by apply (isBlocked_live later i w1 _ Hav1 (Hlater later)).
    + intros later.
      destruct (unblockIp_spec later i w1 Hav1) as (Hav2 & _ & Hgone & _).
      by rewrite isBlocked_absent.
Qed.


Lemma blockRecord_hashAt now (d : DB) h t i :
  hashAt now d BLOCKED_IPS_KEY = Some (h, t) → blockRecord now d i = h !! i.
Proof.
  unfold hashAt, blockRecord.
  destruct (Redis.find now d BLOCKED_IPS_KEY) as [[[| |] ?]|]; intros; by simplify_eq.
Qed.

Lemma hashAt_live now (d : DB) key h t v :
  hashAt now d key = Some (h, t) → Redis.expired now (mkEntry v t) = false.
Proof.
  unfold hashAt. destruct (Redis.find now d key) as [[[| |] ?]|] eqn:Hf;
    intros; simplify_eq; try done.
  by apply find_Some in Hf as [_ ?].
Qed.

Lemma hashAt_insert now (d : DB) key h t h' :
  hashAt now d key = Some (h, t) →
  hashAt now (<[key := mkEntry (RHash h') t]> d) key = Some (h', t).
Proof.
  intros H. unfold hashAt. rewrite find_insert_eq; [done|].
  by eapply hashAt_live.
Qed.

(** The pipeline of [importMaliciousIpList]. *)
Lemma import_pipeline now reason ips : ∀ (d : DB) h0 t0,
  hashAt now d BLOCKED_IPS_KEY = Some (h0, t0) →
  ∃ h',
    hashAt now
      (Redis.exec now
         (map (fun i => Redis.HSET BLOCKED_IPS_KEY
                          [(i, PBlocked (mkBlockedIP i reason now None false))]) ips)
         d).2 BLOCKED_IPS_KEY = Some (h', t0)
    ∧ (∀ i, i ∈ ips → h' !! i = Some (PBlocked (mkBlockedIP i reason now None false)))
    ∧ (∀ i, i ∉ ips → h' !! i = h0 !! i).
Proof.
  induction ips as [|a rest IH]; intros d h0 t0 Hh; simpl.
  - exists h0. split; [done|]. split; [by intros i ?%elem_of_nil|done].
  - destruct (hset_one now BLOCKED_IPS_KEY a
                (PBlocked (mkBlockedIP a reason now None false)) d h0 t0 Hh)
      as [n ->].
    pose proof (hashAt_insert now d BLOCKED_IPS_KEY h0 t0
                  (<[a := PBlocked (mkBlockedIP a reason now None false)]> h0) Hh)
      as Hh1.
    destruct (IH _ _ _ Hh1) as (h' & Hh' & Hin & Hout).
    destruct (Redis.exec now _ _) as [rs d2]. simpl in *.
    exists h'. split; [done|]. split.
    + intros i Hi. destruct (decide (i ∈ rest)) as [Hr|Hr]; [by apply Hin|].
      apply elem_of_cons in Hi as [->|?]; [|done].
      rewrite Hout by done. by rewrite lookup_insert_eq.
    + intros i Hi. apply not_elem_of_cons in Hi as [Hne Hr].
      rewrite Hout by done. by rewrite lookup_insert_ne.
Qed.

Lemma importMaliciousIpList_db now ips reason w :
  RedisService.isAvailable w = true →
  db (importMaliciousIpList now ips reason w).2
  = (Redis.exec now
       (map (fun i => Redis.HSET BLOCKED_IPS_KEY
                        [(i, PBlocked (mkBlockedIP i (default "Known malicious IP" reason)
                                         now None false))]) ips)
       (db w)).2.
Proof.
  intros Hav. unfold importMaliciousIpList, RedisService.executeOperation.
  rewrite Hav. apply andb_true_iff in Hav as [_ ->]. simpl.
  unfold bind, exec_pipeline, ret.
  by destruct (Redis.exec now _ (db w)).
Qed.

(** C6 (as the code has it): a record written by blockIp is temporary
    exactly when durationMinutes is present and not 0.  Its expiresAt is
    then the date now + durationMinutes*60000, which is absent when that
    instant lies further than 8.64e15 ms from the epoch (an invalid date is
    written as null), and expiresAt is absent when the record is not
    temporary.  So isTemporary = (expiresAt is present) holds whenever the
    expiry instant is a valid date and fails, with a temporary record
    without expiresAt, when it is not; importMaliciousIpList writes
    permanent records only (isTemporary false, no expiresAt). *)
Theorem blockRecord_invariant now w h0 t0 :
  RedisService.isAvailable w = true →
  hashAt now (db w) BLOCKED_IPS_KEY = Some (h0, t0) →
  (∀ i reason durationMinutes,
     ∃ b, blockRecord now (db (blockIp now i reason durationMinutes w).2) i
          = Some (PBlocked b)
          ∧ (isTemporary b = true ↔ ∃ n, durationMinutes = Some n ∧ n ≠ 0)
          ∧ expiresAt b = match durationMinutes with
                          | Some n =>
                              if n =? 0 then None
                              else if Z.abs (now + n * 60000) <=? 8640000000000000
                                   then Some (now + n * 60000)
                                   else None
                          | None => None
                          end
          ∧ ((∀ n, durationMinutes = Some n →
                   Z.abs (now + n * 60000) ≤ 8640000000000000) →
             (isTemporary b = true ↔ is_Some (expiresAt b)))
          ∧ (∀ n, durationMinutes = Some n → n ≠ 0 →
                  8640000000000000 < Z.abs (now + n * 60000) →
                  isTemporary b = true ∧ expiresAt b = None))
  ∧ (∀ ips reason i, i ∈ ips →
     ∃ b, blockRecord now (db (importMaliciousIpList now ips reason w).2) i
          = Some (PBlocked b)
          ∧ isTemporary b = false ∧ expiresAt b = None).
Proof.
  intros Hav Hh. split.
  - intros i reason dur. exists (blockedIPOf now i reason dur).
    pose proof (blockIp_record now i reason dur w h0 t0 Hav Hh) as Hrec.
    split; [|split; [|split; [|split]]].
    + unfold blockRecord, Redis.find. rewrite Hrec.
      rewrite (hashAt_live now (db w) _ h0 t0 _ Hh). by rewrite lookup_insert_eq.
    + unfold blockedIPOf, truthy. cbn [isTemporary]. destruct dur as [n|].
      * destruct (Z.eqb_spec n 0) as [->|Hn]; cbn [negb]; split; try done.
        -- intros (? & [= <-] & ?). done.
        -- intros _. by exists n.
      * split; [done|]. by intros (? & ? & _).
    + unfold blockedIPOf, truthy, newDate, MAX_TIME. cbn [expiresAt].
      destruct dur as [n|]; [|done]. change (minutes (Some n)) with n.
      by destruct (n =? 0).
    + intros Hvalid. unfold blockedIPOf, truthy, newDate, MAX_TIME.
      cbn [isTemporary expiresAt]. destruct dur as [n|]; [|by split; [|intros []]].
      change (minutes (Some n)) with n.
      destruct (n =? 0); cbn [negb]; [by split; [|intros []]|].
      destruct (Z.leb_spec (Z.abs (now + n * 60000)) 8640000000000000) as [|Hgt];
        [by split|].
      specialize (Hvalid n eq_refl). lia.
    + intros n -> Hn Hgt. unfold blockedIPOf, truthy, newDate, MAX_TIME.
      cbn [isTemporary expiresAt]. change (minutes (Some n)) with n.
      destruct (Z.eqb_spec n 0); [done|]. cbn [negb]. split; [done|].
      destruct (Z.leb_spec (Z.abs (now + n * 60000)) 8640000000000000); [lia|done].
  - intros ips reason i Hi.
    destruct (import_pipeline now (default "Known malicious IP" reason) ips
                (db w) h0 t0 Hh) as (h' & Hh' & Hin & _).
    exists (mkBlockedIP i (default "Known malicious IP" reason) now None false).
    split; [|done].
    rewrite (blockRecord_hashAt now _ h' t0); [by apply Hin|].
    by rewrite importMaliciousIpList_db.
Qed.


Lemma hset_hashAt now key fields (d : DB) h0 t0 :
  hashAt now d key = Some (h0, t0) →
  ∃ n h, Redis.hset now key fields d = (Ok n, <[key := mkEntry (RHash h) t0]> d).
Proof.
  unfold hashAt, Redis.hset. intros H.
  destruct (Redis.find now d key) as [[[| |] ?]|]; simplify_eq;
    destruct (Redis.hset_fields fields _); eauto.
Qed.

Lemma hashAt_insert_ne now (d : DB) key key' e :
  key ≠ key' → hashAt now (<[key := e]> d) key' = hashAt now d key'.
Proof. intros H. unfold hashAt. by rewrite find_insert_ne. Qed.

Lemma incr_counterEntry now key (d : DB) c e :
  counterEntry now d key = Some (c, e) →
  Redis.incr now key d = (Ok (c + 1), <[key := mkEntry (RString (PInt (c + 1))) e]> d)
  ∧ Redis.expired now (mkEntry (RString (PInt (c + 1))) e) = false.
Proof.
  unfold counterEntry, Redis.incr. intros H.
  destruct (Redis.find now d key) as [[[[]| |] ?]|] eqn:Hf; simplify_eq; [|done].
  split; [done|]. by apply find_Some in Hf as [_ ?].
Qed.

Lemma expire_inserted now key s (d : DB) v t :
  0 < s → Redis.expired now (mkEntry v t) = false →
  Redis.expire now key s (<[key := mkEntry v t]> d)
  = (Ok 1, <[key := mkEntry v (Some (now + s * 1000))]> d).
Proof.
  intros Hs Hlive. unfold Redis.expire. rewrite find_insert_eq by done.
  destruct (s <=? 0) eqn:Hle; [lia|]. simpl. by rewrite insert_insert_eq.
Qed.

(** One call of [trackSuspiciousActivity] on a counter that holds [c] and
    expires at [e]: the world it leaves. *)
Lemma trackSuspiciousActivity_eq now i a w c e hd td :
  RedisService.isAvailable w = true →
  counterEntry now (db w) (activityKeyOf i) = Some (c, e) →
  hashAt now (db w) (detailsKeyOf i) = Some (hd, td) →
  ∃ hd',
    let e' := if c + 1 =? 1 then Some (now + 3600000) else e in
    let dC := <[detailsKeyOf i := mkEntry (RHash hd') (Some (now + 3600000))]>
                (<[activityKeyOf i := mkEntry (RString (PInt (c + 1))) e']> (db w)) in
    trackSuspiciousActivity now i a w
    = (tt,
       if 5 <=? c + 1
       then let w3 := (blockIp now i (autoBlockReason a) (Some 60) (set_db dC w)).2 in
            set_db (delete (detailsKeyOf i) (delete (activityKeyOf i) (db w3))) w3
       else set_db dC w).
Proof.
  intros Hav Hc Hd.
  pose proof (activityKey_detailsKey i) as Hne.
  destruct (incr_counterEntry now _ _ c e Hc) as [Hincr Hlive].
  set (e' := if c + 1 =? 1 then Some (now + 3600000) else e).
  set (dA := <[activityKeyOf i := mkEntry (RString (PInt (c + 1))) e']> (db w)).
  destruct (hset_hashAt now (detailsKeyOf i)
              [("lastAttempt", PInt now); ("activity", PText a)] dA hd td)
    as (n & hd' & Hset).
  { unfold dA. by rewrite hashAt_insert_ne. }
  pose proof (expire_inserted now (detailsKeyOf i) 3600 dA (RHash hd') td
                ltac:(lia) (hashAt_live now _ _ _ _ _ Hd)) as Hexp.
  exists hd'. simpl. fold e' dA.
  change (now + 3600 * 1000) with (now + 3600000) in Hexp.
  set (dC := <[detailsKeyOf i := mkEntry (RHash hd') (Some (now + 3600000))]> dA) in *.
  unfold trackSuspiciousActivity.
  apply executeOperation_Ok; [done|].
  unfold bind at 1. unfold call at 1. rewrite Hincr.
  unfold bind at 1.
  assert ((if c + 1 =? 1
           then LET _ <- call (Redis.expire now (activityKeyOf i) 3600) IN ret ()
           else ret ())
            (set_db (<[activityKeyOf i := mkEntry (RString (PInt (c + 1))) e]> (db w)) w)
          = (Ok (), set_db dA w)) as ->.
  { unfold dA, e'. destruct (c + 1 =? 1).
    - unfold bind, call, ret. simpl. by rewrite expire_inserted.
    - done. }
  unfold bind at 1. unfold call at 1. simpl. rewrite Hset.
  unfold bind at 1. unfold call at 1. simpl. rewrite Hexp.
  change (set_db dC (set_db _ (set_db dA w))) with (set_db dC w).
  destruct (5 <=? c + 1); [|done].
  unfold bind, await, call, ret.
  destruct (blockIp now i (autoBlockReason a) (Some 60) (set_db dC w)) as [[] w3].
  done.
Qed.

Lemma trackSuspiciousActivity_step now i a w c e hd td :
  RedisService.isAvailable w = true →
  counterEntry now (db w) (activityKeyOf i) = Some (c, e) →
  hashAt now (db w) (detailsKeyOf i) = Some (hd, td) →
  let w' := (trackSuspiciousActivity now i a w).2 in
  RedisService.isAvailable w' = true
  ∧ if 5 <=? c + 1
    then blockIpCalls w' = (i, autoBlockReason a, Some 60) :: blockIpCalls w
         ∧ db w' !! activityKeyOf i = None
         ∧ db w' !! detailsKeyOf i = None
    else blockIpCalls w' = blockIpCalls w
         ∧ db w' !! activityKeyOf i
           = Some (mkEntry (RString (PInt (c + 1)))
                     (if c + 1 =? 1 then Some (now + 3600000) else e))
         ∧ ∃ hd', db w' !! detailsKeyOf i
                  = Some (mkEntry (RHash hd') (Some (now + 3600000))).
Proof.
  intros Hav Hc Hd.
  pose proof (activityKey_detailsKey i) as Hne.
  destruct (trackSuspiciousActivity_eq now i a w c e hd td Hav Hc Hd) as [hd' Heq].
  simpl in Heq. rewrite Heq. simpl.
  pose proof Hav as [Hcon Hcl]%andb_true_iff.
  destruct (5 <=? c + 1).
  - destruct (blockIp_frame now i (autoBlockReason a) (Some 60)
                (set_db (<[detailsKeyOf i := mkEntry (RHash hd') (Some (now + 3600000))]>
                           (<[activityKeyOf i :=
                                mkEntry (RString (PInt (c + 1)))
                                  (if c + 1 =? 1 then Some (now + 3600000) else e)]>
                              (db w))) w))
      as (Hc3 & Hcl3 & Hcalls3 & _).
    simpl in *. unfold RedisService.isAvailable. simpl. rewrite Hc3, Hcl3, Hcon, Hcl.
    repeat split; try done.
    + rewrite lookup_delete_ne by done. by rewrite lookup_delete_eq.
    + by rewrite lookup_delete_eq.
  - unfold RedisService.isAvailable. simpl. rewrite Hcon, Hcl.
    repeat split; try done.
    + rewrite lookup_insert_ne by done. by rewrite lookup_insert_eq.
    + exists hd'. by rewrite lookup_insert_eq.
Qed.

Lemma hashAt_of_hash now (d : DB) key h t :
  d !! key = Some (mkEntry (RHash h) t) → ∃ h' t', hashAt now d key = Some (h', t').
Proof.
  intros H. unfold hashAt, Redis.find. rewrite H.
  destruct (Redis.expired now _); eauto.
Qed.

Lemma trackSuspiciousActivities_app i calls1 calls2 w :
  trackSuspiciousActivities i (calls1 ++ calls2) w
  = trackSuspiciousActivities i calls2 (trackSuspiciousActivities i calls1 w).
Proof.
  revert w. induction calls1 as [|[t a] rest IH]; intros w; [done|]. simpl. apply IH.
Qed.

(** Further incidents before the deadline of a counter that holds [k]. *)
Lemma trackSuspiciousActivities_within i deadline calls : ∀ w k,
  RedisService.isAvailable w = true →
  1 ≤ k → k + Z.of_nat (length calls) < 5 →
  db w !! activityKeyOf i = Some (mkEntry (RString (PInt k)) (Some deadline)) →
  (∃ hd td, db w !! detailsKeyOf i = Some (mkEntry (RHash hd) td)) →
  Forall (fun call : Z * string => call.1 < deadline) calls →
  let w' := trackSuspiciousActivities i calls w in
  RedisService.isAvailable w' = true
  ∧ blockIpCalls w' = blockIpCalls w
  ∧ db w' !! activityKeyOf i
    = Some (mkEntry (RString (PInt (k + Z.of_nat (length calls)))) (Some deadline))
  ∧ ∃ hd td, db w' !! detailsKeyOf i = Some (mkEntry (RHash hd) td).
Proof.
  induction calls as [|[t a] rest IH]; intros w k Hav Hk Hlen Hcount Hdet Hin; simpl.
  { rewrite Z.add_0_r. done. }
  apply Forall_cons in Hin as [Ht Hrest]. simpl in Ht.
  destruct Hdet as (hd & td & Hdet).
  destruct (hashAt_of_hash t _ _ _ _ Hdet) as (hd1 & td1 & Hh).
  assert (counterEntry t (db w) (activityKeyOf i) = Some (k, Some deadline)) as Hc.
  { unfold counterEntry, Redis.find. rewrite Hcount. unfold Redis.expired. simpl.
    destruct (deadline <? t) eqn:Hlt; [lia|done]. }
  destruct (trackSuspiciousActivity_step t i a w k _ hd1 td1 Hav Hc Hh) as [Hav1 Hstep].
  simpl in Hlen.
  destruct (Z.leb_spec 5 (k + 1)); [lia|].
  destruct (Z.eqb_spec (k + 1) 1); [lia|].
  destruct Hstep as (Hcalls & Hcount1 & hd' & Hdet1).
  destruct (IH _ (k + 1) Hav1) as (Hav' & Hcalls' & Hcount' & Hdet'); eauto; try lia.
  split; [done|]. split; [congruence|]. split; [|done].
  rewrite Hcount'. do 4 f_equal. lia.
Qed.


Lemma counterEntry_free now (d : DB) key :
  d !! key = None → counterEntry now d key = Some (0, None).
Proof. intros H. unfold counterEntry. by rewrite find_absent. Qed.

Lemma hashAt_free now (d : DB) key :
  d !! key = None → hashAt now d key = Some (∅, None).
Proof. intros H. unfold hashAt. by rewrite find_absent. Qed.

(** C4 (as the code has it): five calls of trackSuspiciousActivity for a
    client without counter, the last four less than one hour after the
    first, make exactly one call of blockIp, with durationMinutes = 60 and
    the reason "Multiple suspicious activities: " followed by the latest
    activity description; afterwards the attempt counter and the details
    hash are absent. *)
Theorem five_activities_one_block i t1 a1 t2 a2 t3 a3 t4 a4 t5 a5 w :
  RedisService.isAvailable w = true →
  db w !! activityKeyOf i = None →
  db w !! detailsKeyOf i = None →
  t2 < t1 + 3600000 → t3 < t1 + 3600000 →
  t4 < t1 + 3600000 → t5 < t1 + 3600000 →
  let w' := trackSuspiciousActivities i
              [(t1, a1); (t2, a2); (t3, a3); (t4, a4); (t5, a5)] w in
  blockIpCalls w'
  = (i, "Multiple suspicious activities: " +:+ a5, Some 60) :: blockIpCalls w
  ∧ db w' !! activityKeyOf i = None
  ∧ db w' !! detailsKeyOf i = None.
Proof.
  intros Hav Hfree Hdfree H2 H3 H4 H5.
  change [(t1, a1); (t2, a2); (t3, a3); (t4, a4); (t5, a5)]
    with ([(t1, a1)] ++ [(t2, a2); (t3, a3); (t4, a4)] ++ [(t5, a5)])%list.
  rewrite 2!trackSuspiciousActivities_app.
  destruct (trackSuspiciousActivity_step t1 i a1 w 0 None ∅ None Hav)
    as [Hav1 Hstep1]; [by apply counterEntry_free|by apply hashAt_free|].
  change (5 <=? 0 + 1) with false in Hstep1.
  change (0 + 1 =? 1) with true in Hstep1.
  change (0 + 1) with 1 in Hstep1. cbv iota in Hstep1.
  destruct Hstep1 as (Hcalls1 & Hcount1 & hd1 & Hdet1).
  change (trackSuspiciousActivities i [(t1, a1)] w)
    with (trackSuspiciousActivity t1 i a1 w).2.
  set (w1 := (trackSuspiciousActivity t1 i a1 w).2) in *.
  destruct (trackSuspiciousActivities_within i (t1 + 3600000)
              [(t2, a2); (t3, a3); (t4, a4)] w1 1 Hav1)
    as (Hav4 & Hcalls4 & Hcount4 & hd4 & td4 & Hdet4); eauto; try lia.
  { repeat constructor; simpl; lia. }
  set (w4 := trackSuspiciousActivities i [(t2, a2); (t3, a3); (t4, a4)] w1) in *.
  change (1 + Z.of_nat (length [(t2, a2); (t3, a3); (t4, a4)])) with 4 in Hcount4.
  destruct (hashAt_of_hash t5 _ _ _ _ Hdet4) as (hd & td & Hh).
  destruct (trackSuspiciousActivity_step t5 i a5 w4 4 (Some (t1 + 3600000)) hd td Hav4)
    as [Hav5 Hstep5]; [|done|].
  { unfold counterEntry, Redis.find. rewrite Hcount4. unfold Redis.expired.
    cbn [ttl value].
    destruct (t1 + 3600000 <? t5) eqn:Hlt; [lia|done]. }
  change (5 <=? 4 + 1) with true in Hstep5. cbv iota in Hstep5.
  destruct Hstep5 as (Hcalls5 & Hcount5 & Hdet5).
  change (trackSuspiciousActivities i [(t5, a5)] w4)
    with (trackSuspiciousActivity t5 i a5 w4).2.
  split; [|done]. rewrite Hcalls5. unfold autoBlockReason. congruence.
Qed.

(** C9: trackSuspiciousActivity gives the attempt counter its one-hour
    expiry on the increment that brings it to 1 and leaves the expiry as it
    is on every other increment; the counter of a first incident therefore
    expires one hour after that incident, however many incidents follow. *)
Theorem suspicion_window_is_capped now i a w c e hd td :
  RedisService.isAvailable w = true →
  counterEntry now (db w) (activityKeyOf i) = Some (c, e) →
  hashAt now (db w) (detailsKeyOf i) = Some (hd, td) →
  c + 1 < 5 →
  let w' := (trackSuspiciousActivity now i a w).2 in
  (c + 1 = 1 →
   db w' !! activityKeyOf i
   = Some (mkEntry (RString (PInt 1)) (Some (now + 3600000))))
  ∧ (c + 1 ≠ 1 →
     db w' !! activityKeyOf i = Some (mkEntry (RString (PInt (c + 1))) e))
  ∧ (c + 1 = 1 →
     ∀ calls, (length calls < 4)%nat →
       Forall (fun call : Z * string => call.1 < now + 3600000) calls →
       let w'' := trackSuspiciousActivities i calls w' in
       db w'' !! activityKeyOf i
       = Some (mkEntry (RString (PInt (1 + Z.of_nat (length calls))))
                 (Some (now + 3600000)))
       ∧ ∀ later, now + 3600000 < later →
                  counterEntry later (db w'') (activityKeyOf i) = Some (0, None)).
Proof.
  intros Hav Hc Hd Hlt.
  destruct (trackSuspiciousActivity_step now i a w c e hd td Hav Hc Hd)
    as [Hav1 Hstep].
  destruct (Z.leb_spec 5 (c + 1)); [lia|].
  destruct Hstep as (Hcalls & Hcount & hd' & Hdet).
  split; [|split].
  - intros H1. rewrite Hcount, H1. done.
  - intros H1. rewrite Hcount. by destruct (Z.eqb_spec (c + 1) 1).
  - intros H1 calls Hlen Hin. rewrite H1 in Hcount. simpl in Hcount.
    destruct (trackSuspiciousActivities_within i (now + 3600000) calls _ 1 Hav1)
      as (_ & _ & Hcount' & _); eauto; try lia.
    split; [done|].
    intros later Hlater. unfold counterEntry, Redis.find. rewrite Hcount'.
    unfold Redis.expired. simpl.
    destruct (now + 3600000 <? later) eqn:Hcmp; [done|lia].
Qed.


End RedisIpBlockingService_facts.

(** *** Division on doubles *)

Section Doubles.






End Doubles.

(** *** RedisPerformanceService *)

Section RedisPerformanceService_facts.
Import RedisPerformanceService.

Lemma omap_id_Some {A} (l : list A) : omap id (Some <$> l) = l.
Proof. induction l as [|x l IH]; [done|]. csimpl. by rewrite IH. Qed.

Lemma filter_None_Some {A} (l : list A) :
  List.filter (fun x : option A => if x is None then true else false) (Some <$> l) = [].
Proof. induction l as [|x l IH]; [done|]. csimpl. by rewrite IH. Qed.

(** Without [undefined] elements, [sort] is a sort of the numbers. *)
Lemma sortAscending_defined (l : list Z) :
  sortAscending (Some <$> l) = Some <$> merge_sort Z.le l.
Proof.
  unfold sortAscending. rewrite omap_id_Some, filter_None_Some. by rewrite app_nil_r.
Qed.

Lemma mean_defined (l : list Z) :
  mean (Some <$> l)
  = Some (divDouble (sum l) (Z.of_nat (length l))).
Proof.
  unfold mean. rewrite omap_id_Some, length_fmap.
  assert (forallb (fun x : option Z => if x is Some _ then true else false) (Some <$> l)
          = true) as ->; [|done].
  induction l as [|x l IH]; [done|]. csimpl. by rewrite IH.
Qed.

Lemma at_or_0_defined (l : list Z) i : at_or_0 (Some <$> l) i = nth i l 0.
Proof.
  unfold at_or_0. rewrite list_lookup_fmap.
  revert i. induction l as [|x l IH]; intros [|i]; simpl; try done.
Qed.




(** The percentile indices stay inside a non-empty array. *)
Lemma percentile_index_bound (n : nat) :
  (0 < n)%nat → (p95IndexOf n < n)%nat ∧ (p99IndexOf n < n)%nat.
Proof.
  intros Hn. unfold p95IndexOf, p99IndexOf.
  assert (Z.of_nat n * 95 / 100 < Z.of_nat n) by (apply Z.div_lt_upper_bound; lia).
  assert (Z.of_nat n * 99 / 100 < Z.of_nat n) by (apply Z.div_lt_upper_bound; lia).
  assert (0 ≤ Z.of_nat n * 95 / 100) by (apply Z.div_pos; lia).
  assert (0 ≤ Z.of_nat n * 99 / 100) by (apply Z.div_pos; lia).
  lia.
Qed.

(** What the loop over the answer of MGET collects. *)
Lemma collect_mget now (d : DB) keys w :
  Forall (fun key => metric_or_free now d key = true) keys →
  collect (map (fun key => match Redis.find now d key with
                           | Some (mkEntry (RString p) _) => Some p
                           | _ => None
                           end) keys) w
  = (Ok (Some <$> omap (metricAt now d) keys), w).
Proof.
  induction 1 as [|key rest Hkey _ IH]; [done|].
  unfold metric_or_free in Hkey. csimpl. unfold metricAt at 1.
  destruct (Redis.find now d key) as [[[p| |] t]|]; try done.
  destruct p as [| | |m|]; try done. simpl. unfold bind, ret. by rewrite IH.
Qed.

Lemma getSystemMetrics_eq now w z t :
  RedisService.isAvailable w = true →
  Redis.find now (db w) METRICS_SORTED_SET = Some (mkEntry (RZSet z) t) →
  map_Forall (fun key _ => metric_or_free now (db w) key = true) z →
  let recent := recentOf now (db w) z in
  let responseTimes := merge_sort Z.le (responseTime <$> recent) in
  let n := length responseTimes in
  getSystemMetrics now w
  = (mkSystemMetrics
       (mkResponseTimeStats
          (if (0 <? n)%nat
           then Some (divDouble (sum responseTimes) (Z.of_nat n))
           else Some 0%Q)
          (nth (p95IndexOf n) responseTimes 0)
          (nth (p99IndexOf n) responseTimes 0))
       (mkRequestCountStats
          (Z.of_nat (length recent))
          (Z.of_nat (length (List.filter (fun m => isSuccess (statusCode m)) recent)))
          (Z.of_nat (length recent)
           - Z.of_nat (length (List.filter (fun m => isSuccess (statusCode m)) recent)))),
     w).
Proof.
  intros Hav Hz Hclean. simpl.
  assert (Forall (fun key => metric_or_free now (db w) key = true)
            (map fst (Redis.zrange (now - 300000) now z))) as Hkeys.
  { apply Forall_forall. intros key Hin.
    apply list_elem_of_fmap in Hin as ([k score] & -> & Hin).
    unfold Redis.zrange in Hin. rewrite merge_sort_Permutation in Hin.
    apply list_elem_of_In, filter_In in Hin as [Hin _].
    apply list_elem_of_In, elem_of_map_to_list in Hin. by eapply (Hclean k score). }
  unfold getSystemMetrics. apply executeOperation_Ok; [done|].
  unfold bind at 1. unfold call at 1. unfold Redis.zrangebyscore.
  change (now - 5 * 60 * 1000) with (now - 300000). rewrite Hz. rewrite set_db_id.
  set (keys := map fst (Redis.zrange (now - 300000) now z)) in *.
  unfold bind at 1.
  assert ((if (0 <? length keys)%nat then call (Redis.mget now keys) else ret []) w
          = (Ok (map (fun key => match Redis.find now (db w) key with
                                 | Some (mkEntry (RString p) _) => Some p
                                 | _ => None
                                 end) keys), w)) as ->.
  { destruct keys; simpl; [done|]. unfold call, Redis.mget. simpl.
    by rewrite set_db_id. }
  unfold bind at 1. rewrite (collect_mget now (db w) keys w Hkeys).
  unfold ret, recentOf. fold keys.
  set (recent := omap (metricAt now (db w)) keys).
  assert (map (option_map responseTime) (Some <$> recent)
          = Some <$> (responseTime <$> recent)) as ->.
  { by rewrite <- !list_fmap_compose. }
  rewrite sortAscending_defined.
  rewrite !length_fmap, mean_defined, !at_or_0_defined.
  assert (List.filter successfulOf (Some <$> recent)
          = Some <$> List.filter (fun m => isSuccess (statusCode m)) recent) as ->.
  { induction recent as [|m l IH]; [done|]. csimpl.
    destruct (isSuccess (statusCode m)); csimpl; by rewrite IH. }
  by rewrite ?length_fmap.
Qed.

Lemma recent_filter now (d : DB) (l : list (string * Z)) :
  responseTime <$>
    omap (metricAt now d) (map fst (List.filter (Redis.in_range (now - 300000) now) l))
  = omap (fun x : string * Z =>
            if Redis.in_range (now - 300000) now x
            then responseTime <$> metricAt now d x.1
            else None) l.
Proof.
  induction l as [|x l IH]; [done|]. csimpl.
  destruct (Redis.in_range (now - 300000) now x); [|done]. csimpl.
  destruct (metricAt now d x.1); csimpl; by rewrite IH.
Qed.

(** The response times that are read are those that were recorded. *)
Lemma recent_samples now (d : DB) z :
  responseTime <$> recentOf now d z ≡ₚ samplesOf now d z.
Proof.
  unfold recentOf, samplesOf, Redis.zrange.
  rewrite merge_sort_Permutation. by rewrite recent_filter.
Qed.



End RedisPerformanceService_facts.

(** *** Behaviour without the store *)

Section Fail_open.

(** C3: when the store is unavailable, trackRequest returns
    {isBlocked: false, isDdos: false, requestCount: 0}, isBlocked returns
    false and shouldRateLimit returns {shouldLimit: false,
    remainingRequests: 500, resetTime: now + 60000}; none of them throws or
    changes anything. *)
Theorem fail_open_defaults now clientId w :
  RedisService.isAvailable w = false →
  RedisSecurityService.trackRequest now clientId w
  = (RedisSecurityService.mkTrackResult false false 0, w)
  ∧ RedisIpBlockingService.isBlocked now clientId w = (false, w)
  ∧ RedisSecurityService.shouldRateLimit now clientId w
    = (RedisSecurityService.mkRateLimit false (Num 500) (now + 60000), w).
Proof.
  intros H. repeat split; by apply executeOperation_unavailable.
Qed.

(** An operation that rejects is answered by its fallback as well. *)
Lemma executeOperation_total {T} (operation : M T) (fallback : T) w :
  (∃ w', operation w = (Ok (RedisService.executeOperation operation fallback w).1, w'))
  ∨ (RedisService.executeOperation operation fallback w).1 = fallback.
Proof.
  unfold RedisService.executeOperation.
  destruct (negb (RedisService.isAvailable w) || negb (client w)); [by right|].
  destruct (operation w) as [[v|e] w']; [left; by exists w'|by right].
Qed.

End Fail_open.

(** *** The claims on concrete runs *)

Section Runs.
Import RedisSecurityService RedisIpBlockingService RedisPerformanceService.

(** C7 (six incidents): after the sixth call of addToSuspiciousIps for a
    client the stored record has count 6, the six reasons in order and
    lastSeen at the last write, with a 24-hour expiry from that write, but
    its severity is medium although count > 5: the severity is computed
    from the count before the increment. *)
Theorem sixth_incident_severity :
  let calls := [(1000, "r1"); (2000, "r2"); (3000, "r3");
                (4000, "r4"); (5000, "r5"); (6000, "r6")] in
  ∃ d,
    db (addAllToSuspiciousIps "1.2.3.4" calls fresh_world) !! suspiciousKeyOf "1.2.3.4"
    = Some (mkEntry (RString (PSuspicious d)) (Some (6000 + 86400000)))
    ∧ count d = 6
    ∧ reasons d = ["r1"; "r2"; "r3"; "r4"; "r5"; "r6"]
    ∧ lastSeen d = 6000
    ∧ severity d = medium
    ∧ (if 5 <? count d then high else medium) = high.
Proof.
  eexists. split; [vm_compute; reflexivity|]. repeat split.
Qed.

(** C4, as stated, fails: the reason of the automatic block is not the
    latest activity description itself. *)
Lemma autoBlock_reason_is_prefixed :
  let calls := [(0, "a1"); (1, "a2"); (2, "a3"); (3, "a4"); (4, "a5")] in
  blockIpCalls (trackSuspiciousActivities "9.9.9.9" calls fresh_world)
  = [("9.9.9.9", "Multiple suspicious activities: a5", Some 60)]
  ∧ "Multiple suspicious activities: a5" ≠ "a5".
Proof. split; [vm_compute; reflexivity|discriminate]. Qed.

(** C6, as stated, fails: a duration of 0 minutes is present and yet the
    record is not temporary. *)
Lemma blockIp_zero_duration :
  ∃ b,
    blockRecord 1000 (db (blockIp 1000 "1.2.3.4" "scan" (Some 0) fresh_world).2) "1.2.3.4"
    = Some (PBlocked b)
    ∧ ¬ (isTemporary b = true ↔ is_Some (Some 0 : option Z)).
Proof.
  eexists. split; [vm_compute; reflexivity|].
  simpl. intros [_ H]. specialize (H (mk_is_Some _ _ eq_refl)). discriminate H.
Qed.

(** A duration whose expiry instant is not a valid date: the record is
    temporary and has no expiresAt, and isBlocked never lets it expire. *)
Lemma blockIp_unrepresentable_expiry :
  let w1 := (blockIp 1000 "1.2.3.4" "scan" (Some 144000000000) fresh_world).2 in
  blockRecord 1000 (db w1) "1.2.3.4"
  = Some (PBlocked (mkBlockedIP "1.2.3.4" "scan" 1000 None true))
  ∧ RedisIpBlockingService.isBlocked 9000000000000000 "1.2.3.4" w1 = (true, w1).
Proof. split; reflexivity. Qed.

End Runs.

(** *** The theorems at concrete inputs *)

Section Witnesses.
Import RedisSecurityService RedisIpBlockingService RedisPerformanceService.

Lemma trackRequest_thresholds_witness :
  RedisService.isAvailable (counting_world 500) = true
  ∧ let r := (trackRequest 120001 "1.2.3.4" (counting_world 500)).1 in
    RedisSecurityService.isBlocked r = true ∧ isDdos r = false ∧ requestCount r = 501.
Proof.
  split; [reflexivity|].
  destruct (trackRequest_thresholds 120001 "1.2.3.4" (counting_world 500) 500 0)
    as (_ & _ & Hb & Hd & Hr & _); [vm_compute; reflexivity..|].
  split; [exact Hb|]. split; [exact Hd|exact Hr].
Defined.

Lemma trackRequest_window_count_witness :
  let run := trackRequests "1.2.3.4" [120001; 120500; 179999] fresh_world in
  (∀ r, run.1 !! 2%nat = Some r → requestCount r = 3)
  ∧ requestCount (trackRequest 180000 "1.2.3.4" run.2).1 = 1.
Proof.
  destruct (trackRequest_window_count "1.2.3.4" 2 [120001; 120500; 179999] fresh_world)
    as (_ & Hn & Hnext);
    [reflexivity|repeat constructor|reflexivity|].
  split.
  - intros r Hr. exact (Hn 2%nat r Hr).
  - apply Hnext; [discriminate|reflexivity].
Defined.

Lemma fail_open_defaults_witness :
  RedisService.isAvailable offline_world = false
  ∧ trackRequest 5 "1.2.3.4" offline_world = (mkTrackResult false false 0, offline_world)
  ∧ RedisIpBlockingService.isBlocked 5 "1.2.3.4" offline_world = (false, offline_world)
  ∧ shouldRateLimit 5 "1.2.3.4" offline_world
    = (mkRateLimit false (Num 500) 60005, offline_world).
Proof.
  split; [reflexivity|].
  exact (fail_open_defaults 5 "1.2.3.4" offline_world eq_refl).
Defined.

Lemma five_activities_one_block_witness :
  let w' := trackSuspiciousActivities "9.9.9.9"
              [(0, "a1"); (1, "a2"); (2, "a3"); (3, "a4"); (4, "a5")] fresh_world in
  blockIpCalls w' = [("9.9.9.9", "Multiple suspicious activities: a5", Some 60)]
  ∧ db w' !! activityKeyOf "9.9.9.9" = None
  ∧ db w' !! detailsKeyOf "9.9.9.9" = None.
Proof.
  apply (five_activities_one_block "9.9.9.9" 0 "a1" 1 "a2" 2 "a3" 3 "a4" 4 "a5"
           fresh_world); reflexivity.
Defined.

Lemma isBlocked_lazy_expiry_witness :
  let w := (blockIp 0 "1.2.3.4" "scan" (Some 1) fresh_world).2 in
  RedisService.isAvailable w = true
  ∧ (RedisIpBlockingService.isBlocked 60000 "1.2.3.4" w).1 = true
  ∧ (RedisIpBlockingService.isBlocked 60001 "1.2.3.4" w).1 = false
  ∧ blockRecord 60001
      (db (RedisIpBlockingService.isBlocked 60001 "1.2.3.4" w).2) "1.2.3.4" = None.
Proof.
  split; [reflexivity|].
  destruct (isBlocked_lazy_expiry 60000 "1.2.3.4"
              (blockIp 0 "1.2.3.4" "scan" (Some 1) fresh_world).2 eq_refl)
    as (_ & _ & Hlive & _).
  destruct (isBlocked_lazy_expiry 60001 "1.2.3.4"
              (blockIp 0 "1.2.3.4" "scan" (Some 1) fresh_world).2 eq_refl)
    as (_ & Hexpired & _ & _).
  split.
  - rewrite (Hlive (mkBlockedIP "1.2.3.4" "scan" 0 (Some 60000) true));
      [reflexivity|vm_compute; reflexivity|].
    intros (_ & t & [= <-] & Hlt). discriminate Hlt.
  - destruct (Hexpired (mkBlockedIP "1.2.3.4" "scan" 0 (Some 60000) true) 60000)
      as (H1 & H2 & _); [vm_compute; reflexivity|reflexivity..|].
    split; [exact H1|exact H2].
Defined.

Lemma blockRecord_invariant_witness :
  (∃ b, blockRecord 1000 (db (blockIp 1000 "1.2.3.4" "scan" (Some 5) fresh_world).2)
          "1.2.3.4" = Some (PBlocked b)
        ∧ isTemporary b = true ∧ expiresAt b = Some 301000)
  ∧ (∃ b, blockRecord 1000
            (db (importMaliciousIpList 1000 ["6.6.6.6"; "7.7.7.7"] None fresh_world).2)
            "7.7.7.7" = Some (PBlocked b)
          ∧ isTemporary b = false ∧ expiresAt b = None).
Proof.
  destruct (blockRecord_invariant 1000 fresh_world ∅ None eq_refl eq_refl)
    as [Hblock Himport].
  split.
  - destruct (Hblock "1.2.3.4" "scan" (Some 5)) as (b & Hb & Htmp & Hexp & _).
    exists b. split; [exact Hb|]. split; [|exact Hexp].
    apply Htmp. exists 5. split; [reflexivity|discriminate].
  - apply (Himport ["6.6.6.6"; "7.7.7.7"] None "7.7.7.7").
    apply list_elem_of_In. right. left. reflexivity.
Defined.


Lemma suspicion_window_is_capped_witness :
  let w' := (trackSuspiciousActivity 0 "9.9.9.9" "probe" fresh_world).2 in
  db w' !! activityKeyOf "9.9.9.9"
  = Some (mkEntry (RString (PInt 1)) (Some 3600000))
  ∧ db (trackSuspiciousActivities "9.9.9.9" [(1800000, "scan"); (3599999, "scan")] w')
      !! activityKeyOf "9.9.9.9"
    = Some (mkEntry (RString (PInt 3)) (Some 3600000)).
Proof.
  destruct (suspicion_window_is_capped 0 "9.9.9.9" "probe" fresh_world 0 None ∅ None)
    as (Hfirst & _ & Hnext); [reflexivity..|].
  split; [exact (Hfirst eq_refl)|].
  destruct (Hnext eq_refl [(1800000, "scan"); (3599999, "scan")]) as [H _].
  - repeat constructor.
  - repeat constructor.
  - exact H.
Defined.

Lemma shouldRateLimit_quota_witness :
  let t := trackRequest 120001 "1.2.3.4" (counting_world 499) in
  RedisService.isAvailable (counting_world 499) = true
  ∧ shouldLimit (shouldRateLimit 120001 "1.2.3.4" (counting_world 499)).1 = false
  ∧ remainingRequests (shouldRateLimit 120001 "1.2.3.4" (counting_world 499)).1 = Num 1
  ∧ requestCount t.1 = 500
  ∧ RedisSecurityService.isBlocked t.1 = false
  ∧ shouldLimit (shouldRateLimit 120001 "1.2.3.4" t.2).1 = true.
Proof.
  split; [reflexivity|].
  destruct (shouldRateLimit_quota 120001 "1.2.3.4" (counting_world 499) 499)
    as (_ & Hlimit & Hremaining & _ & Hedge); [vm_compute; reflexivity..|].
  split; [exact Hlimit|]. split; [exact Hremaining|].
  apply (Hedge 0); [reflexivity|vm_compute; reflexivity|discriminate].
Defined.


End Witnesses.

(** * Further properties of the services *)

(** *** The registry of blocked addresses *)

Section Registry.
Import RedisIpBlockingService.

Lemma blockRecord_persistent (d : DB) h i t :
  d !! BLOCKED_IPS_KEY = Some (mkEntry (RHash h) None) →
  blockRecord t d i = h !! i.
Proof. intros H. unfold blockRecord, Redis.find. by rewrite H. Qed.

Lemma blockIp_available now i reason dur w :
  RedisService.isAvailable w = true →
  RedisService.isAvailable (blockIp now i reason dur w).2 = true.
Proof.
  intros Hav. destruct (blockIp_frame now i reason dur w) as (Hc & Hcl & _).
  unfold RedisService.isAvailable in *. by rewrite Hc, Hcl.
Qed.

(** unblockIp answers whether the address had a record, removes that record
    and no other; a second call answers false, and isBlocked then answers
    false. *)
Theorem unblockIp_removes now i w :
  RedisService.isAvailable w = true →
  let r := unblockIp now i w in
  r.1 = (if blockRecord now (db w) i is Some _ then true else false)
  ∧ blockRecord now (db r.2) i = None
  ∧ (∀ j, j ≠ i → blockRecord now (db r.2) j = blockRecord now (db w) j)
  ∧ (unblockIp now i r.2).1 = false
  ∧ isBlocked now i r.2 = (false, r.2).
Proof.
  intros Hav. cbv zeta.
  destruct (unblockIp_spec now i w Hav) as (Hav1 & _ & Hgone & Hothers & Hres).
  split; [done|]. split; [done|]. split; [done|]. split.
  - destruct (unblockIp_spec now i _ Hav1) as (_ & _ & _ & _ & Hres2).
    by rewrite Hres2, Hgone.
  - by apply isBlocked_absent.
Qed.

Lemma unblockIp_removes_witness :
  let w := (blockIp 0 "1.2.3.4" "scan" None fresh_world).2 in
  (unblockIp 5 "1.2.3.4" w).1 = true
  ∧ (unblockIp 5 "1.2.3.4" (unblockIp 5 "1.2.3.4" w).2).1 = false.
Proof.
  destruct (unblockIp_removes 5 "1.2.3.4"
              (blockIp 0 "1.2.3.4" "scan" None fresh_world).2 eq_refl)
    as (H1 & _ & _ & H2 & _).
  split; [exact H1|exact H2].
Defined.

(** A block with a non-zero duration holds up to and including the
    instant now + durationMinutes*60000.  When that instant is a valid date
    (at most 8.64e15 ms from the epoch) the block is ended by the first
    isBlocked after it, which removes the record, and with a negative
    duration the address is not reported as blocked at all; when it is not
    a valid date the record has no expiresAt and the block never ends. *)
Theorem temporary_block_lifetime now i reason n w h0 :
  RedisService.isAvailable w = true →
  hashAt now (db w) BLOCKED_IPS_KEY = Some (h0, None) →
  n ≠ 0 →
  let w1 := (blockIp now i reason (Some n) w).2 in
  (∀ t, t ≤ now + n * 60000 → isBlocked t i w1 = (true, w1))
  ∧ (Z.abs (now + n * 60000) ≤ 8640000000000000 →
     (∀ t, now + n * 60000 < t →
           (isBlocked t i w1).1 = false
           ∧ blockRecord t (db (isBlocked t i w1).2) i = None)
     ∧ (n < 0 → (isBlocked now i w1).1 = false))
  ∧ (8640000000000000 < Z.abs (now + n * 60000) →
     ∀ t, isBlocked t i w1 = (true, w1)).
Proof.
  intros Hav Hh Hn. cbv zeta.
  pose proof (blockIp_record now i reason (Some n) w h0 None Hav Hh) as Hrec.
  pose proof (blockIp_available now i reason (Some n) w Hav) as Hav1.
  set (w1 := (blockIp now i reason (Some n) w).2) in *.
  assert (∀ t, blockRecord t (db w1) i
               = Some (PBlocked (mkBlockedIP i reason now (newDate (now + n * 60000)) true)))
    as Hlater.
  { intros t. rewrite (blockRecord_persistent _ _ _ _ Hrec), lookup_insert_eq.
    unfold blockedIPOf, truthy. change (minutes (Some n)) with n.
    by destruct (Z.eqb_spec n 0). }
  destruct (Z.le_gt_cases (Z.abs (now + n * 60000)) 8640000000000000) as [Hin|Hout].
  - rewrite (newDate_valid _ Hin) in Hlater.
    assert (∀ t, now + n * 60000 < t →
                 (isBlocked t i w1).1 = false
                 ∧ blockRecord t (db (isBlocked t i w1).2) i = None) as Hafter.
    { intros t Ht.
      rewrite (isBlocked_expired t i w1 _ (now + n * 60000) Hav1 (Hlater t)) by done.
      destruct (unblockIp_spec t i w1 Hav1) as (_ & _ & Hgone & _). done. }
    split; [|split; [|lia]].
    + intros t Ht. apply (isBlocked_live t i w1 _ Hav1 (Hlater t)).
      cbn [isTemporary expiresAt andb]. apply Z.ltb_ge. lia.
    + intros _. split; [done|]. intros Hneg. apply Hafter. lia.
  - rewrite (newDate_invalid _ Hout) in Hlater.
    assert (∀ t, isBlocked t i w1 = (true, w1)) as Hever.
    { intros t. by apply (isBlocked_live t i w1 _ Hav1 (Hlater t)). }
    split; [by intros t _|]. split; [lia|done].
Qed.

Lemma temporary_block_lifetime_witness :
  let w1 := (blockIp 0 "1.2.3.4" "scan" (Some 2) fresh_world).2 in
  RedisIpBlockingService.isBlocked 120000 "1.2.3.4" w1 = (true, w1)
  ∧ (RedisIpBlockingService.isBlocked 120001 "1.2.3.4" w1).1 = false.
Proof.
  destruct (temporary_block_lifetime 0 "1.2.3.4" "scan" 2 fresh_world ∅)
    as (Hlive & Hafter & _); [reflexivity|reflexivity|discriminate|].
  split.
  - apply Hlive. discriminate.
  - refine (proj1 (proj1 (Hafter _) 120001 _)); [discriminate|reflexivity].
Defined.

(** The store that [blockIp] leaves. *)
Lemma blockIp_db now i reason dur w h0 t0 :
  RedisService.isAvailable w = true →
  hashAt now (db w) BLOCKED_IPS_KEY = Some (h0, t0) →
  let d1 := <[BLOCKED_IPS_KEY :=
                mkEntry (RHash (<[i := PBlocked (blockedIPOf now i reason dur)]> h0)) t0]>
              (db w) in
  db (blockIp now i reason dur w).2
  = if truthy dur
    then (Redis.expire now (BLOCKED_IPS_KEY +:+ ":" +:+ i) (minutes dur * 60) d1).2
    else d1.
Proof.
  intros Hav Hh d1. unfold blockIp.
  destruct (hset_one now BLOCKED_IPS_KEY i
              (PBlocked (blockedIPOf now i reason dur)) (db w) h0 t0 Hh) as [n Hset].
  fold d1 in Hset. unfold blockedIPOf in Hset.
  unfold RedisService.executeOperation.
  change (RedisService.isAvailable (record_blockIp (i, reason, dur) w))
    with (RedisService.isAvailable w).
  rewrite Hav. pose proof Hav as [_ Hcl]%andb_true_iff.
  change (client (record_blockIp (i, reason, dur) w)) with (client w). rewrite Hcl.
  cbn [negb orb]. unfold bind at 1. unfold call at 1.
  change (db (record_blockIp (i, reason, dur) w)) with (db w). rewrite Hset.
  destruct (truthy dur) eqn:Hd.
  - unfold bind, call, ret. cbn [db set_db].
    destruct (expire_Ok now (BLOCKED_IPS_KEY +:+ ":" +:+ i) (minutes dur * 60) d1)
      as [k Hk].
    destruct (Redis.expire now _ _ d1) as [r d2]. simpl in Hk. subst r. done.
  - done.
Qed.

Lemma expire_idempotent now key s (d : DB) :
  (Redis.expire now key s (Redis.expire now key s d).2).2 = (Redis.expire now key s d).2.
Proof.
  unfold Redis.expire at 2 3.
  destruct (Redis.find now d key) as [e|] eqn:Hf.
  - destruct (Z.leb_spec s 0) as [Hs|Hs]; cbn [snd].
    + unfold Redis.expire, Redis.find. by rewrite lookup_delete_eq.
    + unfold Redis.expire. rewrite find_insert_eq.
      * destruct (Z.leb_spec s 0); [lia|]. cbn [snd value]. by rewrite insert_insert_eq.
      * unfold Redis.expired. cbn [ttl]. apply Z.ltb_ge. lia.
  - cbn [snd]. unfold Redis.expire. by rewrite Hf.
Qed.

(** blockIp replaces the record of its address and leaves the records of
    the other addresses as they are; repeating the call at once changes
    nothing more in the store. *)
Theorem blockIp_overwrites now i reason dur w h0 t0 :
  RedisService.isAvailable w = true →
  hashAt now (db w) BLOCKED_IPS_KEY = Some (h0, t0) →
  let w1 := (blockIp now i reason dur w).2 in
  blockRecord now (db w1) i = Some (PBlocked (blockedIPOf now i reason dur))
  ∧ (∀ j, j ≠ i → blockRecord now (db w1) j = blockRecord now (db w) j)
  ∧ db (blockIp now i reason dur w1).2 = db w1.
Proof.
  intros Hav Hh. cbv zeta.
  pose proof (blockIp_record now i reason dur w h0 t0 Hav Hh) as Hrec.
  pose proof (blockIp_available now i reason dur w Hav) as Hav1.
  pose proof (hashAt_live now _ _ _ _ (RHash (<[i := PBlocked (blockedIPOf now i reason dur)]> h0))
                Hh) as Hlive.
  set (w1 := (blockIp now i reason dur w).2) in *.
  assert (hashAt now (db w1) BLOCKED_IPS_KEY
          = Some (<[i := PBlocked (blockedIPOf now i reason dur)]> h0, t0)) as Hh1.
  { unfold hashAt, Redis.find. by rewrite Hrec, Hlive. }
  split; [|split].
  - by rewrite (blockRecord_hashAt now _ _ _ _ Hh1), lookup_insert_eq.
  - intros j Hj. rewrite (blockRecord_hashAt now _ _ _ _ Hh1).
    rewrite (blockRecord_hashAt now _ _ _ _ Hh). by rewrite lookup_insert_ne.
  - rewrite (blockIp_db now i reason dur w1 _ t0 Hav1 Hh1).
    rewrite insert_insert_eq. rewrite (insert_id (db w1)) by done.
    destruct (truthy dur) eqn:Hd; [|done].
    unfold w1 at 2. rewrite (blockIp_db now i reason dur w h0 t0 Hav Hh). rewrite Hd.
    unfold w1. rewrite (blockIp_db now i reason dur w h0 t0 Hav Hh). rewrite Hd.
    apply expire_idempotent.
Qed.

Lemma blockIp_overwrites_witness :
  let w := (blockIp 0 "5.6.7.8" "old" None fresh_world).2 in
  let w1 := (blockIp 10 "1.2.3.4" "scan" (Some 2) w).2 in
  blockRecord 10 (db w1) "5.6.7.8" = blockRecord 10 (db w) "5.6.7.8"
  ∧ db (blockIp 10 "1.2.3.4" "scan" (Some 2) w1).2 = db w1.
Proof.
  destruct (blockIp_overwrites 10 "1.2.3.4" "scan" (Some 2)
              (blockIp 0 "5.6.7.8" "old" None fresh_world).2
              {[ "5.6.7.8" := PBlocked (mkBlockedIP "5.6.7.8" "old" 0 None false) ]} None)
    as (_ & Hothers & Hagain); [reflexivity|vm_compute; reflexivity|].
  split; [apply Hothers; discriminate|exact Hagain].
Defined.


Lemma mapM_parseJSON_Ok l w :
  Forall (fun p => ∀ s, p ≠ PText s) l → mapM parseJSON l w = (Ok l, w).
Proof.
  induction 1 as [|p rest Hp _ IH]; [done|].
  cbn [mapM]. unfold bind at 1.
  assert (parseJSON p w = (Ok p, w)) as ->.
  { destruct p; try done. by destruct (Hp s). }
  unfold bind. by rewrite IH.
Qed.

(** What [getBlockedIps] lists when every field parses. *)
Lemma getBlockedIps_eq now w h t :
  RedisService.isAvailable w = true →
  Redis.find now (db w) BLOCKED_IPS_KEY = Some (mkEntry (RHash h) t) →
  map_Forall (fun (_ : string) p => ∀ s, p ≠ PText s) h →
  getBlockedIps now w = (map snd (map_to_list h), w).
Proof.
  intros Hav Hf Hh. unfold getBlockedIps. apply executeOperation_Ok; [done|].
  unfold bind, call, Redis.hgetall. rewrite Hf, set_db_id.
  apply mapM_parseJSON_Ok. apply Forall_forall. intros p Hp.
  apply list_elem_of_fmap in Hp as ([j q] & -> & Hin).
  apply elem_of_map_to_list in Hin. by apply (Hh j).
Qed.

(** blockIp gives the hash of blocked addresses no expiry (the EXPIRE it
    sends names another key): the record of a temporary block, whose
    expiresAt is the date now + durationMinutes*60000, stays in the store,
    and in the list of getBlockedIps, after its expiry, as long as isBlocked
    is not called for it. *)
Theorem expired_block_stays_listed now i reason n w h0 :
  RedisService.isAvailable w = true →
  hashAt now (db w) BLOCKED_IPS_KEY = Some (h0, None) →
  map_Forall (fun (_ : string) p => ∀ s, p ≠ PText s) h0 →
  n ≠ 0 →
  let w1 := (blockIp now i reason (Some n) w).2 in
  ∀ t, PBlocked (mkBlockedIP i reason now (newDate (now + n * 60000)) true)
       ∈ (getBlockedIps t w1).1.
Proof.
  intros Hav Hh Hparse Hn w1 t.
  pose proof (blockIp_record now i reason (Some n) w h0 None Hav Hh) as Hrec.
  pose proof (blockIp_available now i reason (Some n) w Hav) as Hav1.
  fold w1 in Hrec, Hav1.
  assert (blockedIPOf now i reason (Some n)
          = mkBlockedIP i reason now (newDate (now + n * 60000)) true) as Hb.
  { unfold blockedIPOf, truthy. change (minutes (Some n)) with n.
    by destruct (Z.eqb_spec n 0). }
  rewrite Hb in Hrec.
  rewrite (getBlockedIps_eq t w1
             (<[i := PBlocked (mkBlockedIP i reason now (newDate (now + n * 60000)) true)]> h0)
             None Hav1).
  - cbn [fst]. apply list_elem_of_fmap. exists (i, PBlocked (mkBlockedIP i reason now (newDate (now + n * 60000)) true)).
    split; [done|]. apply elem_of_map_to_list. by rewrite lookup_insert_eq.
  - unfold Redis.find. by rewrite Hrec.
  - apply map_Forall_insert_2; [done|]. exact Hparse.
Qed.

Lemma expired_block_stays_listed_witness :
  PBlocked (mkBlockedIP "1.2.3.4" "scan" 0 (Some 60000) true)
  ∈ (getBlockedIps 999999999 (blockIp 0 "1.2.3.4" "scan" (Some 1) fresh_world).2).1.
Proof.
  apply (expired_block_stays_listed 0 "1.2.3.4" "scan" 1 fresh_world ∅);
    [reflexivity|reflexivity|apply map_Forall_empty|discriminate].
Defined.

(** After importMaliciousIpList every imported address is reported as
    blocked at any later instant, whatever record it had before; the records
    of the other addresses are as before. *)
Theorem import_blocks_for_good now ips reason w h0 :
  RedisService.isAvailable w = true →
  hashAt now (db w) BLOCKED_IPS_KEY = Some (h0, None) →
  let w1 := (importMaliciousIpList now ips reason w).2 in
  (∀ i t, i ∈ ips → isBlocked t i w1 = (true, w1))
  ∧ (∀ i, i ∉ ips → blockRecord now (db w1) i = blockRecord now (db w) i).
Proof.
  intros Hav Hh. cbv zeta.
  destruct (import_pipeline now (default "Known malicious IP" reason) ips
              (db w) h0 None Hh) as (h' & Hh' & Hin & Hout).
  rewrite <- (importMaliciousIpList_db now ips reason w Hav) in Hh'.
  assert (RedisService.isAvailable (importMaliciousIpList now ips reason w).2 = true)
    as Hav1.
  { unfold importMaliciousIpList, RedisService.executeOperation.
    rewrite Hav. pose proof Hav as [_ ->]%andb_true_iff. cbn [negb orb].
    unfold bind, exec_pipeline, ret.
    by destruct (Redis.exec now _ (db w)). }
  set (w1 := (importMaliciousIpList now ips reason w).2) in *.
  split.
  - intros i t Hi. specialize (Hin i Hi).
    apply (isBlocked_live t i w1
             (mkBlockedIP i (default "Known malicious IP" reason) now None false) Hav1);
      [|done].
    unfold hashAt in Hh'. unfold blockRecord, Redis.find.
    destruct (Redis.find now (db w1) BLOCKED_IPS_KEY) as [[[| |] ?]|] eqn:Hf;
      simplify_eq.
    apply find_Some in Hf as [-> _]. done.
  - intros i Hi. rewrite (blockRecord_hashAt now _ _ _ _ Hh').
    rewrite (blockRecord_hashAt now _ _ _ _ Hh). by apply Hout.
Qed.

Lemma import_blocks_for_good_witness :
  let w := (blockIp 0 "6.6.6.6" "scan" (Some 1) fresh_world).2 in
  let w1 := (importMaliciousIpList 10 ["6.6.6.6"; "7.7.7.7"] None w).2 in
  RedisIpBlockingService.isBlocked 999999999 "6.6.6.6" w1 = (true, w1).
Proof.
  destruct (import_blocks_for_good 10 ["6.6.6.6"; "7.7.7.7"] None
              (blockIp 0 "6.6.6.6" "scan" (Some 1) fresh_world).2
              {[ "6.6.6.6" := PBlocked (mkBlockedIP "6.6.6.6" "scan" 0 (Some 60000) true) ]})
    as [Hall _]; [reflexivity|vm_compute; reflexivity|].
  apply Hall. apply list_elem_of_In. left. reflexivity.
Defined.


(** [trackSuspiciousActivity] and the hash of blocked addresses. *)
Lemma trackSuspiciousActivity_registry now i a w c e hd td h0 t0 :
  RedisService.isAvailable w = true →
  counterEntry now (db w) (activityKeyOf i) = Some (c, e) →
  hashAt now (db w) (detailsKeyOf i) = Some (hd, td) →
  hashAt now (db w) BLOCKED_IPS_KEY = Some (h0, t0) →
  db (trackSuspiciousActivity now i a w).2 !! BLOCKED_IPS_KEY
  = if 5 <=? c + 1
    then Some (mkEntry
                 (RHash (<[i := PBlocked (blockedIPOf now i (autoBlockReason a) (Some 60))]> h0))
                 t0)
    else db w !! BLOCKED_IPS_KEY.
Proof.
  intros Hav Hc Hd Hh.
  destruct (trackSuspiciousActivity_eq now i a w c e hd td Hav Hc Hd) as [hd' Heq].
  cbv zeta in Heq. rewrite Heq. cbn [snd].
  pose proof (blockedKey_activityKey i) as Hne1.
  pose proof (blockedKey_detailsKey i) as Hne2.
  destruct (5 <=? c + 1).
  - cbn [db set_db]. rewrite !lookup_delete_ne by done.
    apply blockIp_record; [done|]. cbn [db set_db].
    by rewrite !hashAt_insert_ne.
  - cbn [db set_db]. by rewrite !lookup_insert_ne.
Qed.

Lemma hashAt_lookup now (d d' : DB) key :
  d' !! key = d !! key → hashAt now d' key = hashAt now d key.
Proof. intros H. unfold hashAt, Redis.find. by rewrite H. Qed.

Lemma trackSuspiciousActivities_within_registry i deadline calls : ∀ w k,
  RedisService.isAvailable w = true →
  1 ≤ k → k + Z.of_nat (length calls) < 5 →
  db w !! activityKeyOf i = Some (mkEntry (RString (PInt k)) (Some deadline)) →
  (∃ hd td, db w !! detailsKeyOf i = Some (mkEntry (RHash hd) td)) →
  (∃ h0 t0, ∀ t, hashAt t (db w) BLOCKED_IPS_KEY = Some (h0, t0)) →
  Forall (fun call : Z * string => call.1 < deadline) calls →
  db (trackSuspiciousActivities i calls w) !! BLOCKED_IPS_KEY = db w !! BLOCKED_IPS_KEY.
Proof.
  induction calls as [|[t a] rest IH]; intros w k Hav Hk Hlen Hcount Hdet Hreg Hin;
    [done|].
  apply Forall_cons in Hin as [Ht Hrest]. cbn [fst] in Ht.
  destruct Hdet as (hd & td & Hdet). destruct Hreg as (h0 & t0 & Hreg).
  destruct (hashAt_of_hash t _ _ _ _ Hdet) as (hd1 & td1 & Hh).
  assert (counterEntry t (db w) (activityKeyOf i) = Some (k, Some deadline)) as Hc.
  { unfold counterEntry, Redis.find. rewrite Hcount. unfold Redis.expired. cbn [ttl].
    destruct (deadline <? t) eqn:Hlt; [lia|done]. }
  destruct (trackSuspiciousActivity_step t i a w k _ hd1 td1 Hav Hc Hh) as [Hav1 Hstep].
  pose proof (trackSuspiciousActivity_registry t i a w k _ hd1 td1 h0 t0 Hav Hc Hh (Hreg t))
    as Hkey.
  cbn [length] in Hlen.
  destruct (Z.leb_spec 5 (k + 1)); [lia|].
  destruct (Z.eqb_spec (k + 1) 1); [lia|].
  destruct Hstep as (Hcalls & Hcount1 & hd' & Hdet1).
  cbn [trackSuspiciousActivities]. rewrite <- Hkey.
  apply (IH _ (k + 1)); eauto; try lia.
  exists h0, t0. intros t'. rewrite <- (Hreg t'). by apply hashAt_lookup.
Qed.


(** The fifth suspicious activity of a client within the hour blocks its
    address for the 60 minutes that follow: isBlocked answers true up to
    that instant and false after it (the instant being a valid date, at
    most 8.64e15 ms from the epoch; the block would never end otherwise). *)
Theorem automatic_block_lasts_an_hour i t1 a1 t2 a2 t3 a3 t4 a4 t5 a5 w h0 :
  RedisService.isAvailable w = true →
  db w !! activityKeyOf i = None →
  db w !! detailsKeyOf i = None →
  (∀ t, hashAt t (db w) BLOCKED_IPS_KEY = Some (h0, None)) →
  t2 < t1 + 3600000 → t3 < t1 + 3600000 →
  t4 < t1 + 3600000 → t5 < t1 + 3600000 →
  let w' := trackSuspiciousActivities i
              [(t1, a1); (t2, a2); (t3, a3); (t4, a4); (t5, a5)] w in
  (∀ t, t ≤ t5 + 3600000 → isBlocked t i w' = (true, w'))
  ∧ (Z.abs (t5 + 3600000) ≤ 8640000000000000 →
     ∀ t, t5 + 3600000 < t → (isBlocked t i w').1 = false)
  ∧ (8640000000000000 < Z.abs (t5 + 3600000) →
     ∀ t, isBlocked t i w' = (true, w')).
Proof.
  intros Hav Hfree Hdfree Hreg H2 H3 H4 H5.
  change [(t1, a1); (t2, a2); (t3, a3); (t4, a4); (t5, a5)]
    with ([(t1, a1)] ++ [(t2, a2); (t3, a3); (t4, a4)] ++ [(t5, a5)])%list.
  rewrite 2!trackSuspiciousActivities_app.
  pose proof (counterEntry_free t1 (db w) _ Hfree) as Hc1.
  pose proof (hashAt_free t1 (db w) _ Hdfree) as Hd1.
  destruct (trackSuspiciousActivity_step t1 i a1 w 0 None ∅ None Hav Hc1 Hd1)
    as [Hav1 Hstep1].
  pose proof (trackSuspiciousActivity_registry t1 i a1 w 0 None ∅ None h0 None
                Hav Hc1 Hd1 (Hreg t1)) as Hkey1.
  change (5 <=? 0 + 1) with false in Hstep1, Hkey1.
  change (0 + 1 =? 1) with true in Hstep1.
  change (0 + 1) with 1 in Hstep1. cbv iota in Hstep1, Hkey1.
  destruct Hstep1 as (Hcalls1 & Hcount1 & hd1 & Hdet1).
  change (trackSuspiciousActivities i [(t1, a1)] w)
    with (trackSuspiciousActivity t1 i a1 w).2.
  set (w1 := (trackSuspiciousActivity t1 i a1 w).2) in *.
  assert (∀ t, hashAt t (db w1) BLOCKED_IPS_KEY = Some (h0, None)) as Hreg1.
  { intros t. rewrite <- (Hreg t). by apply hashAt_lookup. }
  assert (Forall (fun call : Z * string => call.1 < t1 + 3600000)
            [(t2, a2); (t3, a3); (t4, a4)]) as Hin.
  { repeat constructor; cbn [fst]; lia. }
  destruct (trackSuspiciousActivities_within i (t1 + 3600000)
              [(t2, a2); (t3, a3); (t4, a4)] w1 1 Hav1)
    as (Hav4 & Hcalls4 & Hcount4 & hd4 & td4 & Hdet4);
    [lia|cbn [length]; lia|done|eauto|exact Hin|].
  pose proof (trackSuspiciousActivities_within_registry i (t1 + 3600000)
                [(t2, a2); (t3, a3); (t4, a4)] w1 1 Hav1) as Hkey4.
  set (w4 := trackSuspiciousActivities i [(t2, a2); (t3, a3); (t4, a4)] w1) in *.
  change (1 + Z.of_nat (length [(t2, a2); (t3, a3); (t4, a4)])) with 4 in Hcount4.
  assert (db w4 !! BLOCKED_IPS_KEY = db w1 !! BLOCKED_IPS_KEY) as Hkey4'.
  { apply Hkey4; eauto; try lia. cbn [length]. lia. }
  clear Hkey4.
  destruct (hashAt_of_hash t5 _ _ _ _ Hdet4) as (hd & td & Hh).
  assert (counterEntry t5 (db w4) (activityKeyOf i) = Some (4, Some (t1 + 3600000)))
    as Hc5.
  { unfold counterEntry, Redis.find. rewrite Hcount4. unfold Redis.expired.
    cbn [ttl value].
    destruct (t1 + 3600000 <? t5) eqn:Hlt; [lia|done]. }
  destruct (trackSuspiciousActivity_step t5 i a5 w4 4 _ hd td Hav4 Hc5 Hh)
    as [Hav5 _].
  assert (hashAt t5 (db w4) BLOCKED_IPS_KEY = Some (h0, None)) as Hreg4.
  { rewrite <- (Hreg1 t5). by apply hashAt_lookup. }
  pose proof (trackSuspiciousActivity_registry t5 i a5 w4 4 _ hd td h0 None
                Hav4 Hc5 Hh Hreg4) as Hkey5.
  change (5 <=? 4 + 1) with true in Hkey5. cbv iota in Hkey5.
  change (trackSuspiciousActivities i [(t5, a5)] w4)
    with (trackSuspiciousActivity t5 i a5 w4).2.
  set (w5 := (trackSuspiciousActivity t5 i a5 w4).2) in *.
  assert (∀ t, blockRecord t (db w5) i
               = Some (PBlocked (mkBlockedIP i (autoBlockReason a5) t5
                                   (newDate (t5 + 3600000)) true))) as Hrec.
  { intros t. by rewrite (blockRecord_persistent _ _ _ _ Hkey5), lookup_insert_eq. }
  destruct (Z.le_gt_cases (Z.abs (t5 + 3600000)) 8640000000000000) as [Hvalid|Hout].
  - rewrite (newDate_valid _ Hvalid) in Hrec. split; [|split; [|lia]].
    + intros t Ht. apply (isBlocked_live t i w5 _ Hav5 (Hrec t)).
      cbn [isTemporary expiresAt andb]. apply Z.ltb_ge. lia.
    + intros _ t Ht.
      by rewrite (isBlocked_expired t i w5 _ (t5 + 3600000) Hav5 (Hrec t)).
  - rewrite (newDate_invalid _ Hout) in Hrec.
    assert (∀ t, isBlocked t i w5 = (true, w5)) as Hever.
    { intros t. by apply (isBlocked_live t i w5 _ Hav5 (Hrec t)). }
    split; [by intros t _|]. split; [lia|done].
Qed.

Lemma automatic_block_lasts_an_hour_witness :
  let w' := trackSuspiciousActivities "9.9.9.9"
              [(0, "a1"); (1, "a2"); (2, "a3"); (3, "a4"); (4, "a5")] fresh_world in
  RedisIpBlockingService.isBlocked 3600004 "9.9.9.9" w' = (true, w')
  ∧ (RedisIpBlockingService.isBlocked 3600005 "9.9.9.9" w').1 = false.
Proof.
  destruct (automatic_block_lasts_an_hour "9.9.9.9" 0 "a1" 1 "a2" 2 "a3" 3 "a4" 4 "a5"
              fresh_world ∅) as (Hlive & Hafter & _); try reflexivity.
  split; [apply Hlive; discriminate|].
  refine (Hafter _ 3600005 _); [discriminate|reflexivity].
Defined.


Lemma append_assoc (a b c : string) : (a +:+ b) +:+ c = a +:+ (b +:+ c).
Proof.
  induction a as [|x a IH]; [done|].
  change ((String x a +:+ b) +:+ c) with (String x ((a +:+ b) +:+ c)).
  by rewrite IH.
Qed.

Lemma find_lookup now (d d' : DB) key :
  d' !! key = d !! key → Redis.find now d' key = Redis.find now d key.
Proof. intros H. unfold Redis.find. by rewrite H. Qed.

(** A call of [trackSuspiciousActivity] while the details key holds a
    string: HSET is refused and the call ends there. *)
Lemma trackSuspiciousActivity_refused_eq now i a w p t :
  RedisService.isAvailable w = true →
  Redis.find now (db w) (detailsKeyOf i) = Some (mkEntry (RString p) t) →
  ∃ d2, trackSuspiciousActivity now i a w = (tt, set_db d2 w)
        ∧ ∀ key, activityKeyOf i ≠ key → d2 !! key = db w !! key.
Proof.
  intros Hav Hf.
  pose proof (activityKey_detailsKey i) as Hne.
  pose proof (incr_frame now (activityKeyOf i) (db w)) as Hfr.
  pose proof (incr_Throw now (activityKeyOf i) (db w)) as Hthrow.
  destruct (Redis.incr now (activityKeyOf i) (db w)) as [[n|e] d1] eqn:Hincr;
    cbn [fst snd] in *.
  - assert (∃ d2, (if n =? 1
                   then LET _ <- call (Redis.expire now (activityKeyOf i) 3600) IN ret ()
                   else ret ()) (set_db d1 w) = (Ok (), set_db d2 w)
                  ∧ ∀ key, activityKeyOf i ≠ key → d2 !! key = db w !! key)
      as (d2 & Hif & Hfr2).
    { destruct (n =? 1).
      - unfold bind, call, ret. cbn [db set_db].
        pose proof (expire_frame now (activityKeyOf i) 3600 d1) as He.
        destruct (expire_Ok now (activityKeyOf i) 3600 d1) as [k Hk].
        destruct (Redis.expire now (activityKeyOf i) 3600 d1) as [r d2].
        cbn [fst snd] in *. subst r. exists d2. split; [done|].
        intros key Hkey. rewrite He by done. by apply Hfr.
      - exists d1. split; [done|]. exact Hfr. }
    exists d2. split; [|done].
    unfold trackSuspiciousActivity.
    rewrite (executeOperation_Throw _ _ w ReplyError (set_db d2 w)); [done|done| |done].
    unfold bind at 1. unfold call at 1. rewrite Hincr.
    unfold bind at 1. rewrite Hif.
    unfold bind at 1. unfold call at 1. cbn [db set_db].
    unfold Redis.hset. rewrite (find_lookup now (db w) d2) by (by apply Hfr2).
    by rewrite Hf.
  - exists d1. split; [|done].
    unfold trackSuspiciousActivity.
    rewrite (executeOperation_Throw _ _ w ReplyError (set_db d1 w)); [done|done| |done].
    unfold bind at 1. unfold call at 1. rewrite Hincr.
    by rewrite (Hthrow e eq_refl).
Qed.

Lemma trackSuspiciousActivity_refused now i a w p t :
  RedisService.isAvailable w = true →
  Redis.find now (db w) (detailsKeyOf i) = Some (mkEntry (RString p) t) →
  let w' := (trackSuspiciousActivity now i a w).2 in
  RedisService.isAvailable w' = true
  ∧ blockIpCalls w' = blockIpCalls w
  ∧ db w' !! detailsKeyOf i = db w !! detailsKeyOf i
  ∧ db w' !! BLOCKED_IPS_KEY = db w !! BLOCKED_IPS_KEY.
Proof.
  intros Hav Hf. cbv zeta.
  destruct (trackSuspiciousActivity_refused_eq now i a w p t Hav Hf) as (d2 & -> & Hfr).
  cbn [snd]. split; [done|]. split; [done|]. split.
  - apply Hfr, activityKey_detailsKey.
  - apply Hfr, not_eq_sym, blockedKey_activityKey.
Qed.

(** The attempt counter of the client named ip:details is stored under the
    key of the details hash of the client ip.  While that key holds a string,
    no number of suspicious activities of ip leads to a call of blockIp, and
    the registry of blocked addresses stays as it is. *)
Theorem details_key_collision i :
  activityKeyOf (i +:+ ":details") = detailsKeyOf i
  ∧ ∀ calls w p t,
      RedisService.isAvailable w = true →
      db w !! detailsKeyOf i = Some (mkEntry (RString p) t) →
      Forall (fun call : Z * string =>
                Redis.expired call.1 (mkEntry (RString p) t) = false) calls →
      let w' := trackSuspiciousActivities i calls w in
      blockIpCalls w' = blockIpCalls w
      ∧ db w' !! BLOCKED_IPS_KEY = db w !! BLOCKED_IPS_KEY.
Proof.
  split.
  { unfold detailsKeyOf, activityKeyOf. by rewrite !append_assoc. }
  induction calls as [|[now a] rest IH]; intros w p t Hav Hd Hlive; [done|].
  apply Forall_cons in Hlive as [Hnow Hrest]. cbn [fst] in Hnow.
  destruct (trackSuspiciousActivity_refused now i a w p t Hav)
    as (Hav1 & Hcalls1 & Hd1 & Hreg1).
  { unfold Redis.find. by rewrite Hd, Hnow. }
  cbn [trackSuspiciousActivities]. cbv zeta.
  destruct (IH _ p t Hav1) as [Hcalls Hreg]; [by rewrite Hd1|done|].
  cbv zeta in Hcalls, Hreg. split; congruence.
Qed.

Lemma details_key_collision_witness :
  let w := (trackSuspiciousActivity 0 "9.9.9.9:details" "probe" fresh_world).2 in
  let calls := [(1, "a1"); (2, "a2"); (3, "a3"); (4, "a4"); (5, "a5"); (6, "a6")] in
  blockIpCalls (trackSuspiciousActivities "9.9.9.9" calls w) = [].
Proof.
  destruct (details_key_collision "9.9.9.9") as [_ H].
  destruct (H [(1, "a1"); (2, "a2"); (3, "a3"); (4, "a4"); (5, "a5"); (6, "a6")]
              (trackSuspiciousActivity 0 "9.9.9.9:details" "probe" fresh_world).2
              (PInt 1) (Some 3600000)) as [Hcalls _].
  - reflexivity.
  - vm_compute. reflexivity.
  - repeat constructor.
  - exact Hcalls.
Defined.


End Registry.

(** *** The request tracker and the ledger of suspicious addresses *)

Section Tracker.
Import RedisSecurityService.

(** What [addToSuspiciousIps] writes, from the state of the ledger. *)
Lemma addToSuspiciousIps_write now c r w o :
  RedisService.isAvailable w = true →
  ledgerAt now (db w) (suspiciousKeyOf c) = Some o →
  let w' := (addToSuspiciousIps now c r w).2 in
  RedisService.isAvailable w' = true
  ∧ ∃ d, db w' !! suspiciousKeyOf c
         = Some (mkEntry (RString (PSuspicious d)) (Some (now + 86400000)))
         ∧ last (reasons d) = Some r
         ∧ lastSeen d = now
         ∧ count d = match o with Some d0 => count d0 + 1 | None => 1 end
         ∧ firstSeen d = match o with Some d0 => firstSeen d0 | None => now end
         ∧ sip d = match o with Some d0 => sip d0 | None => c end.
Proof.
  intros Hav Ho. cbv zeta. unfold ledgerAt in Ho. unfold addToSuspiciousIps.
  destruct (Redis.find now (db w) (suspiciousKeyOf c)) as [[[[]| |] t]|] eqn:Hf;
    simplify_eq.
  - erewrite executeOperation_Ok; [| done |].
    2:{ unfold bind, call, ret, Redis.get. rewrite Hf. cbn. done. }
    cbn [snd db set_db]. split; [done|]. eexists. rewrite lookup_insert_eq.
    split; [done|]. cbn. split; [by rewrite last_snoc|done].
  - erewrite executeOperation_Ok; [| done |].
    2:{ unfold bind, call, ret, Redis.get. rewrite Hf. cbn. done. }
    cbn [snd db set_db]. split; [done|]. eexists. rewrite lookup_insert_eq.
    split; [done|]. done.
Qed.

Lemma getSuspiciousIpInfo_present t c w d e :
  RedisService.isAvailable w = true →
  Redis.find t (db w) (suspiciousKeyOf c) = Some (mkEntry (RString (PSuspicious d)) e) →
  getSuspiciousIpInfo t c w = (Ok (Some (PSuspicious d)), w).
Proof.
  intros Hav Hf. unfold getSuspiciousIpInfo, RedisService.get.
  erewrite executeOperation_Ok; [| done |].
  2:{ unfold call, Redis.get. rewrite Hf, set_db_id. done. }
  done.
Qed.

Lemma getSuspiciousIpInfo_absent t c w :
  RedisService.isAvailable w = true →
  Redis.find t (db w) (suspiciousKeyOf c) = None →
  getSuspiciousIpInfo t c w = (Ok None, w).
Proof.
  intros Hav Hf. unfold getSuspiciousIpInfo, RedisService.get.
  erewrite executeOperation_Ok; [| done |].
  2:{ unfold call, Redis.get. rewrite Hf, set_db_id. done. }
  done.
Qed.

Lemma clearSuspiciousIp_eq t c w :
  RedisService.isAvailable w = true →
  clearSuspiciousIp t c w
  = (if Redis.find t (db w) (suspiciousKeyOf c) is Some _ then true else false,
     set_db (delete (suspiciousKeyOf c) (db w)) w).
Proof.
  intros Hav. unfold clearSuspiciousIp, RedisService.del.
  erewrite executeOperation_Ok; [| done |].
  2:{ unfold call, Redis.del. cbn [Redis.del_keys]. done. }
  by destruct (Redis.find t (db w) (suspiciousKeyOf c)).
Qed.

(** The record written by addToSuspiciousIps is what getSuspiciousIpInfo
    returns during the 24 hours that follow the write, and nothing after
    them; clearSuspiciousIp answers true when it removes a record and false
    when there is none, and getSuspiciousIpInfo returns null after it. *)
Theorem ledger_roundtrip now c r w o :
  RedisService.isAvailable w = true →
  ledgerAt now (db w) (suspiciousKeyOf c) = Some o →
  let w1 := (addToSuspiciousIps now c r w).2 in
  ∃ d,
    last (reasons d) = Some r
    ∧ count d = match o with Some d0 => count d0 + 1 | None => 1 end
    ∧ (∀ t, t ≤ now + 86400000 →
            getSuspiciousIpInfo t c w1 = (Ok (Some (PSuspicious d)), w1))
    ∧ (∀ t, now + 86400000 < t → getSuspiciousIpInfo t c w1 = (Ok None, w1))
    ∧ (∀ t, t ≤ now + 86400000 → (clearSuspiciousIp t c w1).1 = true)
    ∧ (∀ t t', (getSuspiciousIpInfo t' c (clearSuspiciousIp t c w1).2).1 = Ok None)
    ∧ (∀ t, (clearSuspiciousIp t c (clearSuspiciousIp t c w1).2).1 = false).
Proof.
  intros Hav Ho. cbv zeta.
  destruct (addToSuspiciousIps_write now c r w o Hav Ho)
    as (Hav1 & d & Hd & Hlast & _ & Hcount & _).
  set (w1 := (addToSuspiciousIps now c r w).2) in *.
  assert (∀ t, t ≤ now + 86400000 →
               Redis.find t (db w1) (suspiciousKeyOf c)
               = Some (mkEntry (RString (PSuspicious d)) (Some (now + 86400000)))) as Hlive.
  { intros t Ht. unfold Redis.find. rewrite Hd. unfold Redis.expired. cbn [ttl].
    destruct (now + 86400000 <? t) eqn:Hlt; [lia|done]. }
  exists d. split; [done|]. split; [done|]. split; [|split; [|split; [|split]]].
  - intros t Ht.
    by apply (getSuspiciousIpInfo_present t c w1 d (Some (now + 86400000)) Hav1), Hlive.
  - intros t Ht. apply (getSuspiciousIpInfo_absent t c w1 Hav1).
    unfold Redis.find. rewrite Hd. unfold Redis.expired. cbn [ttl].
    destruct (now + 86400000 <? t) eqn:Hlt; [done|lia].
  - intros t Ht. rewrite (clearSuspiciousIp_eq t c w1 Hav1). cbn [fst].
    by rewrite Hlive.
  - intros t t'. rewrite (clearSuspiciousIp_eq t c w1 Hav1). cbn [snd].
    rewrite getSuspiciousIpInfo_absent; [done|done|].
    unfold Redis.find. cbn [db set_db]. by rewrite lookup_delete_eq.
  - intros t. rewrite (clearSuspiciousIp_eq t c w1 Hav1). cbn [snd].
    rewrite clearSuspiciousIp_eq by done. cbn [fst db set_db].
    unfold Redis.find. by rewrite lookup_delete_eq.
Qed.

Lemma ledger_roundtrip_witness :
  let w1 := (addToSuspiciousIps 1000 "1.2.3.4" "probe" fresh_world).2 in
  getSuspiciousIpInfo 86401000 "1.2.3.4" w1
  = (Ok (Some (PSuspicious (mkSuspiciousData "1.2.3.4" ["probe"] 1000 1000 1 medium))), w1)
  ∧ getSuspiciousIpInfo 86401001 "1.2.3.4" w1 = (Ok None, w1)
  ∧ (clearSuspiciousIp 2000 "1.2.3.4" w1).1 = true.
Proof.
  destruct (ledger_roundtrip 1000 "1.2.3.4" "probe" fresh_world None eq_refl eq_refl)
    as (d & _ & _ & Hget & Hlapsed & Hclear & _).
  split; [|split].
  - rewrite (Hget 86401000); [|discriminate].
    assert (Ok (Some (PSuspicious d))
            = (getSuspiciousIpInfo 86401000 "1.2.3.4"
                 (addToSuspiciousIps 1000 "1.2.3.4" "probe" fresh_world).2).1) as Heq.
    { rewrite (Hget 86401000); [reflexivity|discriminate]. }
    rewrite Heq. reflexivity.
  - apply Hlapsed. reflexivity.
  - apply Hclear. discriminate.
Defined.


(** The world that one call of [trackRequest] leaves. *)
Lemma trackRequest_eq now c w m :
  let mk := minuteKeyOf c (now / 60000) in
  let hk := hourKeyOf c (now / 3600000) in
  let hc := hourCountAfter now (db w) hk in
  RedisService.isAvailable w = true →
  counter now (db w) mk = Some m →
  ∃ d', (∀ key, key ≠ mk → key ≠ hk → d' !! key = db w !! key)
        ∧ trackRequest now c w
          = (mkTrackResult ((500 <? m + 1) || (5000 <? hc)) (1000 <? m + 1) (m + 1),
             if (500 <? m + 1) || (5000 <? hc) || (1000 <? m + 1)
             then (addToSuspiciousIps now c (highRateReason (m + 1) hc) (set_db d' w)).2
             else set_db d' w).
Proof.
  intros mk hk hc Hav Hm.
  destruct (trackRequest_pipeline now c (db w) m Hm)
    as (r3 & r4 & d' & Hexec & Hr3 & _ & _ & Hframe).
  fold mk hk in Hexec, Hr3, Hframe. fold hc in Hr3.
  exists d'. split; [done|].
  unfold trackRequest. fold mk hk.
  apply executeOperation_Ok; [done|].
  unfold bind, exec_pipeline, await, ret. rewrite Hexec.
  cbn [lookup list_lookup reply_or_0] in *. cbn in Hr3. rewrite Hr3.
  destruct ((500 <? m + 1) || (5000 <? hc) || (1000 <? m + 1)); [|done].
  by destruct (addToSuspiciousIps now c (highRateReason (m + 1) hc) (set_db d' w)) as [[] ?].
Qed.

Lemma ledgerAt_lookup now (d d' : DB) key :
  d' !! key = d !! key → ledgerAt now d' key = ledgerAt now d key.
Proof. intros H. unfold ledgerAt, Redis.find. by rewrite H. Qed.

(** A request that trackRequest reports as blocked or as DDoS is written to
    the ledger of suspicious addresses with a reason that carries both
    counts; a request that is neither leaves the ledger as it is. *)
Theorem high_rate_is_recorded now c w m h o :
  let minuteKey := minuteKeyOf c (now / 60000) in
  let hourKey := hourKeyOf c (now / 3600000) in
  RedisService.isAvailable w = true →
  counter now (db w) minuteKey = Some m →
  counter now (db w) hourKey = Some h →
  ledgerAt now (db w) (suspiciousKeyOf c) = Some o →
  let r := (trackRequest now c w).1 in
  let w' := (trackRequest now c w).2 in
  (isBlocked r = true ∨ isDdos r = true →
   ∃ d, db w' !! suspiciousKeyOf c
        = Some (mkEntry (RString (PSuspicious d)) (Some (now + 86400000)))
        ∧ last (reasons d)
          = Some ("High request rate: " +:+ pretty (m + 1) +:+ "/min, "
                    +:+ pretty (h + 1) +:+ "/hour")
        ∧ count d = match o with Some d0 => count d0 + 1 | None => 1 end)
  ∧ (isBlocked r = false → isDdos r = false →
     db w' !! suspiciousKeyOf c = db w !! suspiciousKeyOf c).
Proof.
  intros mk hk Hav Hm Hh Ho. cbv zeta.
  destruct (trackRequest_eq now c w m Hav Hm) as (d' & Hframe & Heq).
  fold mk hk in Hframe, Heq. unfold hourCountAfter in Heq. rewrite Hh in Heq.
  rewrite Heq. cbn [fst snd isBlocked isDdos].
  assert (d' !! suspiciousKeyOf c = db w !! suspiciousKeyOf c) as Hsk.
  { apply Hframe; [apply suspiciousKey_minuteKey|apply suspiciousKey_hourKey]. }
  split.
  - intros Hflag.
    assert ((500 <? m + 1) || (5000 <? h + 1) || (1000 <? m + 1) = true) as ->.
    { destruct Hflag as [-> | ->]; [done|]. by rewrite orb_true_r. }
    destruct (addToSuspiciousIps_write now c (highRateReason (m + 1) (h + 1))
                (set_db d' w) o) as (_ & d & Hd & Hlast & _ & Hcount & _); [done| |].
    { cbn [db set_db]. rewrite <- Ho. by apply ledgerAt_lookup. }
    exists d. split; [done|]. split; [done|done].
  - intros -> ->. cbn [orb db set_db]. done.
Qed.

Lemma high_rate_is_recorded_witness :
  let w' := (trackRequest 120001 "1.2.3.4" (counting_world 500)).2 in
  ∃ d, db w' !! suspiciousKeyOf "1.2.3.4"
       = Some (mkEntry (RString (PSuspicious d)) (Some 86520001))
       ∧ last (reasons d) = Some "High request rate: 501/min, 1/hour".
Proof.
  destruct (high_rate_is_recorded 120001 "1.2.3.4" (counting_world 500) 500 0 None)
    as [Hrec _]; [vm_compute; reflexivity..|].
  destruct Hrec as (d & Hd & Hlast & _); [left; vm_compute; reflexivity|].
  exists d. split; [exact Hd|exact Hlast].
Defined.


(** The minute counter after calls that all fall in the window [mw]. *)
Lemma trackRequests_counter c mw times : ∀ w k,
  RedisService.isAvailable w = true →
  Forall (fun now => now / 60000 = mw) times →
  (∀ now, now / 60000 = mw → counter now (db w) (minuteKeyOf c mw) = Some k) →
  let w' := (trackRequests c times w).2 in
  RedisService.isAvailable w' = true
  ∧ ∀ now, now / 60000 = mw →
           counter now (db w') (minuteKeyOf c mw) = Some (k + Z.of_nat (length times)).
Proof.
  induction times as [|now rest IH]; intros w k Hav Hin Hk.
  { cbn. split; [done|]. intros now Hnow. rewrite Z.add_0_r. by apply Hk. }
  apply Forall_cons in Hin as [Hnow Hrest].
  destruct (trackRequest_step now c w k Hav) as (w1 & Hstep & Hav1 & _ & Hmk & _).
  { rewrite Hnow. by apply Hk. }
  rewrite Hnow in Hmk. cbn [trackRequests]. rewrite Hstep.
  destruct (IH w1 (k + 1) Hav1 Hrest) as (Hav' & Hcount).
  { intros t Ht. unfold counter, Redis.find. rewrite Hmk.
    apply window_bounds in Hnow, Ht.
    unfold Redis.expired. cbn [ttl].
    destruct (now + 60000 <? t) eqn:Hlt; [lia|done]. }
  destruct (trackRequests c rest w1) as [rs w2]. cbn [snd] in *.
  split; [done|]. intros t Ht. rewrite (Hcount t Ht). f_equal. cbn [length]. lia.
Qed.

(** The advisory check follows the tracker: after N tracked requests of a
    client in one minute window, shouldRateLimit in that window announces
    max(0, 500 - N) remaining requests, limits from the 500th on, and gives
    the start of the next window as reset time. *)
Theorem remaining_quota_follows_tracker c mw times w t :
  RedisService.isAvailable w = true →
  Forall (fun now => now / 60000 = mw) times →
  db w !! minuteKeyOf c mw = None →
  t / 60000 = mw →
  let w' := (trackRequests c times w).2 in
  let N := Z.of_nat (length times) in
  shouldRateLimit t c w'
  = (mkRateLimit (500 <=? N) (Num (Z.max 0 (500 - N))) ((mw + 1) * 60000), w').
Proof.
  intros Hav Hin Hfree Ht. cbv zeta.
  destruct (trackRequests_counter c mw times w 0 Hav Hin) as [Hav' Hcount].
  { intros now _. unfold counter. by rewrite find_absent. }
  rewrite (shouldRateLimit_counter t c _ (Z.of_nat (length times)) Hav').
  - by rewrite Ht.
  - rewrite Ht. by rewrite (Hcount t Ht).
Qed.

Lemma remaining_quota_follows_tracker_witness :
  let w' := (trackRequests "1.2.3.4" [120001; 120500; 179999] fresh_world).2 in
  shouldRateLimit 150000 "1.2.3.4" w' = (mkRateLimit false (Num 497) 180000, w').
Proof.
  apply (remaining_quota_follows_tracker "1.2.3.4" 2 [120001; 120500; 179999]
           fresh_world 150000); [reflexivity|repeat constructor|reflexivity..].
Defined.

(** Whatever the state of the store, the reset time that shouldRateLimit
    announces lies after the present instant and at most one minute ahead. *)
Theorem resetTime_within_a_minute now c w :
  let r := (shouldRateLimit now c w).1 in
  now < resetTime r ≤ now + 60000.
Proof.
  cbv zeta. unfold shouldRateLimit, RedisService.executeOperation.
  pose proof (Z.div_mod now 60000). pose proof (Z.mod_pos_bound now 60000).
  destruct (negb (RedisService.isAvailable w) || negb (client w)); cbn [fst resetTime];
    [lia|].
  unfold bind, call, ret.
  destruct (Redis.get now (minuteKeyOf c (now / 60000)) (db w)) as [[v|e] d];
    cbn [fst resetTime]; lia.
Qed.








End Tracker.

(** *** The wrappers of RedisService *)

Section Wrappers.

Lemma get_stored t key w v e :
  RedisService.isAvailable w = true →
  db w !! key = Some (mkEntry (RString v) e) →
  RedisService.get t key w
  = (if Redis.expired t (mkEntry (RString v) e) then None else Some v, w).
Proof.
  intros Hav Hd. unfold RedisService.get.
  apply executeOperation_Ok; [done|].
  unfold call, Redis.get, Redis.find. rewrite Hd.
  destruct (Redis.expired t _); by rewrite set_db_id.
Qed.

(** RedisService.set followed by RedisService.get: without a ttl, or with
    the ttl 0, the value is read back at any later instant; with a positive
    ttl it is read back up to now + ttl seconds and is gone afterwards; with
    a negative ttl nothing is stored and set answers null. *)
Theorem set_then_get now key v ttl w :
  RedisService.isAvailable w = true →
  let r := RedisService.set now key v ttl w in
  (ttl = None ∨ ttl = Some 0 →
   r.1 = Some "OK" ∧ ∀ t, RedisService.get t key r.2 = (Some v, r.2))
  ∧ (∀ s, ttl = Some s → 0 < s →
       r.1 = Some "OK"
       ∧ (∀ t, t ≤ now + s * 1000 → RedisService.get t key r.2 = (Some v, r.2))
       ∧ (∀ t, now + s * 1000 < t → RedisService.get t key r.2 = (None, r.2)))
  ∧ (∀ s, ttl = Some s → s < 0 → r = (None, w)).
Proof.
  intros Hav. cbv zeta. split; [|split].
  - intros Httl.
    assert (RedisService.set now key v ttl w
            = (Some "OK", set_db (<[key := mkEntry (RString v) None]> (db w)) w)) as ->.
    { unfold RedisService.set. apply executeOperation_Ok; [done|].
      by destruct Httl as [-> | ->]. }
    split; [done|]. intros t. cbn [snd].
    rewrite (get_stored t key _ v None); [done|done|].
    cbn [db set_db]. by rewrite lookup_insert_eq.
  - intros s -> Hs.
    assert (RedisService.set now key v (Some s) w
            = (Some "OK",
               set_db (<[key := mkEntry (RString v) (Some (now + s * 1000))]> (db w)) w))
      as ->.
    { unfold RedisService.set. apply executeOperation_Ok; [done|].
      destruct (Z.eqb_spec s 0); [lia|].
      unfold bind, call, ret, Redis.setex. by destruct (Z.leb_spec s 0); [lia|]. }
    split; [done|]. cbn [snd]. split; intros t Ht.
    + rewrite (get_stored t key _ v (Some (now + s * 1000))); [|done|].
      * unfold Redis.expired. cbn [ttl]. by destruct (Z.ltb_spec (now + s * 1000) t); [lia|].
      * cbn [db set_db]. by rewrite lookup_insert_eq.
    + rewrite (get_stored t key _ v (Some (now + s * 1000))); [|done|].
      * unfold Redis.expired. cbn [ttl]. by destruct (Z.ltb_spec (now + s * 1000) t); [|lia].
      * cbn [db set_db]. by rewrite lookup_insert_eq.
  - intros s -> Hs. unfold RedisService.set.
    rewrite (executeOperation_Throw _ _ w ReplyError w); [done|done| |done].
    destruct (Z.eqb_spec s 0); [lia|].
    unfold bind, call, Redis.setex. destruct (Z.leb_spec s 0); [|lia].
    by rewrite set_db_id.
Qed.

Lemma set_then_get_witness :
  let r := RedisService.set 1000 "k" (PText "v") (Some 0) fresh_world in
  RedisService.get 999999999 "k" r.2 = (Some (PText "v"), r.2)
  ∧ RedisService.set 1000 "k" (PText "v") (Some (-5)) fresh_world = (None, fresh_world).
Proof.
  destruct (set_then_get 1000 "k" (PText "v") (Some 0) fresh_world eq_refl)
    as [Hzero _].
  destruct (set_then_get 1000 "k" (PText "v") (Some (-5)) fresh_world eq_refl)
    as (_ & _ & Hneg).
  split.
  - destruct Hzero as [_ Hget]; [right; reflexivity|]. apply Hget.
  - apply (Hneg (-5)); reflexivity.
Defined.

End Wrappers.

(** *** The metrics and their index *)

Section Metrics.
Import RedisPerformanceService.

Lemma omap_perm {A B} (f : A → option B) (l1 l2 : list A) :
  l1 ≡ₚ l2 → omap f l1 ≡ₚ omap f l2.
Proof.
  induction 1 as [|x l1 l2 _ IH|x y l|l1 l2 l3 _ IH1 _ IH2]; csimpl.
  - done.
  - destruct (f x); by rewrite IH.
  - destruct (f x), (f y); try done. apply perm_swap.
  - by etransitivity.
Qed.

Lemma omap_map_fst {A B C} (f : A → option C) (l : list (A * B)) :
  omap f (map fst l) = omap (fun x => f x.1) l.
Proof. induction l as [|x l IH]; [done|]. csimpl. by rewrite IH. Qed.

Lemma omap_ext_in {A B} (f g : A → option B) (l : list A) :
  (∀ x, x ∈ l → f x = g x) → omap f l = omap g l.
Proof.
  induction l as [|x l IH]; intros H; [done|]. csimpl.
  rewrite (H x) by set_solver. rewrite IH; [done|]. intros y Hy. apply H. set_solver.
Qed.

Lemma filter_length_perm {A} (f : A → bool) (l1 l2 : list A) :
  l1 ≡ₚ l2 → length (List.filter f l1) = length (List.filter f l2).
Proof.
  induction 1 as [|x l1 l2 _ IH|x y l|l1 l2 l3 _ IH1 _ IH2]; simpl.
  - done.
  - destruct (f x); simpl; lia.
  - destruct (f x), (f y); simpl; lia.
  - lia.
Qed.

(** Sorting forgets the order in which the samples were read. *)
Lemma merge_sort_perm (l1 l2 : list Z) :
  l1 ≡ₚ l2 → merge_sort Z.le l1 = merge_sort Z.le l2.
Proof.
  intros H. apply (Sorted_unique Z.le).
  - apply Sorted_merge_sort. apply _.
  - apply Sorted_merge_sort. apply _.
  - by rewrite !merge_sort_Permutation.
Qed.

Lemma zrange_elem lo hi (z : gmap string Z) key s :
  (key, s) ∈ Redis.zrange lo hi z
  ↔ z !! key = Some s ∧ Redis.in_range lo hi (key, s) = true.
Proof.
  unfold Redis.zrange. rewrite merge_sort_Permutation.
  rewrite list_elem_of_In, filter_In, <- list_elem_of_In, elem_of_map_to_list.
  done.
Qed.

Lemma foldr_delete_lookup (z : gmap string Z) (gone : list (string * Z)) key :
  foldr (fun x acc => delete x.1 acc) z gone !! key
  = if decide (key ∈ gone.*1) then None else z !! key.
Proof.
  induction gone as [|[k s] gone IH].
  - by rewrite decide_False by set_solver.
  - cbn [foldr fst]. rewrite fmap_cons. cbn [fst].
    destruct (decide (k = key)) as [->|Hne].
    + rewrite lookup_delete_eq. by rewrite decide_True by set_solver.
    + rewrite lookup_delete_ne by done. rewrite IH.
      destruct (decide (key ∈ gone.*1)).
      * by rewrite decide_True by set_solver.
      * by rewrite decide_False by set_solver.
Qed.

(** What ZREMRANGEBYSCORE leaves of a sorted set. *)
Lemma ztrim_lookup lo hi (z : gmap string Z) key :
  foldr (fun x acc => delete x.1 acc) z (Redis.zrange lo hi z) !! key
  = match z !! key with
    | Some s => if Redis.in_range lo hi (key, s) then None else Some s
    | None => None
    end.
Proof.
  rewrite foldr_delete_lookup. destruct (decide _) as [Hin|Hnin].
  - apply list_elem_of_fmap in Hin as ([k s] & -> & Hin).
    apply zrange_elem in Hin as [Hz Hr]. cbn [fst]. by rewrite Hz, Hr.
  - destruct (z !! key) as [s|] eqn:Hz; [|done].
    destruct (Redis.in_range lo hi (key, s)) eqn:Hr; [|done].
    exfalso. apply Hnin. apply list_elem_of_fmap. exists (key, s).
    split; [done|]. by apply zrange_elem.
Qed.

Lemma metricKey_index now random : metricKeyOf now random ≠ METRICS_SORTED_SET.
Proof.
  unfold metricKeyOf, METRICS_KEY, METRICS_SORTED_SET.
  cbv [String.append]. congruence.
Qed.

Lemma metricKey_stats now random :
  metricKeyOf now random ≠ SYSTEM_STATS_KEY +:+ ":current".
Proof.
  unfold metricKeyOf, METRICS_KEY, SYSTEM_STATS_KEY.
  cbv [String.append]. congruence.
Qed.

Lemma index_stats : METRICS_SORTED_SET ≠ SYSTEM_STATS_KEY +:+ ":current".
Proof. done. Qed.

Lemma getSystemMetrics_index now w z :
  RedisService.isAvailable w = true →
  indexOf (db w) = Some z →
  map_Forall (fun key _ => metric_or_free now (db w) key = true) z →
  let recent := recentOf now (db w) z in
  let responseTimes := merge_sort Z.le (responseTime <$> recent) in
  let n := length responseTimes in
  getSystemMetrics now w
  = (mkSystemMetrics
       (mkResponseTimeStats
          (if (0 <? n)%nat
           then Some (divDouble (sum responseTimes) (Z.of_nat n))
           else Some 0%Q)
          (nth (p95IndexOf n) responseTimes 0)
          (nth (p99IndexOf n) responseTimes 0))
       (mkRequestCountStats
          (Z.of_nat (length recent))
          (Z.of_nat (length (List.filter (fun m => isSuccess (statusCode m)) recent)))
          (Z.of_nat (length recent)
           - Z.of_nat (length (List.filter (fun m => isSuccess (statusCode m)) recent)))),
     w).
Proof.
  intros Hav Hz Hclean. unfold indexOf in Hz.
  destruct (db w !! METRICS_SORTED_SET) as [[[| |z'] [t|]]|] eqn:Hk; simplify_eq.
  - apply (getSystemMetrics_eq now w z None Hav); [|done].
    unfold Redis.find. by rewrite Hk.
  - cbv zeta. unfold recentOf, Redis.zrange. rewrite map_to_list_empty.
    unfold getSystemMetrics. apply executeOperation_Ok; [done|].
    unfold bind at 1. unfold call at 1. unfold Redis.zrangebyscore.
    rewrite (find_absent _ _ _ Hk). rewrite set_db_id. done.
Qed.

Lemma updateSystemStats_eq now metric w :
  RedisService.isAvailable w = true →
  let statsKey := SYSTEM_STATS_KEY +:+ ":current" in
  updateSystemStats now metric w
  = (tt, set_db (Redis.exec now
                   [Redis.HINCRBY statsKey "total_requests" 1;
                    (if isSuccess (statusCode metric)
                     then Redis.HINCRBY statsKey "successful_requests" 1
                     else Redis.HINCRBY statsKey "failed_requests" 1);
                    Redis.EXPIRE statsKey 3600] (db w)).2 w).
Proof.
  intros Hav statsKey. unfold updateSystemStats. apply executeOperation_Ok; [done|].
  cbv zeta. fold statsKey. unfold bind, exec_pipeline, ret.
  by destruct (Redis.exec _ _ _).
Qed.

Lemma recordMetric_eq now random heapUsed endpoint method rt status w z :
  RedisService.isAvailable w = true →
  indexOf (db w) = Some z →
  let k := metricKeyOf now random in
  let m := mkPerformanceMetric endpoint method rt now status heapUsed in
  let z1 := <[k := now]> z in
  let z' := foldr (fun x acc => delete x.1 acc) z1 (Redis.zrange 0 (now - 86400000) z1) in
  let d3 := <[METRICS_SORTED_SET := mkEntry (RZSet z') None]>
              (<[k := mkEntry (RString (PMetric m)) (Some (now + 86400000))]> (db w)) in
  let statsKey := SYSTEM_STATS_KEY +:+ ":current" in
  recordMetric now random heapUsed endpoint method rt status w
  = (tt, set_db (Redis.exec now
                   [Redis.HINCRBY statsKey "total_requests" 1;
                    (if isSuccess status
                     then Redis.HINCRBY statsKey "successful_requests" 1
                     else Redis.HINCRBY statsKey "failed_requests" 1);
                    Redis.EXPIRE statsKey 3600] d3).2 w).
Proof.
  intros Hav Hz k m z1 z' d3 statsKey.
  assert (z' !! k = Some now) as Hk.
  { unfold z'. rewrite ztrim_lookup. unfold z1. rewrite lookup_insert_eq.
    unfold Redis.in_range. cbn [snd].
    destruct (now <=? now - 86400000) eqn:Hle; [lia|]. by rewrite andb_false_r. }
  assert (z' ≠ ∅) as Hne.
  { intros Heq. rewrite Heq in Hk. by rewrite lookup_empty in Hk. }
  unfold recordMetric. apply executeOperation_Ok; [done|].
  cbv zeta. change (METRICS_KEY +:+ ":" +:+ pretty now +:+ ":" +:+ random) with k.
  change (now - 24 * 60 * 60 * 1000) with (now - 86400000).
  unfold bind at 1. unfold call at 1. unfold Redis.setex.
  change (24 * 60 * 60 <=? 0) with false. cbv iota.
  change (now + 24 * 60 * 60 * 1000) with (now + 86400000).
  fold m.
  set (d1 := <[k := mkEntry (RString (PMetric m)) (Some (now + 86400000))]> (db w)) in *.
  assert (Redis.zadd now METRICS_SORTED_SET now k d1
          = (Ok (if z !! k is Some _ then 0 else 1),
             <[METRICS_SORTED_SET := mkEntry (RZSet z1) None]> d1)) as Hzadd.
  { unfold Redis.zadd, d1. rewrite find_insert_ne by apply metricKey_index.
    unfold indexOf in Hz. unfold Redis.find.
    destruct (db w !! METRICS_SORTED_SET) as [[[| |z0] [t|]]|]; try discriminate Hz.
    - injection Hz as Hz0. rewrite Hz0. reflexivity.
    - injection Hz as Hz0. unfold z1. rewrite <- Hz0.
      rewrite insert_empty, lookup_empty. reflexivity. }
  unfold bind at 1. unfold call at 1. cbn [db set_db]. rewrite Hzadd.
  cbn [db set_db isConnected client blockIpCalls].
  set (d2 := <[METRICS_SORTED_SET := mkEntry (RZSet z1) None]> d1).
  assert (Redis.zremrangebyscore now METRICS_SORTED_SET 0 (now - 86400000) d2
          = (Ok (Z.of_nat (length (Redis.zrange 0 (now - 86400000) z1))), d3)) as Hzrem.
  { unfold Redis.zremrangebyscore, d2. rewrite find_insert_eq by reflexivity.
    fold z'. rewrite decide_False by exact Hne. unfold d3.
    by rewrite insert_insert_eq. }
  unfold bind at 1. unfold call at 1. cbn [db set_db]. rewrite Hzrem.
  change (set_db d3 (set_db d2 (set_db d1 w))) with (set_db d3 w).
  unfold bind, await. rewrite updateSystemStats_eq by done.
  cbv zeta. unfold m. cbn [db set_db isConnected client blockIpCalls statusCode]. done.
Qed.
Lemma stats_pipeline_frame now status (d : DB) key :
  key ≠ SYSTEM_STATS_KEY +:+ ":current" →
  let statsKey := SYSTEM_STATS_KEY +:+ ":current" in
  (Redis.exec now
     [Redis.HINCRBY statsKey "total_requests" 1;
      (if isSuccess status
       then Redis.HINCRBY statsKey "successful_requests" 1
       else Redis.HINCRBY statsKey "failed_requests" 1);
      Redis.EXPIRE statsKey 3600] d).2 !! key = d !! key.
Proof.
  intros Hne statsKey. apply exec_frame.
  unfold statsKey. destruct (isSuccess status); repeat constructor;
    cbn [key_of]; congruence.
Qed.

Lemma NoDup_List_filter {A} (f : A → bool) (l : list A) :
  NoDup l → NoDup (List.filter f l).
Proof.
  induction 1 as [|x l Hx _ IH]; simpl; [constructor|].
  destruct (f x); [|done]. constructor; [|done].
  rewrite list_elem_of_In, filter_In, <- list_elem_of_In. by intros [? _].
Qed.

Lemma filter_map_to_list_elem (f : string * Z → bool) (z : gmap string Z) key s :
  (key, s) ∈ List.filter f (map_to_list z) ↔ z !! key = Some s ∧ f (key, s) = true.
Proof.
  by rewrite list_elem_of_In, filter_In, <- list_elem_of_In, elem_of_map_to_list.
Qed.

Lemma recentOf_perm later (d : DB) (z : gmap string Z) :
  recentOf later d z
  ≡ₚ omap (fun x : string * Z => metricAt later d x.1)
       (List.filter (Redis.in_range (later - 300000) later) (map_to_list z)).
Proof.
  unfold recentOf, Redis.zrange. rewrite omap_map_fst.
  apply omap_perm, merge_sort_Permutation.
Qed.

(** The window of [getSystemMetrics] over the index that [recordMetric]
    leaves: the new key and what the window held. *)
Lemma window_insert now later (z : gmap string Z) k :
  z !! k = None → now ≤ later ≤ now + 300000 →
  let z1 := <[k := now]> z in
  let z' := foldr (fun x acc => delete x.1 acc) z1 (Redis.zrange 0 (now - 86400000) z1) in
  List.filter (Redis.in_range (later - 300000) later) (map_to_list z')
  ≡ₚ (k, now) :: List.filter (Redis.in_range (later - 300000) later) (map_to_list z).
Proof.
  intros Hfresh Hlater z1 z'. apply NoDup_Permutation.
  - apply NoDup_List_filter, NoDup_map_to_list.
  - apply NoDup_cons. split.
    + rewrite filter_map_to_list_elem. rewrite Hfresh. by intros [? _].
    + apply NoDup_List_filter, NoDup_map_to_list.
  - intros [key s]. rewrite elem_of_cons, !filter_map_to_list_elem.
    unfold z'. rewrite ztrim_lookup. unfold z1.
    unfold Redis.in_range. cbn [snd].
    destruct (decide (key = k)) as [->|Hne].
    + rewrite lookup_insert_eq, Hfresh.
      assert ((now <=? now - 86400000) = false) as -> by (apply Z.leb_gt; lia).
      rewrite andb_false_r. split.
      * intros [[= <-] H]. by left.
      * intros [[= <-]|[? _]]; [|done]. split; [done|].
        apply andb_true_iff; split; apply Z.leb_le; lia.
    + rewrite lookup_insert_ne by done.
      destruct (z !! key) as [s0|] eqn:Hz.
      * destruct ((0 <=? s0) && (s0 <=? now - 86400000)) eqn:Hold.
        -- apply andb_true_iff in Hold as [H0 H1]. apply Z.leb_le in H0, H1.
           split; [by intros [? _]|]. intros [[= -> _]|[[= <-] H]]; [done|].
           apply andb_true_iff in H as [H2 _]. apply Z.leb_le in H2. lia.
        -- split; [intros [[= <-] H]; by right|].
           intros [[= -> _]|[[= <-] H]]; done.
      * split; [by intros [? _]|]. intros [[= -> _]|[? _]]; done.
Qed.
Lemma prefix_not_index key :
  String.prefix "performance:metrics:" key = true →
  key ≠ METRICS_SORTED_SET ∧ key ≠ SYSTEM_STATS_KEY +:+ ":current".
Proof. intros H. split; intros ->; discriminate H. Qed.

Lemma metricAt_lookup later (d d' : DB) key :
  d' !! key = d !! key → metricAt later d' key = metricAt later d key.
Proof. intros H. unfold metricAt. by rewrite (find_lookup later d d' key H). Qed.

Lemma metric_or_free_lookup later (d d' : DB) key :
  d' !! key = d !! key → metric_or_free later d' key = metric_or_free later d key.
Proof. intros H. unfold metric_or_free. by rewrite (find_lookup later d d' key H). Qed.

(** What [getSystemMetrics] reads after a [recordMetric]. *)
Lemma recordMetric_recent now random heapUsed endpoint method rt status w z later :
  RedisService.isAvailable w = true →
  indexOf (db w) = Some z →
  map_Forall (fun key _ => String.prefix "performance:metrics:" key = true
                           ∧ metric_or_free later (db w) key = true) z →
  z !! metricKeyOf now random = None →
  now ≤ later ≤ now + 300000 →
  let w' := (recordMetric now random heapUsed endpoint method rt status w).2 in
  let m := mkPerformanceMetric endpoint method rt now status heapUsed in
  RedisService.isAvailable w' = true
  ∧ ∃ z', indexOf (db w') = Some z'
          ∧ map_Forall (fun key _ => metric_or_free later (db w') key = true) z'
          ∧ metricAt later (db w') (metricKeyOf now random) = Some m
          ∧ recentOf later (db w') z' ≡ₚ m :: recentOf later (db w) z.
Proof.
  intros Hav Hz Hclean Hfresh Hlater. cbv zeta.
  rewrite (recordMetric_eq _ _ _ _ _ _ _ _ z Hav Hz). cbv zeta. cbn [snd db set_db].
  set (k := metricKeyOf now random) in *.
  set (m := mkPerformanceMetric endpoint method rt now status heapUsed).
  set (z1 := <[k := now]> z).
  set (z' := foldr (fun x acc => delete x.1 acc) z1 (Redis.zrange 0 (now - 86400000) z1)).
  set (d1 := <[k := mkEntry (RString (PMetric m)) (Some (now + 86400000))]> (db w)).
  set (d3 := <[METRICS_SORTED_SET := mkEntry (RZSet z') None]> d1).
  set (d4 := (Redis.exec now _ d3).2).
  assert (∀ key, key ≠ SYSTEM_STATS_KEY +:+ ":current" → d4 !! key = d3 !! key) as Hd4.
  { intros key Hne. by apply stats_pipeline_frame. }
  assert (d4 !! METRICS_SORTED_SET = Some (mkEntry (RZSet z') None)) as Hindex.
  { rewrite Hd4 by apply index_stats. unfold d3. by rewrite lookup_insert_eq. }
  assert (d4 !! k = Some (mkEntry (RString (PMetric m)) (Some (now + 86400000)))) as Hkey.
  { rewrite Hd4 by apply metricKey_stats. unfold d3.
    rewrite lookup_insert_ne by (intros H; by apply (metricKey_index now random)).
    unfold d1. by rewrite lookup_insert_eq. }
  assert (∀ key s, z !! key = Some s → d4 !! key = db w !! key) as Hold.
  { intros key s Hin. destruct (Hclean key s Hin) as [Hp _].
    apply prefix_not_index in Hp as [Hp1 Hp2].
    rewrite Hd4 by done. unfold d3. rewrite lookup_insert_ne by done.
    unfold d1. rewrite lookup_insert_ne; [done|]. intros <-. congruence. }
  assert (metricAt later d4 k = Some m) as Hm.
  { unfold metricAt, Redis.find. rewrite Hkey. unfold Redis.expired. cbn [ttl].
    assert ((now + 86400000 <? later) = false) as -> by (apply Z.ltb_ge; lia). done. }
  split; [done|]. exists z'. split; [|split; [|split; [done|]]].
  - unfold indexOf. by rewrite Hindex.
  - intros key s Hin. cbv beta. unfold z' in Hin. rewrite ztrim_lookup in Hin.
    unfold z1 in Hin. destruct (decide (key = k)) as [->|Hne].
    + unfold metric_or_free, Redis.find. rewrite Hkey. unfold Redis.expired. cbn [ttl].
      assert ((now + 86400000 <? later) = false) as -> by (apply Z.ltb_ge; lia). done.
    + rewrite lookup_insert_ne in Hin by done.
      destruct (z !! key) as [s0|] eqn:Hzk; [|done].
      rewrite (metric_or_free_lookup later (db w) d4 key (Hold key s0 Hzk)).
      by destruct (Hclean key s0 Hzk).
  - rewrite !recentOf_perm.
    pose proof (window_insert now later z k Hfresh Hlater) as Hw.
    cbv zeta in Hw. fold z1 in Hw. fold z' in Hw. rewrite (omap_perm _ _ _ Hw).
    csimpl. rewrite Hm. apply Permutation_skip.
    erewrite omap_ext_in; [done|]. intros [key s] Hin. cbn [fst].
    apply filter_map_to_list_elem in Hin as [Hin _].
    apply metricAt_lookup. by eapply Hold.
Qed.
(** A metric recorded by recordMetric under a key that the index
    does not hold yet is stored under that key and, at every instant of
    the five minutes that follow, counted once by getSystemMetrics: the
    total grows by one, and so does the count of successes when the status
    is in [200, 400), the count of failures otherwise; the response times
    that getSystemMetrics summarises are those it summarised before and
    the new one. *)
Theorem recorded_metric_is_counted now random heapUsed endpoint method rt status w z later :
  RedisService.isAvailable w = true →
  indexOf (db w) = Some z →
  map_Forall (fun key _ => String.prefix "performance:metrics:" key = true
                           ∧ metric_or_free later (db w) key = true) z →
  z !! metricKeyOf now random = None →
  now ≤ later ≤ now + 300000 →
  let w' := (recordMetric now random heapUsed endpoint method rt status w).2 in
  let before := requestCountStats (getSystemMetrics later w).1 in
  let after := requestCountStats (getSystemMetrics later w').1 in
  metricAt later (db w') (metricKeyOf now random)
  = Some (mkPerformanceMetric endpoint method rt now status heapUsed)
  ∧ total after = total before + 1
  ∧ successful after = successful before + (if isSuccess status then 1 else 0)
  ∧ failed after = failed before + (if isSuccess status then 0 else 1)
  ∧ samplesOf later (db w') (zsetAt later (db w') METRICS_SORTED_SET)
    ≡ₚ rt :: samplesOf later (db w) z.
Proof.
  intros Hav Hz Hclean Hfresh Hlater.
  destruct (recordMetric_recent now random heapUsed endpoint method rt status w z later
              Hav Hz Hclean Hfresh Hlater)
    as (Hav' & z' & Hz' & Hclean' & Hm & Hrecent).
  cbv zeta in *.
  set (w' := (recordMetric now random heapUsed endpoint method rt status w).2) in *.
  assert (map_Forall (fun key _ => metric_or_free later (db w) key = true) z) as Hclean0.
  { intros key s Hin. by destruct (Hclean key s Hin). }
  rewrite (getSystemMetrics_index later w z Hav Hz Hclean0).
  rewrite (getSystemMetrics_index later w' z' Hav' Hz' Hclean').
  cbn [fst requestCountStats total successful failed].
  rewrite (Permutation_length Hrecent).
  rewrite (filter_length_perm _ _ _ Hrecent).
  cbn [length List.filter statusCode].
  assert (zsetAt later (db w') METRICS_SORTED_SET = z') as ->.
  { unfold zsetAt, Redis.find. unfold indexOf in Hz'.
    destruct (db w' !! METRICS_SORTED_SET) as [[[| |z0] [t|]]|]; try discriminate Hz'.
    - by injection Hz' as ->.
    - by injection Hz' as <-. }
  split; [done|]. split; [lia|].
  split; [destruct (isSuccess status); cbn [length]; lia|].
  split; [destruct (isSuccess status); cbn [length]; lia|].
  rewrite <- !recent_samples, Hrecent. done.
Qed.

Lemma recorded_metric_is_counted_witness :
  let w := recordSamples 1000000 [30; 10; 20] fresh_world in
  let w' := (recordMetric 1000050 "0.7" 0 "/graphql" "POST" 40 500 w).2 in
  total (requestCountStats (getSystemMetrics 1000100 w').1)
  = total (requestCountStats (getSystemMetrics 1000100 w).1) + 1
  ∧ failed (requestCountStats (getSystemMetrics 1000100 w').1)
    = failed (requestCountStats (getSystemMetrics 1000100 w).1) + 1.
Proof.
  destruct (recorded_metric_is_counted 1000050 "0.7" 0 "/graphql" "POST" 40 500
              (recordSamples 1000000 [30; 10; 20] fresh_world)
              (zsetAt 1000100 (db (recordSamples 1000000 [30; 10; 20] fresh_world))
                 METRICS_SORTED_SET) 1000100)
    as (_ & Htotal & _ & Hfailed & _).
  - reflexivity.
  - reflexivity.
  - refine (bool_decide_unpack _ _). vm_compute. exact I.
  - reflexivity.
  - lia.
  - split; [exact Htotal|exact Hfailed].
Defined.
(** [getSystemMetrics] depends on the metrics it reads, not on the order
    in which it reads them. *)
Lemma getSystemMetrics_same later w1 z1 w2 z2 :
  RedisService.isAvailable w1 = true →
  indexOf (db w1) = Some z1 →
  map_Forall (fun key _ => metric_or_free later (db w1) key = true) z1 →
  RedisService.isAvailable w2 = true →
  indexOf (db w2) = Some z2 →
  map_Forall (fun key _ => metric_or_free later (db w2) key = true) z2 →
  recentOf later (db w1) z1 ≡ₚ recentOf later (db w2) z2 →
  (getSystemMetrics later w1).1 = (getSystemMetrics later w2).1.
Proof.
  intros Hav1 Hz1 Hc1 Hav2 Hz2 Hc2 Hperm.
  rewrite (getSystemMetrics_index later w1 z1 Hav1 Hz1 Hc1).
  rewrite (getSystemMetrics_index later w2 z2 Hav2 Hz2 Hc2).
  cbn [fst].
  rewrite (merge_sort_perm _ _ (fmap_Permutation responseTime _ _ Hperm)).
  rewrite (Permutation_length Hperm).
  by rewrite (filter_length_perm _ _ _ Hperm).
Qed.

Lemma clearOldMetrics_eq now w z :
  RedisService.isAvailable w = true →
  indexOf (db w) = Some z →
  let z' := foldr (fun x acc => delete x.1 acc) z (Redis.zrange 0 (now - 86400000) z) in
  ∃ d', clearOldMetrics now w = (tt, set_db d' w)
        ∧ indexOf d' = Some z'
        ∧ zsetAt now d' METRICS_SORTED_SET = z'
        ∧ ∀ key, key ≠ METRICS_SORTED_SET → d' !! key = db w !! key.
Proof.
  intros Hav Hz z'. unfold indexOf in Hz.
  destruct (db w !! METRICS_SORTED_SET) as [[[| |z0] [t|]]|] eqn:Hk; try discriminate Hz.
  - injection Hz as Hz0.
    exists (if decide (z' = ∅) then delete METRICS_SORTED_SET (db w)
            else <[METRICS_SORTED_SET := mkEntry (RZSet z') None]> (db w)).
    split; [|split; [|split]].
    + unfold clearOldMetrics. apply executeOperation_Ok; [done|].
      cbv zeta. change (now - 24 * 60 * 60 * 1000) with (now - 86400000).
      unfold bind, call, ret, Redis.zremrangebyscore, Redis.find.
      rewrite Hk. cbn [Redis.expired ttl]. rewrite Hz0. fold z'. done.
    + unfold indexOf. destruct (decide (z' = ∅)) as [->|].
      * by rewrite lookup_delete_eq.
      * by rewrite lookup_insert_eq.
    + unfold zsetAt, Redis.find. destruct (decide (z' = ∅)) as [->|].
      * by rewrite lookup_delete_eq.
      * by rewrite lookup_insert_eq.
    + intros key Hne. destruct (decide (z' = ∅)).
      * by rewrite lookup_delete_ne.
      * by rewrite lookup_insert_ne.
  - injection Hz as Hz0. exists (db w).
    assert (z' = ∅) as Hz'.
    { unfold z'. rewrite <- Hz0. unfold Redis.zrange. by rewrite map_to_list_empty. }
    split; [|split; [|split]].
    + unfold clearOldMetrics. apply executeOperation_Ok; [done|].
      cbv zeta. unfold bind, call, ret, Redis.zremrangebyscore.
      by rewrite (find_absent _ _ _ Hk).
    + unfold indexOf. by rewrite Hk, Hz'.
    + unfold zsetAt. by rewrite (find_absent _ _ _ Hk), Hz'.
    + done.
Qed.
(** clearOldMetrics removes from the index the members whose score
    lies in [0, now - 24 h] and no other, and changes nothing of what
    getSystemMetrics returns at an instant whose five-minute window starts
    after now - 24 h. *)
Theorem clearOldMetrics_keeps_window now later w z :
  RedisService.isAvailable w = true →
  indexOf (db w) = Some z →
  map_Forall (fun key _ => metric_or_free later (db w) key = true) z →
  now - 86400000 < later - 300000 →
  let w' := (clearOldMetrics now w).2 in
  (∀ key s, zsetAt now (db w') METRICS_SORTED_SET !! key = Some s
            ↔ z !! key = Some s ∧ ¬ (0 ≤ s ≤ now - 86400000))
  ∧ (getSystemMetrics later w').1 = (getSystemMetrics later w).1.
Proof.
  intros Hav Hz Hclean Hlater.
  destruct (clearOldMetrics_eq now w z Hav Hz) as (d' & Heq & Hz' & Hzset & Hframe).
  cbv zeta in *. rewrite Heq. cbn [snd db set_db].
  set (z' := foldr (fun x acc => delete x.1 acc) z (Redis.zrange 0 (now - 86400000) z)) in *.
  assert (∀ key s, z' !! key = Some s ↔ z !! key = Some s ∧ ¬ (0 ≤ s ≤ now - 86400000))
    as Hlookup.
  { intros key s. unfold z'. rewrite ztrim_lookup.
    destruct (z !! key) as [s0|]; [|by split; [|intros [? _]]].
    unfold Redis.in_range. cbn [snd].
    destruct ((0 <=? s0) && (s0 <=? now - 86400000)) eqn:Hold.
    - apply andb_true_iff in Hold as [H0 H1]. apply Z.leb_le in H0, H1.
      split; [done|]. intros [[= <-] H]. lia.
    - apply andb_false_iff in Hold.
      split; [intros [= <-]; split; [done|]|by intros [? _]].
      destruct Hold as [H|H]; apply Z.leb_gt in H; lia. }
  split; [by rewrite Hzset|].
  assert (∀ key, metricAt later d' key = metricAt later (db w) key) as Hmetric.
  { intros key. destruct (decide (key = METRICS_SORTED_SET)) as [->|Hne].
    - unfold metricAt, Redis.find. unfold indexOf in Hz, Hz'.
      destruct (d' !! METRICS_SORTED_SET) as [[[| |?] [?|]]|]; try discriminate Hz';
        destruct (db w !! METRICS_SORTED_SET) as [[[| |?] [?|]]|]; try discriminate Hz;
        done.
    - apply metricAt_lookup. by apply Hframe. }
  apply (getSystemMetrics_same later (set_db d' w) z' w z); try done.
  - intros key s Hin. cbv beta. cbn [db set_db].
    destruct (decide (key = METRICS_SORTED_SET)) as [->|Hne].
    + unfold metric_or_free, Redis.find. unfold indexOf in Hz'.
      destruct (d' !! METRICS_SORTED_SET) as [[[| |?] [?|]]|]; try discriminate Hz'; done.
    + rewrite (metric_or_free_lookup later (db w) d' key (Hframe key Hne)).
      apply Hlookup in Hin as [Hin _]. by apply (Hclean key s).
  - cbn [db set_db]. rewrite !recentOf_perm.
    rewrite (omap_ext_in _ (fun x : string * Z => metricAt later (db w) x.1));
      [|intros; apply Hmetric].
    apply omap_perm. apply NoDup_Permutation.
    + apply NoDup_List_filter, NoDup_map_to_list.
    + apply NoDup_List_filter, NoDup_map_to_list.
    + intros [key s]. rewrite !filter_map_to_list_elem, Hlookup.
      unfold Redis.in_range. cbn [snd]. rewrite andb_true_iff, !Z.leb_le.
      intuition lia.
Qed.

Lemma clearOldMetrics_keeps_window_witness :
  let w := (recordMetric 87000000 "0.7" 0 "/graphql" "POST" 40 200
              (recordSamples 1000000 [30] fresh_world)).2 in
  (getSystemMetrics 87000100 (clearOldMetrics 87500000 w).2).1
  = (getSystemMetrics 87000100 w).1.
Proof.
  refine (proj2 (clearOldMetrics_keeps_window 87500000 87000100
                   (recordMetric 87000000 "0.7" 0 "/graphql" "POST" 40 200
                      (recordSamples 1000000 [30] fresh_world)).2
                   {[ metricKeyOf 1000000 "0.5" := 1000000;
                      metricKeyOf 87000000 "0.7" := 87000000 ]} _ _ _ _)).
  - reflexivity.
  - reflexivity.
  - refine (bool_decide_unpack _ _). vm_compute. exact I.
  - lia.
Defined.
Lemma sorted_nth_le (l : list Z) :
  StronglySorted Z.le l →
  ∀ i j, (i ≤ j)%nat → (j < length l)%nat → nth i l 0 ≤ nth j l 0.
Proof.
  induction 1 as [|x l Hl IH Hx]; intros i j Hij Hj; simpl in Hj; [lia|].
  destruct i as [|i], j as [|j]; simpl; try lia.
  - rewrite Forall_forall in Hx. apply Hx, list_elem_of_In, nth_In. lia.
  - apply IH; lia.
Qed.

Lemma percentile_index_le (n : nat) : (p95IndexOf n ≤ p99IndexOf n)%nat.
Proof.
  unfold p95IndexOf, p99IndexOf. apply Z2Nat.inj_le.
  - apply Z.div_pos; lia.
  - apply Z.div_pos; lia.
  - apply Z.div_le_mono; lia.
Qed.

(** Up to 100 samples the 99th percentile is read at the last index, up
    to 20 samples the 95th percentile too. *)
Lemma percentile_index_last (n : nat) :
  ((0 < n ≤ 100)%nat → p99IndexOf n = (n - 1)%nat)
  ∧ ((0 < n ≤ 20)%nat → p95IndexOf n = (n - 1)%nat).
Proof.
  unfold p95IndexOf, p99IndexOf. split; intros Hn.
  - rewrite <- (Z.div_unique (Z.of_nat n * 99) 100 (Z.of_nat n - 1) (100 - Z.of_nat n));
      lia.
  - rewrite <- (Z.div_unique (Z.of_nat n * 95) 100 (Z.of_nat n - 1) (100 - 5 * Z.of_nat n));
      lia.
Qed.

(** The percentiles that getSystemMetrics returns are ordered,
    p95 <= p99; both are recorded response times as soon as there is one in
    the window, and 0 with the mean 0 when there is none; no recorded
    response time exceeds p99 when the window holds at most 100 of them,
    nor p95 when it holds at most 20. *)
Theorem percentiles_are_ordered now w z :
  RedisService.isAvailable w = true →
  indexOf (db w) = Some z →
  map_Forall (fun key _ => metric_or_free now (db w) key = true) z →
  let samples := samplesOf now (db w) z in
  let stats := responseTimeStats (getSystemMetrics now w).1 in
  p95 stats ≤ p99 stats
  ∧ (samples = [] → p95 stats = 0 ∧ p99 stats = 0 ∧ average stats = Some 0%Q)
  ∧ (samples ≠ [] → p95 stats ∈ samples ∧ p99 stats ∈ samples)
  ∧ ((0 < length samples ≤ 100)%nat → ∀ x, x ∈ samples → x ≤ p99 stats)
  ∧ ((0 < length samples ≤ 20)%nat → ∀ x, x ∈ samples → x ≤ p95 stats).
Proof.
  intros Hav Hz Hclean. cbv zeta.
  rewrite (getSystemMetrics_index now w z Hav Hz Hclean).
  cbn [fst responseTimeStats average p95 p99].
  pose proof (recent_samples now (db w) z) as Hperm.
  set (times := responseTime <$> recentOf now (db w) z) in *.
  set (samples := samplesOf now (db w) z) in *.
  set (sorted := merge_sort Z.le times).
  assert (sorted ≡ₚ samples) as Hsorted.
  { unfold sorted. by rewrite merge_sort_Permutation. }
  assert (StronglySorted Z.le sorted) as Hstrong.
  { apply Sorted_StronglySorted; [apply _|]. apply Sorted_merge_sort. apply _. }
  rewrite <- (Permutation_length Hsorted).
  set (n := length sorted).
  assert (∀ i, (i < n)%nat → nth i sorted 0 ∈ samples) as Hnth.
  { intros i Hi. rewrite <- Hsorted. by apply list_elem_of_In, nth_In. }
  assert (∀ x, x ∈ samples → x ≤ nth (n - 1) sorted 0) as Hmax.
  { intros x Hx. rewrite <- Hsorted in Hx.
    apply list_elem_of_lookup in Hx as [i Hi].
    pose proof (lookup_lt_Some _ _ _ Hi) as Hlt.
    rewrite <- (nth_lookup_Some sorted i 0 x Hi).
    apply sorted_nth_le; [done| |]; unfold n; lia. }
  destruct (percentile_index_last n) as [H99 H95].
  split; [|split; [|split; [|split]]].
  - destruct (decide (n = 0%nat)) as [Hn|Hn].
    + unfold n in Hn. apply length_zero_iff_nil in Hn. rewrite Hn.
      by destruct (p95IndexOf n), (p99IndexOf n).
    + apply sorted_nth_le; [done|apply percentile_index_le|].
      apply percentile_index_bound. lia.
  - intros Hnil. rewrite Hnil in Hsorted. apply Permutation_nil_r in Hsorted.
    unfold n. rewrite Hsorted. done.
  - intros Hne. assert (0 < n)%nat as Hn.
    { unfold n. destruct sorted; [|simpl; lia].
      symmetry in Hsorted. by apply Permutation_nil_r in Hsorted. }
    destruct (percentile_index_bound n Hn). split; by apply Hnth.
  - intros Hn x Hx. rewrite (H99 Hn). by apply Hmax.
  - intros Hn x Hx. rewrite (H95 Hn). by apply Hmax.
Qed.

Lemma percentiles_are_ordered_witness :
  let stats :=
    responseTimeStats
      (getSystemMetrics 1000100 (recordSamples 1000000 [30; 10; 20] fresh_world)).1 in
  p95 stats ≤ p99 stats.
Proof.
  refine (proj1 (percentiles_are_ordered 1000100
                   (recordSamples 1000000 [30; 10; 20] fresh_world)
                   (zsetAt 1000100 (db (recordSamples 1000000 [30; 10; 20] fresh_world))
                      METRICS_SORTED_SET) _ _ _)).
  - reflexivity.
  - reflexivity.
  - refine (bool_decide_unpack _ _). vm_compute. exact I.
Defined.
Lemma hincrby_stat now (d : DB) key field n h t0 v :
  hashAt now d key = Some (h, t0) →
  match h !! field with
  | None => Some 0
  | Some (PInt m) => Some m
  | Some _ => None
  end = Some v →
  Redis.hincrby now key field n d
  = (Ok (v + n), <[key := mkEntry (RHash (<[field := PInt (v + n)]> h)) t0]> d).
Proof.
  unfold hashAt, Redis.hincrby. intros Hh Hv.
  destruct (Redis.find now d key) as [[[|h1|] t1]|]; try discriminate Hh.
  - injection Hh as -> ->.
    destruct (h !! field) as [[m| | | |]|]; try discriminate Hv;
      injection Hv as Hv; by subst v.
  - injection Hh as <- <-. rewrite lookup_empty in Hv. injection Hv as Hv. subst v.
    by rewrite insert_empty.
Qed.

(** The three commands of [updateSystemStats] on the hash of statistics. *)
Lemma stats_pipeline_db now status (d : DB) h t0 t s f :
  let statsKey := SYSTEM_STATS_KEY +:+ ":current" in
  hashAt now d statsKey = Some (h, t0) →
  statOf now d "total_requests" = Some t →
  statOf now d "successful_requests" = Some s →
  statOf now d "failed_requests" = Some f →
  (Redis.exec now
     [Redis.HINCRBY statsKey "total_requests" 1;
      (if isSuccess status
       then Redis.HINCRBY statsKey "successful_requests" 1
       else Redis.HINCRBY statsKey "failed_requests" 1);
      Redis.EXPIRE statsKey 3600] d).2
  = <[statsKey :=
        mkEntry
          (RHash ((if isSuccess status
                   then <["successful_requests" := PInt (s + 1)]>
                   else <["failed_requests" := PInt (f + 1)]>)
                    (<["total_requests" := PInt (t + 1)]> h)))
          (Some (now + 3600000))]> d.
Proof.
  intros statsKey Hh Ht Hs Hf. unfold statOf in Ht, Hs, Hf. fold statsKey in Ht, Hs, Hf.
  rewrite Hh in Ht, Hs, Hf.
  pose proof (hashAt_live now d statsKey h t0) as Hlive.
  assert (∀ h1, hashAt now (<[statsKey := mkEntry (RHash h1) t0]> d) statsKey
                = Some (h1, t0)) as Hins.
  { intros h1. by apply (hashAt_insert now d statsKey h t0 h1). }
  destruct (isSuccess status); cbn [Redis.exec Redis.run].
  - rewrite (hincrby_stat now d statsKey "total_requests" 1 h t0 t Hh Ht).
    rewrite (hincrby_stat now _ statsKey "successful_requests" 1 _ t0 s (Hins _));
      [|by rewrite lookup_insert_ne].
    rewrite insert_insert_eq.
    rewrite expire_inserted; [|lia|by apply Hlive].
    done.
  - rewrite (hincrby_stat now d statsKey "total_requests" 1 h t0 t Hh Ht).
    rewrite (hincrby_stat now _ statsKey "failed_requests" 1 _ t0 f (Hins _));
      [|by rewrite lookup_insert_ne].
    rewrite insert_insert_eq.
    rewrite expire_inserted; [|lia|by apply Hlive].
    done.
Qed.
(** recordMetric adds one to the counter total_requests of the hash
    of system statistics and one to successful_requests when the status is
    in [200, 400), to failed_requests otherwise (an absent hash or field
    counts as 0), and lets the hash expire one hour later: the counters
    read the new values up to that instant and 0 after it. *)
Theorem system_stats_add_up now random heapUsed endpoint method rt status w z t s f :
  RedisService.isAvailable w = true →
  indexOf (db w) = Some z →
  statOf now (db w) "total_requests" = Some t →
  statOf now (db w) "successful_requests" = Some s →
  statOf now (db w) "failed_requests" = Some f →
  let w' := (recordMetric now random heapUsed endpoint method rt status w).2 in
  (∀ later, later ≤ now + 3600000 →
     statOf later (db w') "total_requests" = Some (t + 1)
     ∧ statOf later (db w') "successful_requests"
       = Some (s + (if isSuccess status then 1 else 0))
     ∧ statOf later (db w') "failed_requests"
       = Some (f + (if isSuccess status then 0 else 1)))
  ∧ (∀ later field, now + 3600000 < later → statOf later (db w') field = Some 0).
Proof.
  intros Hav Hz Ht Hs Hf. cbv zeta.
  rewrite (recordMetric_eq _ _ _ _ _ _ _ _ z Hav Hz). cbv zeta. cbn [snd db set_db].
  set (statsKey := SYSTEM_STATS_KEY +:+ ":current").
  set (d3 := <[METRICS_SORTED_SET := _]> (<[metricKeyOf now random := _]> (db w))).
  assert (d3 !! statsKey = db w !! statsKey) as Hsame.
  { unfold d3. rewrite lookup_insert_ne by apply index_stats.
    by rewrite lookup_insert_ne by apply metricKey_stats. }
  assert (∀ field, statOf now d3 field = statOf now (db w) field) as Hstat.
  { intros field. unfold statOf. fold statsKey.
    by rewrite (hashAt_lookup now (db w) d3 statsKey Hsame). }
  rewrite <- Hstat in Ht, Hs, Hf.
  destruct (hashAt now d3 statsKey) as [[h t0]|] eqn:Hh;
    [|unfold statOf in Ht; fold statsKey in Ht; by rewrite Hh in Ht].
  pose proof (stats_pipeline_db now status d3 h t0 t s f Hh Ht Hs Hf) as Hpipe.
  fold statsKey in Hpipe. rewrite Hpipe. clear Hpipe.
  unfold statOf in Ht, Hs, Hf. fold statsKey in Ht, Hs, Hf. rewrite Hh in Ht, Hs, Hf.
  split.
  - intros later Hlater. unfold statOf, hashAt. fold statsKey.
    rewrite find_insert_eq
      by (unfold Redis.expired; cbn [ttl]; apply Z.ltb_ge; lia).
    destruct (isSuccess status).
    + rewrite lookup_insert_ne by done. rewrite !lookup_insert_eq.
      rewrite !lookup_insert_ne by done. rewrite Hf, Z.add_0_r. done.
    + rewrite lookup_insert_ne by done. rewrite !lookup_insert_eq.
      rewrite lookup_insert_ne by done. rewrite lookup_insert_ne by done.
      rewrite Hs, Z.add_0_r. done.
  - intros later field Hlater. unfold statOf, hashAt, Redis.find. fold statsKey.
    rewrite lookup_insert_eq. unfold Redis.expired. cbn [ttl].
    assert ((now + 3600000 <? later) = true) as -> by (apply Z.ltb_lt; lia).
    by rewrite lookup_empty.
Qed.

Lemma system_stats_add_up_witness :
  let w := recordSamples 1000000 [30] fresh_world in
  let w' := (recordMetric 1000050 "0.7" 0 "/graphql" "POST" 40 500 w).2 in
  statOf 1000100 (db w') "total_requests" = Some 2
  ∧ statOf 1000100 (db w') "successful_requests" = Some 1
  ∧ statOf 1000100 (db w') "failed_requests" = Some 1.
Proof.
  refine (proj1 (system_stats_add_up 1000050 "0.7" 0 "/graphql" "POST" 40 500
                   (recordSamples 1000000 [30] fresh_world)
                   {[ metricKeyOf 1000000 "0.5" := 1000000 ]} 1 1 0 _ _ _ _ _)
            1000100 _).
  - reflexivity.
  - reflexivity.
  - reflexivity.
  - reflexivity.
  - reflexivity.
  - lia.
Defined.



End Metrics.

(** *** The middleware in front of the services *)

Section Middleware.
Import RedisIpBlockingService SecurityMiddleware.

Lemma isBlocked_unavailable now i w :
  RedisService.isAvailable w = false → isBlocked now i w = (false, w).
Proof. intros H. by apply executeOperation_unavailable. Qed.

Lemma trackSuspiciousActivity_unavailable now i a w :
  RedisService.isAvailable w = false → trackSuspiciousActivity now i a w = (tt, w).
Proof. intros H. by apply executeOperation_unavailable. Qed.

(** A request of a client that [isBlocked] reports as blocked. *)
Lemma use_blocked now req w w' :
  isBlocked now (clientIp req) w = (true, w') →
  use now req w = (Sent 403 "Access denied" "Your IP address has been blocked", w').
Proof. intros H. unfold use. cbv zeta. by rewrite H. Qed.

(** A request that carries an SQL injection in its URL, of a client that is
    neither blocked nor in a malicious range. *)
Lemma use_injection now i w :
  isBlocked now i w = (false, w) →
  isKnownMaliciousIp i = false →
  use now (injection_from i) w
  = (Sent 400 "Bad request" "Invalid request parameters",
     (trackSuspiciousActivity now i "SQL injection in URL" w).2).
Proof.
  intros Hb Hm. unfold use, injection_from. cbv zeta.
  cbn [clientIp contentLength suspiciousUserAgent sqlInjectionInUrl injectionInBody].
  rewrite Hb, Hm. cbn [number_gt]. change (50 * 1024 * 1024 <? 0) with false. cbv iota.
  by destruct (trackSuspiciousActivity now i "SQL injection in URL" w).
Qed.

(** An address in one of the three ranges is refused in every state of
    the store, whatever the request; on an available store without record
    for it, it is recorded as blocked, with the date now + 24 h as
    expiresAt, and refused as blocked for the 24 hours that follow. *)
Theorem known_malicious_is_refused now req w :
  isKnownMaliciousIp (clientIp req) = true →
  (∃ message, (use now req w).1 = Sent 403 "Access denied" message)
  ∧ (RedisService.isAvailable w = false → (use now req w).2.(db) = db w)
  ∧ (∀ h0, RedisService.isAvailable w = true →
           (∀ t, hashAt t (db w) BLOCKED_IPS_KEY = Some (h0, None)) →
           h0 !! clientIp req = None →
           let w' := (use now req w).2 in
           blockRecord now (db w') (clientIp req)
           = Some (PBlocked (mkBlockedIP (clientIp req) "Known malicious IP pattern" now
                               (newDate (now + 86400000)) true))
           ∧ ∀ later, later ≤ now + 86400000 →
                      use later req w'
                      = (Sent 403 "Access denied" "Your IP address has been blocked", w')).
Proof.
  intros Hm. split; [|split].
  - unfold use. cbv zeta. destruct (isBlocked now (clientIp req) w) as [[] w1]; [by eexists|].
    rewrite Hm. destruct (blockIp _ _ _ _ w1). by eexists.
  - intros Hav. unfold use. cbv zeta. rewrite (isBlocked_unavailable _ _ _ Hav), Hm.
    unfold blockIp. rewrite executeOperation_unavailable by done. done.
  - intros h0 Hav Hreg Hfree. cbv zeta.
    assert (isBlocked now (clientIp req) w = (false, w)) as Hb.
    { apply isBlocked_absent; [done|]. by rewrite (blockRecord_hashAt _ _ _ _ _ (Hreg now)). }
    assert (use now req w
            = (Sent 403 "Access denied" "Suspicious IP address detected",
               (blockIp now (clientIp req) "Known malicious IP pattern" (Some 1440) w).2))
      as ->.
    { unfold use. cbv zeta. rewrite Hb, Hm. by destruct (blockIp _ _ _ _ w). }
    cbn [snd].
    pose proof (blockIp_record now (clientIp req) "Known malicious IP pattern" (Some 1440)
                  w h0 None Hav (Hreg now)) as Hrec.
    pose proof (blockIp_available now (clientIp req) "Known malicious IP pattern"
                  (Some 1440) w Hav) as Hav'.
    set (w' := (blockIp now (clientIp req) "Known malicious IP pattern" (Some 1440) w).2) in *.
    assert (∀ t, blockRecord t (db w') (clientIp req)
                 = Some (PBlocked (mkBlockedIP (clientIp req) "Known malicious IP pattern"
                                     now (newDate (now + 86400000)) true))) as Hblock.
    { intros t. by rewrite (blockRecord_persistent _ _ _ _ Hrec), lookup_insert_eq. }
    split; [done|]. intros later Hlater. apply use_blocked.
    apply (isBlocked_live later _ w' _ Hav' (Hblock later)).
    cbn [isTemporary expiresAt andb].
    destruct (Z.le_gt_cases (Z.abs (now + 86400000)) 8640000000000000) as [Hin|Hout].
    + rewrite (newDate_valid _ Hin). apply Z.ltb_ge. lia.
    + by rewrite (newDate_invalid _ Hout).
Qed.

Lemma known_malicious_is_refused_witness :
  ∃ message,
    (use 1000 (mkRequest "192.0.2.7" (Num 0) false false false) offline_world).1
    = Sent 403 "Access denied" message.
Proof.
  refine (proj1 (known_malicious_is_refused 1000
                   (mkRequest "192.0.2.7" (Num 0) false false false) offline_world _)).
  reflexivity.
Defined.
(** While a block set by blockIp lasts, every request of the client is
    answered 403 and leaves the store as it is: nothing is tracked. *)
Theorem blocked_client_is_refused now0 reason n w h0 now req :
  RedisService.isAvailable w = true →
  (∀ t, hashAt t (db w) BLOCKED_IPS_KEY = Some (h0, None)) →
  n ≠ 0 →
  now ≤ now0 + n * 60000 →
  let w1 := (blockIp now0 (clientIp req) reason (Some n) w).2 in
  use now req w1 = (Sent 403 "Access denied" "Your IP address has been blocked", w1).
Proof.
  intros Hav Hreg Hn Hnow. cbv zeta.
  pose proof (blockIp_record now0 (clientIp req) reason (Some n) w h0 None Hav (Hreg now0))
    as Hrec.
  pose proof (blockIp_available now0 (clientIp req) reason (Some n) w Hav) as Hav'.
  set (w1 := (blockIp now0 (clientIp req) reason (Some n) w).2) in *.
  apply use_blocked.
  apply (isBlocked_live now _ w1 (blockedIPOf now0 (clientIp req) reason (Some n)) Hav').
  - by rewrite (blockRecord_persistent _ _ _ _ Hrec), lookup_insert_eq.
  - unfold blockedIPOf, truthy. change (minutes (Some n)) with n.
    cbn [isTemporary expiresAt].
    destruct (Z.eqb_spec n 0); [done|]. cbn [negb andb].
    destruct (Z.le_gt_cases (Z.abs (now0 + n * 60000)) 8640000000000000) as [Hin|Hout].
    + rewrite (newDate_valid _ Hin). apply Z.ltb_ge. lia.
    + by rewrite (newDate_invalid _ Hout).
Qed.

Lemma blocked_client_is_refused_witness :
  let req := mkRequest "1.2.3.4" (Num 0) false false false in
  let w1 := (blockIp 1000 "1.2.3.4" "manual" (Some 5) fresh_world).2 in
  use 2000 req w1 = (Sent 403 "Access denied" "Your IP address has been blocked", w1).
Proof.
  refine (blocked_client_is_refused 1000 "manual" 5 fresh_world ∅ 2000
            (mkRequest "1.2.3.4" (Num 0) false false false) _ _ _ _).
  - reflexivity.
  - intros t. reflexivity.
  - lia.
  - lia.
Defined.

(** Without the store the middleware lets a request pass that shows nothing
    suspicious, whatever the store holds about its client; no request
    changes the store. *)
Theorem middleware_fails_open now req w :
  RedisService.isAvailable w = false →
  db (use now req w).2 = db w
  ∧ (isKnownMaliciousIp (clientIp req) = false →
     number_gt (contentLength req) (50 * 1024 * 1024) = false →
     sqlInjectionInUrl req = false →
     injectionInBody req = false →
     use now req w = (Next, w)).
Proof.
  intros Hav. unfold use. cbv zeta. rewrite (isBlocked_unavailable _ _ _ Hav).
  split.
  - destruct (isKnownMaliciousIp (clientIp req)).
    { unfold blockIp. by rewrite executeOperation_unavailable by done. }
    rewrite !(trackSuspiciousActivity_unavailable _ _ _ _ Hav).
    destruct (number_gt _ _); [done|].
    assert ((if suspiciousUserAgent req then (tt, w).2 else w) = w) as ->
      by by destruct (suspiciousUserAgent req).
    rewrite !(trackSuspiciousActivity_unavailable _ _ _ _ Hav).
    by destruct (sqlInjectionInUrl req), (injectionInBody req).
  - intros -> -> -> ->.
    rewrite !(trackSuspiciousActivity_unavailable _ _ _ _ Hav).
    by destruct (suspiciousUserAgent req).
Qed.

Lemma middleware_fails_open_witness :
  use 1000 (mkRequest "1.2.3.4" (Num 0) true false false) offline_world
  = (Next, offline_world).
Proof.
  refine (proj2 (middleware_fails_open 1000
                   (mkRequest "1.2.3.4" (Num 0) true false false) offline_world _)
            _ _ _ _); reflexivity.
Defined.
Lemma serve_app l1 l2 w :
  serve (l1 ++ l2)%list w
  = ((serve l1 w).1 ++ (serve l2 (serve l1 w).2).1, (serve l2 (serve l1 w).2).2)%list.
Proof.
  revert w. induction l1 as [|[t req] l1 IH]; intros w.
  - cbn [app serve fst snd]. by destruct (serve l2 w).
  - cbn [app serve]. destruct (use t req w) as [r w1]. rewrite IH.
    destruct (serve l1 w1) as [rs w2]. cbn [fst snd]. by destruct (serve l2 w2).
Qed.

(** Offending requests of a client whose counter stays below five: each is
    answered 400 and counted. *)
Lemma serve_injections_within i deadline h0 times : ∀ w k,
  RedisService.isAvailable w = true →
  isKnownMaliciousIp i = false →
  1 ≤ k → k + Z.of_nat (length times) < 5 →
  db w !! activityKeyOf i = Some (mkEntry (RString (PInt k)) (Some deadline)) →
  (∃ hd td, db w !! detailsKeyOf i = Some (mkEntry (RHash hd) td)) →
  (∀ t, hashAt t (db w) BLOCKED_IPS_KEY = Some (h0, None)) →
  h0 !! i = None →
  Forall (fun t => t < deadline) times →
  serve (map (fun t => (t, injection_from i)) times) w
  = (map (fun _ => Sent 400 "Bad request" "Invalid request parameters") times,
     trackSuspiciousActivities i (map (fun t => (t, "SQL injection in URL")) times) w).
Proof.
  induction times as [|t rest IH]; intros w k Hav Hm Hk Hlen Hcount Hdet Hreg Hfree Hin;
    [done|].
  apply Forall_cons in Hin as [Ht Hrest]. cbn [length] in Hlen.
  destruct Hdet as (hd & td & Hdet).
  destruct (hashAt_of_hash t _ _ _ _ Hdet) as (hd1 & td1 & Hh).
  assert (counterEntry t (db w) (activityKeyOf i) = Some (k, Some deadline)) as Hc.
  { unfold counterEntry, Redis.find. rewrite Hcount. unfold Redis.expired. cbn [ttl].
    destruct (deadline <? t) eqn:Hlt; [lia|done]. }
  destruct (trackSuspiciousActivity_step t i "SQL injection in URL" w k _ hd1 td1
              Hav Hc Hh) as [Hav1 Hstep].
  pose proof (trackSuspiciousActivity_registry t i "SQL injection in URL" w k _ hd1 td1
                h0 None Hav Hc Hh (Hreg t)) as Hkey.
  destruct (Z.leb_spec 5 (k + 1)); [lia|].
  destruct (Z.eqb_spec (k + 1) 1); [lia|].
  destruct Hstep as (Hcalls & Hcount1 & hd' & Hdet1).
  assert (isBlocked t i w = (false, w)) as Hb.
  { apply isBlocked_absent; [done|]. by rewrite (blockRecord_hashAt _ _ _ _ _ (Hreg t)). }
  cbn [map serve trackSuspiciousActivities]. rewrite (use_injection t i w Hb Hm).
  rewrite (IH _ (k + 1) Hav1 Hm); eauto; try lia.
  intros t'. rewrite <- (Hreg t'). by apply hashAt_lookup.
Qed.
(** Five requests with an SQL injection in the URL, from a client without
    counter or block, within one hour of the first: each is answered 400,
    and from the fifth on every request of the client, whatever it
    carries, is answered 403 for the sixty minutes that follow the fifth. *)
Theorem five_injections_block i t1 t2 t3 t4 t5 w h0 :
  RedisService.isAvailable w = true →
  isKnownMaliciousIp i = false →
  db w !! activityKeyOf i = None →
  db w !! detailsKeyOf i = None →
  (∀ t, hashAt t (db w) BLOCKED_IPS_KEY = Some (h0, None)) →
  h0 !! i = None →
  t2 < t1 + 3600000 → t3 < t1 + 3600000 →
  t4 < t1 + 3600000 → t5 < t1 + 3600000 →
  let run := serve (map (fun t => (t, injection_from i)) [t1; t2; t3; t4; t5]) w in
  run.1 = replicate 5 (Sent 400 "Bad request" "Invalid request parameters")
  ∧ ∀ t req, clientIp req = i → t ≤ t5 + 3600000 →
             use t req run.2
             = (Sent 403 "Access denied" "Your IP address has been blocked", run.2).
Proof.
  intros Hav Hm Hfree Hdfree Hreg Hnone H2 H3 H4 H5. cbv zeta.
  change (map (fun t => (t, injection_from i)) [t1; t2; t3; t4; t5])
    with ([(t1, injection_from i)]
          ++ map (fun t => (t, injection_from i)) [t2; t3; t4]
          ++ [(t5, injection_from i)])%list.
  rewrite 2!serve_app.
  (* the first request *)
  pose proof (counterEntry_free t1 (db w) _ Hfree) as Hc1.
  pose proof (hashAt_free t1 (db w) _ Hdfree) as Hd1.
  destruct (trackSuspiciousActivity_step t1 i "SQL injection in URL" w 0 None ∅ None
              Hav Hc1 Hd1) as [Hav1 Hstep1].
  pose proof (trackSuspiciousActivity_registry t1 i "SQL injection in URL" w 0 None ∅ None
                h0 None Hav Hc1 Hd1 (Hreg t1)) as Hkey1.
  change (5 <=? 0 + 1) with false in Hstep1, Hkey1.
  change (0 + 1 =? 1) with true in Hstep1.
  change (0 + 1) with 1 in Hstep1. cbv iota in Hstep1, Hkey1.
  destruct Hstep1 as (_ & Hcount1 & hd1 & Hdet1).
  assert (isBlocked t1 i w = (false, w)) as Hb1.
  { apply isBlocked_absent; [done|]. by rewrite (blockRecord_hashAt _ _ _ _ _ (Hreg t1)). }
  assert (serve [(t1, injection_from i)] w
          = ([Sent 400 "Bad request" "Invalid request parameters"],
             (trackSuspiciousActivity t1 i "SQL injection in URL" w).2)) as ->.
  { cbn [serve]. by rewrite (use_injection t1 i w Hb1 Hm). }
  cbn [fst snd].
  set (w1 := (trackSuspiciousActivity t1 i "SQL injection in URL" w).2) in *.
  assert (∀ t, hashAt t (db w1) BLOCKED_IPS_KEY = Some (h0, None)) as Hreg1.
  { intros t. rewrite <- (Hreg t). by apply hashAt_lookup. }
  (* the second, third and fourth *)
  assert (Forall (fun t => t < t1 + 3600000) [t2; t3; t4]) as Hin.
  { repeat constructor; lia. }
  assert (Forall (fun call : Z * string => call.1 < t1 + 3600000)
            (map (fun t => (t, "SQL injection in URL")) [t2; t3; t4])) as Hin'.
  { repeat constructor; cbn [fst]; lia. }
  rewrite (serve_injections_within i (t1 + 3600000) h0 [t2; t3; t4] w1 1 Hav1 Hm);
    [|lia|cbn [length]; lia|done|eauto|done|done|exact Hin].
  cbn [fst snd].
  destruct (trackSuspiciousActivities_within i (t1 + 3600000)
              (map (fun t => (t, "SQL injection in URL")) [t2; t3; t4]) w1 1 Hav1)
    as (Hav4 & _ & Hcount4 & hd4 & td4 & Hdet4);
    [lia|cbn [length map]; lia|done|eauto|exact Hin'|].
  pose proof (trackSuspiciousActivities_within_registry i (t1 + 3600000)
                (map (fun t => (t, "SQL injection in URL")) [t2; t3; t4]) w1 1 Hav1)
    as Hkey4.
  set (w4 := trackSuspiciousActivities i
               (map (fun t => (t, "SQL injection in URL")) [t2; t3; t4]) w1) in *.
  change (1 + Z.of_nat (length (map (fun t => (t, "SQL injection in URL")) [t2; t3; t4])))
    with 4 in Hcount4.
  assert (db w4 !! BLOCKED_IPS_KEY = db w1 !! BLOCKED_IPS_KEY) as Hkey4'.
  { apply Hkey4; eauto; try lia. cbn [length map]. lia. }
  clear Hkey4.
  assert (∀ t, hashAt t (db w4) BLOCKED_IPS_KEY = Some (h0, None)) as Hreg4.
  { intros t. rewrite <- (Hreg1 t). by apply hashAt_lookup. }
  (* the fifth *)
  destruct (hashAt_of_hash t5 _ _ _ _ Hdet4) as (hd & td & Hh).
  assert (counterEntry t5 (db w4) (activityKeyOf i) = Some (4, Some (t1 + 3600000)))
    as Hc5.
  { unfold counterEntry, Redis.find. rewrite Hcount4. unfold Redis.expired.
    cbn [ttl value].
    destruct (t1 + 3600000 <? t5) eqn:Hlt; [lia|done]. }
  destruct (trackSuspiciousActivity_step t5 i "SQL injection in URL" w4 4 _ hd td
              Hav4 Hc5 Hh) as [Hav5 _].
  pose proof (trackSuspiciousActivity_registry t5 i "SQL injection in URL" w4 4 _ hd td
                h0 None Hav4 Hc5 Hh (Hreg4 t5)) as Hkey5.
  change (5 <=? 4 + 1) with true in Hkey5. cbv iota in Hkey5.
  assert (isBlocked t5 i w4 = (false, w4)) as Hb5.
  { apply isBlocked_absent; [done|]. by rewrite (blockRecord_hashAt _ _ _ _ _ (Hreg4 t5)). }
  assert (serve [(t5, injection_from i)] w4
          = ([Sent 400 "Bad request" "Invalid request parameters"],
             (trackSuspiciousActivity t5 i "SQL injection in URL" w4).2)) as ->.
  { cbn [serve]. by rewrite (use_injection t5 i w4 Hb5 Hm). }
  cbn [fst snd].
  set (w5 := (trackSuspiciousActivity t5 i "SQL injection in URL" w4).2) in *.
  split; [done|].
  intros t req <- Ht. apply use_blocked.
  apply (isBlocked_live t _ w5
           (blockedIPOf t5 (clientIp req) (autoBlockReason "SQL injection in URL")
              (Some 60)) Hav5).
  - by rewrite (blockRecord_persistent _ _ _ _ Hkey5), lookup_insert_eq.
  - cbn [blockedIPOf isTemporary expiresAt]. change (truthy (Some 60)) with true.
    change (minutes (Some 60) * 60000) with 3600000. cbn [andb].
    destruct (Z.le_gt_cases (Z.abs (t5 + 3600000)) 8640000000000000) as [Hvalid|Hout].
    + rewrite (newDate_valid _ Hvalid). apply Z.ltb_ge. lia.
    + by rewrite (newDate_invalid _ Hout).
Qed.

Lemma five_injections_block_witness :
  (serve (map (fun t => (t, injection_from "1.2.3.4")) [1000; 2000; 3000; 4000; 5000])
     fresh_world).1
  = replicate 5 (Sent 400 "Bad request" "Invalid request parameters").
Proof.
  refine (proj1 (five_injections_block "1.2.3.4" 1000 2000 3000 4000 5000 fresh_world ∅
                   _ _ _ _ _ _ _ _ _ _)).
  - reflexivity.
  - reflexivity.
  - reflexivity.
  - reflexivity.
  - intros t. reflexivity.
  - reflexivity.
  - lia.
  - lia.
  - lia.
  - lia.
Defined.

End Middleware.
